(** * Archive decoder and room compositor of the GameMaker asset viewer

    A shallow embedding of [gm_asset_viewer.py]: the [DataWin] chunk scan,
    the [GameExtractor] record decoders, and the parts of [RoomRenderer]
    that slice texture atlases and order the draw list.

    Conventions.
    - The archive is a [list byte]; Python integers are [Z].
    - A Python exception is the [Raise] case of [result].  Loops that the
      source bounds only by a growing position take a fuel argument; running
      out of it is the separate outcome [OutOfFuel], which the theorems rule
      out for the fuel the top-level functions pass.
    - A dict is a [gmap]; a list that is appended to is a [list] growing at
      its right end. *)

From Stdlib Require Import ZArith List Lia String Ascii DecimalString.
From Stdlib.Strings Require Import Byte.
From Stdlib Require Import Sorting.Sorted Sorting.Permutation.
From stdpp Require Import base option list gmap.

Local Open Scope Z_scope.

(** ** Exceptions and the result monad *)

Inductive exn : Type :=
| ValueError (msg : string)   (* raise ValueError(msg) *)
| StructError                 (* struct.error: read outside the buffer *)
| OverflowError               (* an integer that does not fit a C int *)
| MemoryError                 (* an allocation that fails *)
| OutOfFuel.                  (* artefact of the embedding, never Python's *)

Inductive result (A : Type) : Type :=
| Ok (a : A)
| Raise (e : exn).
Arguments Ok {A} a.
Arguments Raise {A} e.

#[global] Instance result_ret : MRet result := fun A a => Ok a.
#[global] Instance result_bind : MBind result := fun A B f m =>
  match m with
  | Ok a => f a
  | Raise e => Raise e
  end.
#[global] Instance result_fmap : FMap result := fun A B f m =>
  match m with
  | Ok a => Ok (f a)
  | Raise e => Raise e
  end.

(** [for i in range(n): s = body(i, s)], starting at index [i]. *)
Fixpoint for_range {S : Type} (n : nat) (i : Z)
    (body : Z -> S -> result S) (s : S) : result S :=
  match n with
  | O => Ok s
  | Datatypes.S n' => s' ← body i s; for_range n' (i + 1) body s'
  end.

Definition for_in_range {S : Type} (count : Z)
    (body : Z -> S -> result S) (s : S) : result S :=
  for_range (Z.to_nat count) 0 body s.

(** ** Python strings

    The decoder only ever builds a [str] in three ways: by decoding a byte
    slice with [errors='replace'], which never raises and yields the empty
    string exactly for the empty slice; from a literal; from an f-string
    of a literal prefix and an index.  The decoded text itself is kept as
    the bytes it came from. *)

Inductive codec : Type := utf_8 | ascii_codec.

Inductive pystr : Type :=
| decode (c : codec) (raw : list byte)   (* raw.decode(c, errors='replace') *)
| text (s : string).

Definition pystr_empty (s : pystr) : bool :=
  match s with
  | decode _ raw => match raw with [] => true | _ => false end
  | text s => match s with EmptyString => true | _ => false end
  end.

Definition str_of_int (i : Z) : string :=
  match i with
  | Zneg _ => String "-" (NilEmpty.string_of_uint (N.to_uint (Z.to_N (- i))))
  | _ => match NilEmpty.string_of_uint (N.to_uint (Z.to_N i)) with
         | EmptyString => "0"%string
         | s => s
         end
  end.

(** f"{prefix}{i}" *)
Definition fstr (prefix : string) (i : Z) : pystr :=
  text (prefix ++ str_of_int i)%string.

(** ** Byte cursor: [struct.unpack_from], slices and [bytes.find] *)

Definition byte_val (b : byte) : Z := Z.of_N (Byte.to_N b).

Definition le_int (bs : list byte) : Z :=
  foldr (fun b acc => byte_val b + 256 * acc) 0 bs.

Definition be_int (bs : list byte) : Z :=
  fold_left (fun acc b => 256 * acc + byte_val b) bs 0.

Definition blen (data : list byte) : Z := Z.of_nat (length data).

(** [struct.unpack_from(fmt, data, o)] for a format of [n] bytes: a negative
    offset counts from the end of the buffer, and any read that does not
    fit raises [struct.error]. *)
Definition unpack_from (n : nat) (data : list byte) (o : Z) : result (list byte) :=
  if (o <? 0) && ((0 <? o + Z.of_nat n) || (o + blen data <? 0)) then Raise StructError
  else
    let o' := if o <? 0 then o + blen data else o in
    if blen data - o' <? Z.of_nat n then Raise StructError
    else Ok (take n (drop (Z.to_nat o') data)).

Definition signed (bits : Z) (v : Z) : Z :=
  if v <? 2 ^ (bits - 1) then v else v - 2 ^ bits.

(** [data\[lo:hi\]]: indices clamp, negative ones count from the end. *)
Definition norm_index (len i : Z) : Z :=
  if i <? 0 then Z.max 0 (i + len) else Z.min i len.

Definition py_slice (data : list byte) (lo hi : Z) : list byte :=
  let l := norm_index (blen data) lo in
  let h := norm_index (blen data) hi in
  take (Z.to_nat (h - l)) (drop (Z.to_nat l) data).

(** Index of the first occurrence of [b] in [bs], if any. *)
Fixpoint index_of (b : byte) (bs : list byte) : option Z :=
  match bs with
  | [] => None
  | x :: bs' => if Byte.eqb x b then Some 0 else Z.succ <$> index_of b bs'
  end.

(** [data.find(bytes(\[b\]), lo, hi)]: the lowest index in [data\[lo:hi\]]
    holding [b], as an index into [data]; [-1] when there is none. *)
Definition bytes_find (data : list byte) (b : byte) (lo hi : Z) : Z :=
  match index_of b (py_slice data lo hi) with
  | Some k => norm_index (blen data) lo + k
  | None => -1
  end.

(** ** Data structures *)

Module ChunkID.
Definition FORM : Z := 0x4D524F46.
Definition GEN8 : Z := 0x384E4547.
Definition SOND : Z := 0x444E4F53.
Definition SPRT : Z := 0x54525053.
Definition BGND : Z := 0x444E4742.
Definition OBJT : Z := 0x544A424F.
Definition ROOM : Z := 0x4D4F4F52.
Definition TPAG : Z := 0x47415054.
Definition STRG : Z := 0x47525453.
Definition TXTR : Z := 0x52545854.
Definition AUDO : Z := 0x4F445541.
Definition FONT : Z := 0x544E4F46.
Definition PATH : Z := 0x48544150.
Definition SCPT : Z := 0x54504353.
Definition SHDR : Z := 0x52444853.
Definition TMLN : Z := 0x4E4C4D54.
Definition FUNC : Z := 0x434E5546.
Definition VARI : Z := 0x49524156.
Definition CODE : Z := 0x45444F43.
Definition OPTN : Z := 0x4E54504F.
Definition EXTN : Z := 0x4E545845.
Definition AGRP : Z := 0x50524741.
Definition TGIN : Z := 0x4E494754.

Definition NAMES : list (Z * string) :=
  [(0x4D524F46, "FORM"); (0x384E4547, "GEN8"); (0x4E54504F, "OPTN");
   (0x4E545845, "EXTN"); (0x444E4F53, "SOND"); (0x54525053, "SPRT");
   (0x444E4742, "BGND"); (0x48544150, "PATH"); (0x54504353, "SCPT");
   (0x52444853, "SHDR"); (0x544E4F46, "FONT"); (0x4E4C4D54, "TMLN");
   (0x544A424F, "OBJT"); (0x4D4F4F52, "ROOM"); (0x4C464144, "DAFL");
   (0x47415054, "TPAG"); (0x45444F43, "CODE"); (0x49524156, "VARI");
   (0x434E5546, "FUNC"); (0x47525453, "STRG"); (0x52545854, "TXTR");
   (0x4F445541, "AUDO"); (0x50524741, "AGRP"); (0x4E494754, "TGIN")]%string.
End ChunkID.

Module Chunk.
Record t : Type := mk
  { name : pystr; offset : Z; size : Z; data_start : Z }.
End Chunk.

(** ** DataWin *)

Module DataWin.
(** [trace] is a ghost field: the chunks in the order the scan wrote them
    into [chunks], each with the tag it was stored under. *)
Record t : Type := mk
  { data : list byte;
    size : Z;
    chunks : gmap Z Chunk.t;
    trace : list (Z * Chunk.t) }.
End DataWin.

Definition u16 (data : list byte) (o : Z) : result Z :=
  le_int <$> unpack_from 2 data o.
Definition i16 (data : list byte) (o : Z) : result Z :=
  (fun bs => signed 16 (le_int bs)) <$> unpack_from 2 data o.
Definition u32 (data : list byte) (o : Z) : result Z :=
  le_int <$> unpack_from 4 data o.
Definition i32 (data : list byte) (o : Z) : result Z :=
  (fun bs => signed 32 (le_int bs)) <$> unpack_from 4 data o.

(** A Python float.  Single-precision fields are kept as the 32 bits that
    [struct.unpack_from('<f', ...)] reads; no decoder computes with them. *)
Inductive pyfloat : Type :=
| F32 (bits : Z)
| float_lit (s : string).

Definition f32 (data : list byte) (o : Z) : result pyfloat :=
  (fun bs => F32 (le_int bs)) <$> unpack_from 4 data o.

(** [bool(v)] for an integer. *)
Definition py_bool (v : Z) : bool := negb (v =? 0).

(** [struct.pack('<I', v)] for [0 <= v < 2^32]. *)
Definition byte_of_Z (z : Z) : byte :=
  match Byte.of_N (Z.to_N (z mod 256)) with
  | Some b => b
  | None => x00
  end.

Definition pack_le (n : nat) (v : Z) : list byte :=
  (fix go (n : nat) (v : Z) : list byte :=
     match n with
     | O => []
     | Datatypes.S n' => byte_of_Z v :: go n' (v / 256)
     end) n v.

Fixpoint assoc_get {V : Type} (k : Z) (l : list (Z * V)) : option V :=
  match l with
  | [] => None
  | (k', v) :: l' => if k' =? k then Some v else assoc_get k l'
  end.

(** [ChunkID.NAMES.get(cid, struct.pack('<I', cid).decode('ascii', errors='replace'))] *)
Definition chunk_name (cid : Z) : pystr :=
  match assoc_get cid ChunkID.NAMES with
  | Some s => text s
  | None => decode ascii_codec (pack_le 4 cid)
  end.

(** The [while pos < self.size - 8] loop of [DataWin._parse].  The state is
    the dict [chunks] together with the ghost trace of writes. *)
Fixpoint _parse_loop (fuel : nat) (data : list byte) (pos : Z)
    (st : gmap Z Chunk.t * list (Z * Chunk.t))
  : result (gmap Z Chunk.t * list (Z * Chunk.t)) :=
  if pos <? blen data - 8 then
    match fuel with
    | O => Raise OutOfFuel
    | Datatypes.S fuel' =>
        cid ← u32 data pos;
        sz ← u32 data (pos + 4);
        let c := Chunk.mk (chunk_name cid) pos sz (pos + 8) in
        _parse_loop fuel' data (pos + (8 + sz)) (<[cid := c]> (fst st), snd st ++ [(cid, c)])
    end
  else Ok st.

(** [DataWin.__init__] on the bytes read from the file, with [_parse]. *)
Definition _parse (data : list byte) : result DataWin.t :=
  magic ← u32 data 0;
  if negb (magic =? ChunkID.FORM) then Raise (ValueError "Invalid data.win")
  else
    st ← _parse_loop (length data) data 8 (∅, []);
    Ok (DataWin.mk data (blen data) (fst st) (snd st)).

Definition c_str (dw : DataWin.t) (o : Z) : pystr :=
  let max_len := 200 in
  if (o =? 0) || (o >=? DataWin.size dw) then text ""
  else
    let end_ := bytes_find (DataWin.data dw) x00 o (o + max_len) in
    if end_ >? o then decode utf_8 (py_slice (DataWin.data dw) o end_) else text "".

(** ** Decoded records *)

Module TPAGEntry.
Record t : Type := mk
  { src_x : Z; src_y : Z; src_w : Z; src_h : Z;
    tgt_x : Z; tgt_y : Z; tgt_w : Z; tgt_h : Z;
    bound_w : Z; bound_h : Z; tex_id : Z }.
End TPAGEntry.

Module Sprite.
Record t : Type := mk
  { index : Z; name : pystr; width : Z; height : Z;
    origin_x : Z; origin_y : Z; frames : list TPAGEntry.t }.
End Sprite.

Module SoundDef.
Record t : Type := mk
  { index : Z; name : pystr; type_str : pystr; file_str : pystr;
    volume : pyfloat; pitch : pyfloat; audio_id : Z }.
End SoundDef.

Module GameObject.
Record t : Type := mk
  { index : Z; name : pystr; sprite_index : Z;
    visible : bool; solid : bool; depth : Z;
    parent_index : Z; mask_index : Z }.
End GameObject.

Module RoomInst.
Record t : Type := mk { x : Z; y : Z; obj_idx : Z; inst_id : Z }.
End RoomInst.

Module RoomBgDef.
Record t : Type := mk
  { visible : bool; foreground : bool; bg_index : Z; x : Z; y : Z;
    tile_h : bool; tile_v : bool; stretch : bool }.
End RoomBgDef.

Module RoomTile.
Record t : Type := mk
  { x : Z; y : Z; bg_index : Z; src_x : Z; src_y : Z;
    width : Z; height : Z; depth : Z; inst_id : Z;
    scale_x : pyfloat; scale_y : pyfloat; color : Z }.
End RoomTile.

Module Room.
Record t : Type := mk
  { index : Z; name : pystr; width : Z; height : Z; speed : Z; color : Z;
    instances : list RoomInst.t;
    bg_defs : list RoomBgDef.t;
    tiles : list RoomTile.t }.
End Room.

Module Background.
Record t : Type := mk
  { index : Z; name : pystr; tpage : option TPAGEntry.t }.
End Background.

Module GameInfo.
Record t : Type := mk { name : pystr; game_id : Z }.
End GameInfo.

Module FontGlyph.
Record t : Type := mk
  { char : Z; x : Z; y : Z; w : Z; h : Z; shift : Z; offset : Z }.
End FontGlyph.

Module Font.
Record t : Type := mk
  { index : Z; name : pystr; display_name : pystr; size : pyfloat;
    bold : bool; italic : bool; range_start : Z; range_end : Z;
    tpage : option TPAGEntry.t; glyphs : list FontGlyph.t }.
End Font.

Module PathPoint.
Record t : Type := mk { x : pyfloat; y : pyfloat; speed : pyfloat }.
End PathPoint.

Module Path.
Record t : Type := mk
  { index : Z; name : pystr; smooth : bool; closed : bool;
    precision : Z; points : list PathPoint.t }.
End Path.

Module Script.
Record t : Type := mk { index : Z; name : pystr; code_id : Z }.
End Script.

Module Shader.
Record t : Type := mk
  { index : Z; name : pystr; type_str : pystr;
    vertex_code : pystr; fragment_code : pystr }.
End Shader.

Module Extension.
Record t : Type := mk { index : Z; name : pystr; class_name : pystr }.
End Extension.

Module Timeline.
Record t : Type := mk { index : Z; name : pystr; moment_count : Z }.
End Timeline.

(** ** GameExtractor *)

Module GameExtractor.
Record t : Type := mk
  { dw : DataWin.t;
    info : option GameInfo.t;
    sprites : list Sprite.t;
    sounds : list SoundDef.t;
    objects : list GameObject.t;
    rooms : list Room.t;
    backgrounds : list Background.t;
    textures : list (list byte);
    audio : gmap Z (list byte);
    sprite_map : gmap Z Sprite.t;
    object_map : gmap Z GameObject.t;
    fonts : list Font.t;
    paths : list Path.t;
    scripts : list Script.t;
    shaders : list Shader.t;
    extensions : list Extension.t;
    timelines : list Timeline.t;
    strings : list pystr }.

(** [GameExtractor.__init__]: every collection starts empty. *)
Definition init (dw : DataWin.t) : t :=
  mk dw None [] [] [] [] [] [] ∅ ∅ ∅ [] [] [] [] [] [] [].

(** Assignment to one attribute of [self]. *)
Definition set_info (v : option GameInfo.t) (self : t) : t :=
  mk (dw self) v (sprites self) (sounds self) (objects self) (rooms self) (backgrounds self) (textures self) (audio self) (sprite_map self) (object_map self) (fonts self) (paths self) (scripts self) (shaders self) (extensions self) (timelines self) (strings self).
Definition set_sprites (v : list Sprite.t) (self : t) : t :=
  mk (dw self) (info self) v (sounds self) (objects self) (rooms self) (backgrounds self) (textures self) (audio self) (sprite_map self) (object_map self) (fonts self) (paths self) (scripts self) (shaders self) (extensions self) (timelines self) (strings self).
Definition set_sounds (v : list SoundDef.t) (self : t) : t :=
  mk (dw self) (info self) (sprites self) v (objects self) (rooms self) (backgrounds self) (textures self) (audio self) (sprite_map self) (object_map self) (fonts self) (paths self) (scripts self) (shaders self) (extensions self) (timelines self) (strings self).
Definition set_objects (v : list GameObject.t) (self : t) : t :=
  mk (dw self) (info self) (sprites self) (sounds self) v (rooms self) (backgrounds self) (textures self) (audio self) (sprite_map self) (object_map self) (fonts self) (paths self) (scripts self) (shaders self) (extensions self) (timelines self) (strings self).
Definition set_rooms (v : list Room.t) (self : t) : t :=
  mk (dw self) (info self) (sprites self) (sounds self) (objects self) v (backgrounds self) (textures self) (audio self) (sprite_map self) (object_map self) (fonts self) (paths self) (scripts self) (shaders self) (extensions self) (timelines self) (strings self).
Definition set_backgrounds (v : list Background.t) (self : t) : t :=
  mk (dw self) (info self) (sprites self) (sounds self) (objects self) (rooms self) v (textures self) (audio self) (sprite_map self) (object_map self) (fonts self) (paths self) (scripts self) (shaders self) (extensions self) (timelines self) (strings self).
Definition set_textures (v : list (list byte)) (self : t) : t :=
  mk (dw self) (info self) (sprites self) (sounds self) (objects self) (rooms self) (backgrounds self) v (audio self) (sprite_map self) (object_map self) (fonts self) (paths self) (scripts self) (shaders self) (extensions self) (timelines self) (strings self).
Definition set_audio (v : gmap Z (list byte)) (self : t) : t :=
  mk (dw self) (info self) (sprites self) (sounds self) (objects self) (rooms self) (backgrounds self) (textures self) v (sprite_map self) (object_map self) (fonts self) (paths self) (scripts self) (shaders self) (extensions self) (timelines self) (strings self).
Definition set_sprite_map (v : gmap Z Sprite.t) (self : t) : t :=
  mk (dw self) (info self) (sprites self) (sounds self) (objects self) (rooms self) (backgrounds self) (textures self) (audio self) v (object_map self) (fonts self) (paths self) (scripts self) (shaders self) (extensions self) (timelines self) (strings self).
Definition set_object_map (v : gmap Z GameObject.t) (self : t) : t :=
  mk (dw self) (info self) (sprites self) (sounds self) (objects self) (rooms self) (backgrounds self) (textures self) (audio self) (sprite_map self) v (fonts self) (paths self) (scripts self) (shaders self) (extensions self) (timelines self) (strings self).
Definition set_fonts (v : list Font.t) (self : t) : t :=
  mk (dw self) (info self) (sprites self) (sounds self) (objects self) (rooms self) (backgrounds self) (textures self) (audio self) (sprite_map self) (object_map self) v (paths self) (scripts self) (shaders self) (extensions self) (timelines self) (strings self).
Definition set_paths (v : list Path.t) (self : t) : t :=
  mk (dw self) (info self) (sprites self) (sounds self) (objects self) (rooms self) (backgrounds self) (textures self) (audio self) (sprite_map self) (object_map self) (fonts self) v (scripts self) (shaders self) (extensions self) (timelines self) (strings self).
Definition set_scripts (v : list Script.t) (self : t) : t :=
  mk (dw self) (info self) (sprites self) (sounds self) (objects self) (rooms self) (backgrounds self) (textures self) (audio self) (sprite_map self) (object_map self) (fonts self) (paths self) v (shaders self) (extensions self) (timelines self) (strings self).
Definition set_shaders (v : list Shader.t) (self : t) : t :=
  mk (dw self) (info self) (sprites self) (sounds self) (objects self) (rooms self) (backgrounds self) (textures self) (audio self) (sprite_map self) (object_map self) (fonts self) (paths self) (scripts self) v (extensions self) (timelines self) (strings self).
Definition set_extensions (v : list Extension.t) (self : t) : t :=
  mk (dw self) (info self) (sprites self) (sounds self) (objects self) (rooms self) (backgrounds self) (textures self) (audio self) (sprite_map self) (object_map self) (fonts self) (paths self) (scripts self) (shaders self) v (timelines self) (strings self).
Definition set_timelines (v : list Timeline.t) (self : t) : t :=
  mk (dw self) (info self) (sprites self) (sounds self) (objects self) (rooms self) (backgrounds self) (textures self) (audio self) (sprite_map self) (object_map self) (fonts self) (paths self) (scripts self) (shaders self) (extensions self) v (strings self).
Definition set_strings (v : list pystr) (self : t) : t :=
  mk (dw self) (info self) (sprites self) (sounds self) (objects self) (rooms self) (backgrounds self) (textures self) (audio self) (sprite_map self) (object_map self) (fonts self) (paths self) (scripts self) (shaders self) (extensions self) (timelines self) v.
End GameExtractor.

Import GameExtractor.

Fixpoint bytes_eqb (a b : list byte) : bool :=
  match a, b with
  | [], [] => true
  | x :: a', y :: b' => Byte.eqb x y && bytes_eqb a' b'
  | _, _ => false
  end.

(** [struct.unpack('>I', bs)\[0\]]: raises unless [bs] has exactly 4 bytes. *)
Definition unpack_be_I (bs : list byte) : result Z :=
  if (length bs =? 4)%nat then Ok (be_int bs) else Raise StructError.

(** The eleven little-endian u16 fields of a texture page entry at [tp]. *)
Definition read_tpage (d : list byte) (tp : Z) : result TPAGEntry.t :=
  a0 ← u16 d tp; a1 ← u16 d (tp + 2); a2 ← u16 d (tp + 4); a3 ← u16 d (tp + 6);
  a4 ← u16 d (tp + 8); a5 ← u16 d (tp + 10); a6 ← u16 d (tp + 12); a7 ← u16 d (tp + 14);
  a8 ← u16 d (tp + 16); a9 ← u16 d (tp + 18); a10 ← u16 d (tp + 20);
  Ok (TPAGEntry.mk a0 a1 a2 a3 a4 a5 a6 a7 a8 a9 a10).

Section Decoders.
Variable dw : DataWin.t.
Let d := DataWin.data dw.
Let sz := DataWin.size dw.

(** [self.dw.c_str(p) if p else default] *)
Definition name_or (p : Z) (default : pystr) : pystr :=
  if negb (p =? 0) then c_str dw p else default.

(** The guard [if not ptr or ptr >= self.dw.size - k: continue] of the
    pointer-table loops. *)
Definition skips (k ptr : Z) : bool := (ptr =? 0) || (ptr >=? sz - k).

(** The guard [if p and p < self.dw.size - k] of the sub-list loops. *)
Definition usable (k p : Z) : bool := negb (p =? 0) && (p <? sz - k).

Definition _gen8 (self : GameExtractor.t) : result GameExtractor.t :=
  match DataWin.chunks dw !! ChunkID.GEN8 with
  | None => Ok self
  | Some c =>
      let off := Chunk.data_start c in
      name_ptr ← u32 d (off + 4);
      game_id ← u32 d (off + 20);
      Ok (set_info (Some (GameInfo.mk (name_or name_ptr (text "")) game_id)) self)
  end.

(** *** Sprites

    Each loop body is split in two: the record built from the bytes at
    [ptr], and the body proper, which reads the pointer, skips or decodes,
    and stores the record. *)

(** Body of [for j in range(fc)] in [_sprites]. *)
Definition _sprites_frame (ptr j : Z) (frames : list TPAGEntry.t)
  : result (list TPAGEntry.t) :=
  tp ← u32 d (ptr + 0x3C + j * 4);
  if usable 22 tp then
    tpe ← read_tpage d tp;
    if (TPAGEntry.src_w tpe >? 0) && (TPAGEntry.src_h tpe >? 0)
    then Ok (frames ++ [tpe])
    else Ok frames
  else Ok frames.

(** [frames = \[\]; if fc < 5000: for j in range(fc): ...] *)
Definition _sprites_frames (ptr fc : Z) : result (list TPAGEntry.t) :=
  if fc <? 5000 then for_in_range fc (_sprites_frame ptr) [] else Ok [].

Definition _sprites_record (i ptr : Z) : result Sprite.t :=
  name_ptr ← u32 d ptr;
  let name := name_or name_ptr (fstr "sprite_" i) in
  w ← u32 d (ptr + 4); h ← u32 d (ptr + 8);
  ox ← i32 d (ptr + 0x30); oy ← i32 d (ptr + 0x34);
  fc ← u32 d (ptr + 0x38);
  frames ← _sprites_frames ptr fc;
  Ok (Sprite.mk i name w h ox oy frames).

(** Body of [for i in range(count)] in [_sprites]. *)
Definition _sprites_body (off i : Z) (self : GameExtractor.t)
  : result GameExtractor.t :=
  ptr ← u32 d (off + 4 + i * 4);
  if skips 64 ptr then Ok self
  else
    spr ← _sprites_record i ptr;
    Ok (set_sprite_map (<[i := spr]> (sprite_map self))
          (set_sprites (sprites self ++ [spr]) self)).

Definition _sprites (self : GameExtractor.t) : result GameExtractor.t :=
  match DataWin.chunks dw !! ChunkID.SPRT with
  | None => Ok self
  | Some c =>
      let off := Chunk.data_start c in
      count ← u32 d (Chunk.data_start c);
      for_in_range count (_sprites_body off) self
  end.

(** *** Sounds and audio *)

Definition _sounds_record (i ptr : Z) : result SoundDef.t :=
  name_ptr ← u32 d ptr;
  type_ptr ← u32 d (ptr + 8);
  file_ptr ← u32 d (ptr + 12);
  vol ← f32 d (ptr + 16); pit ← f32 d (ptr + 20); aid ← i32 d (ptr + 28);
  Ok (SoundDef.mk i (name_or name_ptr (fstr "sound_" i))
        (name_or type_ptr (text "")) (name_or file_ptr (text ""))
        vol pit aid).

Definition _sounds_body (off i : Z) (self : GameExtractor.t)
  : result GameExtractor.t :=
  ptr ← u32 d (off + 4 + i * 4);
  if skips 32 ptr then Ok self
  else
    snd_ ← _sounds_record i ptr;
    Ok (set_sounds (sounds self ++ [snd_]) self).

Definition _sounds (self : GameExtractor.t) : result GameExtractor.t :=
  match DataWin.chunks dw !! ChunkID.SOND with
  | None => Ok self
  | Some c =>
      let off := Chunk.data_start c in
      count ← u32 d (Chunk.data_start c);
      for_in_range count (_sounds_body off) self
  end.

Definition _audio_body (off i : Z) (self : GameExtractor.t)
  : result GameExtractor.t :=
  ptr ← u32 d (off + 4 + i * 4);
  if skips 4 ptr then Ok self
  else
    length_ ← u32 d ptr;
    if (0 <? length_) && (length_ <? 50000000) && (ptr + 4 + length_ <=? sz)
    then Ok (set_audio (<[i := py_slice d (ptr + 4) (ptr + 4 + length_)]> (audio self)) self)
    else Ok self.

Definition _audio (self : GameExtractor.t) : result GameExtractor.t :=
  match DataWin.chunks dw !! ChunkID.AUDO with
  | None => Ok self
  | Some c =>
      let off := Chunk.data_start c in
      count ← u32 d (Chunk.data_start c);
      for_in_range count (_audio_body off) self
  end.

(** *** Objects *)

Definition _objects_record (i ptr : Z) : result GameObject.t :=
  name_ptr ← u32 d ptr;
  spr ← i32 d (ptr + 4);
  vis ← u32 d (ptr + 8); sol ← u32 d (ptr + 12);
  dep ← i32 d (ptr + 16); par ← i32 d (ptr + 24); msk ← i32 d (ptr + 28);
  Ok (GameObject.mk i (name_or name_ptr (fstr "object_" i))
        spr (py_bool vis) (py_bool sol) dep par msk).

Definition _objects_body (off i : Z) (self : GameExtractor.t)
  : result GameExtractor.t :=
  ptr ← u32 d (off + 4 + i * 4);
  if skips 32 ptr then Ok self
  else
    obj ← _objects_record i ptr;
    Ok (set_object_map (<[i := obj]> (object_map self))
          (set_objects (objects self ++ [obj]) self)).

Definition _objects (self : GameExtractor.t) : result GameExtractor.t :=
  match DataWin.chunks dw !! ChunkID.OBJT with
  | None => Ok self
  | Some c =>
      let off := Chunk.data_start c in
      count ← u32 d (Chunk.data_start c);
      for_in_range count (_objects_body off) self
  end.

(** *** Rooms *)

(** Body of [for j in range(min(bg_count, 8))]. *)
Definition _rooms_bg (bg_list_ptr j : Z) (bg_defs : list RoomBgDef.t)
  : result (list RoomBgDef.t) :=
  bp ← u32 d (bg_list_ptr + 4 + j * 4);
  if usable 32 bp then
    vis ← u32 d bp; fg ← u32 d (bp + 4); bgi ← i32 d (bp + 8);
    bx ← i32 d (bp + 0x0C); by_ ← i32 d (bp + 0x10);
    th ← u32 d (bp + 0x14); tv ← u32 d (bp + 0x18); st ← u32 d (bp + 0x24);
    Ok (bg_defs ++ [RoomBgDef.mk (py_bool vis) (py_bool fg) bgi bx by_
                      (py_bool th) (py_bool tv) (py_bool st)])
  else Ok bg_defs.

Definition _rooms_bg_defs (ptr : Z) : result (list RoomBgDef.t) :=
  bg_list_ptr ← u32 d (ptr + 0x28);
  if usable 4 bg_list_ptr then
    bg_count ← u32 d bg_list_ptr;
    for_in_range (Z.min bg_count 8) (_rooms_bg bg_list_ptr) []
  else Ok [].

(** Body of [for j in range(min(ic, 10000))]. *)
Definition _rooms_inst (inst_ptr j : Z) (instances : list RoomInst.t)
  : result (list RoomInst.t) :=
  ip ← u32 d (inst_ptr + 4 + j * 4);
  if usable 16 ip then
    ix ← i32 d ip; iy ← i32 d (ip + 4); oi ← i32 d (ip + 8); iid ← u32 d (ip + 12);
    Ok (instances ++ [RoomInst.mk ix iy oi iid])
  else Ok instances.

Definition _rooms_instances (ptr : Z) : result (list RoomInst.t) :=
  inst_ptr ← u32 d (ptr + 0x30);
  if usable 4 inst_ptr then
    ic ← u32 d inst_ptr;
    for_in_range (Z.min ic 10000) (_rooms_inst inst_ptr) []
  else Ok [].

(** Body of [for j in range(min(tc, 50000))]. *)
Definition _rooms_tile (tile_ptr j : Z) (tiles : list RoomTile.t)
  : result (list RoomTile.t) :=
  tp ← u32 d (tile_ptr + 4 + j * 4);
  if usable 0x30 tp then
    tx ← i32 d tp; ty ← i32 d (tp + 4); bgi ← i32 d (tp + 8);
    sx ← i32 d (tp + 0x0C); sy ← i32 d (tp + 0x10);
    tw ← i32 d (tp + 0x14); th ← i32 d (tp + 0x18); dep ← i32 d (tp + 0x1C);
    iid ← u32 d (tp + 0x20);
    scx ← f32 d (tp + 0x24); scy ← f32 d (tp + 0x28); col ← u32 d (tp + 0x2C);
    Ok (tiles ++ [RoomTile.mk tx ty bgi sx sy tw th dep iid scx scy col])
  else Ok tiles.

Definition _rooms_tiles (ptr : Z) : result (list RoomTile.t) :=
  tile_ptr ← u32 d (ptr + 0x34);
  if usable 4 tile_ptr then
    tc ← u32 d tile_ptr;
    for_in_range (Z.min tc 50000) (_rooms_tile tile_ptr) []
  else Ok [].

Definition _rooms_record (i ptr : Z) : result Room.t :=
  name_ptr ← u32 d ptr;
  width ← u32 d (ptr + 0x08); height ← u32 d (ptr + 0x0C);
  speed ← u32 d (ptr + 0x10); color ← u32 d (ptr + 0x18);
  bg_defs ← _rooms_bg_defs ptr;
  instances ← _rooms_instances ptr;
  let room_name := name_or name_ptr (fstr "room_" i) in
  tiles ← _rooms_tiles ptr;
  Ok (Room.mk i room_name width height speed color instances bg_defs tiles).

Definition _rooms_body (off i : Z) (self : GameExtractor.t)
  : result GameExtractor.t :=
  ptr ← u32 d (off + 4 + i * 4);
  if skips 100 ptr then Ok self
  else
    room ← _rooms_record i ptr;
    Ok (set_rooms (rooms self ++ [room]) self).

Definition _rooms (self : GameExtractor.t) : result GameExtractor.t :=
  match DataWin.chunks dw !! ChunkID.ROOM with
  | None => Ok self
  | Some c =>
      let off := Chunk.data_start c in
      count ← u32 d (Chunk.data_start c);
      for_in_range count (_rooms_body off) self
  end.

(** *** Backgrounds *)

(** [TPAGEntry(...)] if [tp_ptr and tp_ptr < size - 22], else [None]. *)
Definition tpage_at (tp_ptr : Z) : result (option TPAGEntry.t) :=
  if usable 22 tp_ptr then Some <$> read_tpage d tp_ptr else Ok None.

Definition _backgrounds_record (i ptr : Z) : result Background.t :=
  name_ptr ← u32 d ptr;
  let name := name_or name_ptr (fstr "bg_" i) in
  tp_ptr ← (if ptr + 20 <=? sz then u32 d (ptr + 16) else Ok 0);
  tpage ← tpage_at tp_ptr;
  Ok (Background.mk i name tpage).

Definition _backgrounds_body (off i : Z) (self : GameExtractor.t)
  : result GameExtractor.t :=
  ptr ← u32 d (off + 4 + i * 4);
  if skips 20 ptr then Ok self
  else
    bg ← _backgrounds_record i ptr;
    Ok (set_backgrounds (backgrounds self ++ [bg]) self).

Definition _backgrounds (self : GameExtractor.t) : result GameExtractor.t :=
  match DataWin.chunks dw !! ChunkID.BGND with
  | None => Ok self
  | Some c =>
      let off := Chunk.data_start c in
      count ← u32 d (Chunk.data_start c);
      for_in_range count (_backgrounds_body off) self
  end.

(** *** Raw textures *)

Definition PNG_SIGNATURE : list byte := [x89; x50; x4e; x47; x0d; x0a; x1a; x0a].
Definition IEND : list byte := [x49; x45; x4e; x44].

(** The [while pos < self.dw.size - 12] loop of [_extract_png]. *)
Fixpoint _extract_png_loop (fuel : nat) (off pos : Z) : result (list byte) :=
  if pos <? sz - 12 then
    match fuel with
    | O => Raise OutOfFuel
    | Datatypes.S fuel' =>
        chunk_len ← unpack_be_I (py_slice d pos (pos + 4));
        let chunk_type := py_slice d (pos + 4) (pos + 8) in
        let pos := pos + (12 + chunk_len) in
        if bytes_eqb chunk_type IEND then Ok (py_slice d off pos)
        else _extract_png_loop fuel' off pos
    end
  else Ok [].

Definition _extract_png (off : Z) : result (list byte) :=
  if negb (bytes_eqb (py_slice d off (off + 8)) PNG_SIGNATURE) then Ok []
  else _extract_png_loop (length d) off (off + 8).

Definition _textures_body (off i : Z) (self : GameExtractor.t)
  : result GameExtractor.t :=
  entry ← u32 d (off + 4 + i * 4);
  if usable 8 entry then
    data_ptr ← u32 d (entry + 4);
    if negb (data_ptr =? 0) && (data_ptr <? sz) then
      png ← _extract_png data_ptr;
      Ok (set_textures (textures self ++ [png]) self)
    else Ok (set_textures (textures self ++ [[]]) self)
  else Ok (set_textures (textures self ++ [[]]) self).

Definition _textures (self : GameExtractor.t) : result GameExtractor.t :=
  match DataWin.chunks dw !! ChunkID.TXTR with
  | None => Ok self
  | Some c =>
      let off := Chunk.data_start c in
      count ← u32 d (Chunk.data_start c);
      for_in_range count (_textures_body off) self
  end.

(** *** String table

    The [try]/[except] around the decode never fires: decoding with
    [errors='replace'] does not raise. *)

Definition _strings_body (off i : Z) (self : GameExtractor.t)
  : result GameExtractor.t :=
  ptr ← u32 d (off + 4 + i * 4);
  if usable 4 ptr then
    str_len ← u32 d ptr;
    if (str_len <? 10000) && (ptr + 4 + str_len <=? sz)
    then Ok (set_strings (strings self ++
               [decode utf_8 (py_slice d (ptr + 4) (ptr + 4 + str_len))]) self)
    else Ok (set_strings (strings self ++ [text ""]) self)
  else Ok (set_strings (strings self ++ [text ""]) self).

Definition _strings (self : GameExtractor.t) : result GameExtractor.t :=
  match DataWin.chunks dw !! ChunkID.STRG with
  | None => Ok self
  | Some c =>
      let off := Chunk.data_start c in
      count ← u32 d (Chunk.data_start c);
      for_in_range (Z.min count 100000) (_strings_body off) self
  end.

(** *** Fonts *)

(** Body of [for j in range(min(glyph_count, 1000))]. *)
Definition _fonts_glyph (glyph_ptr j : Z) (glyphs : list FontGlyph.t)
  : result (list FontGlyph.t) :=
  gp ← u32 d (glyph_ptr + 4 + j * 4);
  if usable 28 gp then
    ch ← u16 d gp; gx ← u16 d (gp + 2); gy ← u16 d (gp + 4);
    gw ← u16 d (gp + 6); gh ← u16 d (gp + 8);
    sh ← u16 d (gp + 10); of_ ← i16 d (gp + 12);
    Ok (glyphs ++ [FontGlyph.mk ch gx gy gw gh sh of_])
  else Ok glyphs.

Definition _fonts_glyphs (ptr : Z) : result (list FontGlyph.t) :=
  glyph_ptr ← (if ptr + 48 <=? sz then u32 d (ptr + 44) else Ok 0);
  if usable 4 glyph_ptr then
    glyph_count ← u32 d glyph_ptr;
    for_in_range (Z.min glyph_count 1000) (_fonts_glyph glyph_ptr) []
  else Ok [].

Definition _fonts_record (i ptr : Z) : result Font.t :=
  name_ptr ← u32 d ptr;
  display_ptr ← u32 d (ptr + 4);
  size ← (if ptr + 12 <=? sz then f32 d (ptr + 8) else Ok (float_lit "12.0"));
  bold ← (if ptr + 16 <=? sz then py_bool <$> u32 d (ptr + 12) else Ok false);
  italic ← (if ptr + 20 <=? sz then py_bool <$> u32 d (ptr + 16) else Ok false);
  range_start ← (if ptr + 22 <=? sz then u16 d (ptr + 20) else Ok 32);
  range_end ← (if ptr + 26 <=? sz then u16 d (ptr + 24) else Ok 127);
  tp_ptr ← (if ptr + 32 <=? sz then u32 d (ptr + 28) else Ok 0);
  tpage ← tpage_at tp_ptr;
  glyphs ← _fonts_glyphs ptr;
  Ok (Font.mk i (name_or name_ptr (fstr "font_" i))
        (name_or display_ptr (text ""))
        size bold italic range_start range_end tpage glyphs).

Definition _fonts_body (off i : Z) (self : GameExtractor.t)
  : result GameExtractor.t :=
  ptr ← u32 d (off + 4 + i * 4);
  if skips 48 ptr then Ok self
  else
    font ← _fonts_record i ptr;
    Ok (set_fonts (fonts self ++ [font]) self).

Definition _fonts (self : GameExtractor.t) : result GameExtractor.t :=
  match DataWin.chunks dw !! ChunkID.FONT with
  | None => Ok self
  | Some c =>
      let off := Chunk.data_start c in
      count ← u32 d (Chunk.data_start c);
      for_in_range count (_fonts_body off) self
  end.

(** *** Paths *)

(** Body of [for j in range(min(point_count, 10000))]; the state is
    [(points, point_off)]. *)
Definition _paths_point (j : Z) (st : list PathPoint.t * Z)
  : result (list PathPoint.t * Z) :=
  let '(points, point_off) := st in
  if point_off + 12 <=? sz then
    px ← f32 d point_off; py ← f32 d (point_off + 4); ps ← f32 d (point_off + 8);
    Ok (points ++ [PathPoint.mk px py ps], point_off + 12)
  else Ok st.

Definition _paths_points (ptr : Z) : result (list PathPoint.t) :=
  point_count ← (if ptr + 20 <=? sz then u32 d (ptr + 16) else Ok 0);
  let point_off := ptr + 20 in
  fst <$> for_in_range (Z.min point_count 10000) _paths_point ([], point_off).

Definition _paths_record (i ptr : Z) : result Path.t :=
  name_ptr ← u32 d ptr;
  smooth ← u32 d (ptr + 4); closed ← u32 d (ptr + 8);
  precision ← u32 d (ptr + 12);
  points ← _paths_points ptr;
  Ok (Path.mk i (name_or name_ptr (fstr "path_" i))
        (py_bool smooth) (py_bool closed) precision points).

Definition _paths_body (off i : Z) (self : GameExtractor.t)
  : result GameExtractor.t :=
  ptr ← u32 d (off + 4 + i * 4);
  if skips 20 ptr then Ok self
  else
    path ← _paths_record i ptr;
    Ok (set_paths (paths self ++ [path]) self).

Definition _paths (self : GameExtractor.t) : result GameExtractor.t :=
  match DataWin.chunks dw !! ChunkID.PATH with
  | None => Ok self
  | Some c =>
      let off := Chunk.data_start c in
      count ← u32 d (Chunk.data_start c);
      for_in_range count (_paths_body off) self
  end.

(** *** Scripts, shaders, extensions, timelines *)

Definition _scripts_record (i ptr : Z) : result Script.t :=
  name_ptr ← u32 d ptr;
  code_id ← (if ptr + 8 <=? sz then i32 d (ptr + 4) else Ok (-1));
  Ok (Script.mk i (name_or name_ptr (fstr "script_" i)) code_id).

Definition _scripts_body (off i : Z) (self : GameExtractor.t)
  : result GameExtractor.t :=
  ptr ← u32 d (off + 4 + i * 4);
  if skips 8 ptr then Ok self
  else
    scr ← _scripts_record i ptr;
    Ok (set_scripts (scripts self ++ [scr]) self).

Definition _scripts (self : GameExtractor.t) : result GameExtractor.t :=
  match DataWin.chunks dw !! ChunkID.SCPT with
  | None => Ok self
  | Some c =>
      let off := Chunk.data_start c in
      count ← u32 d (Chunk.data_start c);
      for_in_range count (_scripts_body off) self
  end.

Definition _shaders_record (i ptr : Z) : result Shader.t :=
  name_ptr ← u32 d ptr;
  type_ptr ← (if ptr + 8 <=? sz then u32 d (ptr + 4) else Ok 0);
  vertex_ptr ← (if ptr + 12 <=? sz then u32 d (ptr + 8) else Ok 0);
  frag_ptr ← (if ptr + 16 <=? sz then u32 d (ptr + 12) else Ok 0);
  Ok (Shader.mk i (name_or name_ptr (fstr "shader_" i))
        (name_or type_ptr (text "")) (name_or vertex_ptr (text ""))
        (name_or frag_ptr (text ""))).

Definition _shaders_body (off i : Z) (self : GameExtractor.t)
  : result GameExtractor.t :=
  ptr ← u32 d (off + 4 + i * 4);
  if skips 16 ptr then Ok self
  else
    shd ← _shaders_record i ptr;
    Ok (set_shaders (shaders self ++ [shd]) self).

Definition _shaders (self : GameExtractor.t) : result GameExtractor.t :=
  match DataWin.chunks dw !! ChunkID.SHDR with
  | None => Ok self
  | Some c =>
      let off := Chunk.data_start c in
      count ← u32 d (Chunk.data_start c);
      for_in_range count (_shaders_body off) self
  end.

Definition _extensions_record (i ptr : Z) : result Extension.t :=
  name_ptr ← u32 d ptr;
  class_ptr ← (if ptr + 8 <=? sz then u32 d (ptr + 4) else Ok 0);
  Ok (Extension.mk i (name_or name_ptr (fstr "ext_" i))
        (name_or class_ptr (text ""))).

Definition _extensions_body (off i : Z) (self : GameExtractor.t)
  : result GameExtractor.t :=
  ptr ← u32 d (off + 4 + i * 4);
  if skips 8 ptr then Ok self
  else
    ext ← _extensions_record i ptr;
    Ok (set_extensions (extensions self ++ [ext]) self).

Definition _extensions (self : GameExtractor.t) : result GameExtractor.t :=
  match DataWin.chunks dw !! ChunkID.EXTN with
  | None => Ok self
  | Some c =>
      let off := Chunk.data_start c in
      count ← u32 d (Chunk.data_start c);
      for_in_range count (_extensions_body off) self
  end.

Definition _timelines_record (i ptr : Z) : result Timeline.t :=
  name_ptr ← u32 d ptr;
  moment_count ← (if ptr + 8 <=? sz then u32 d (ptr + 4) else Ok 0);
  Ok (Timeline.mk i (name_or name_ptr (fstr "timeline_" i)) moment_count).

Definition _timelines_body (off i : Z) (self : GameExtractor.t)
  : result GameExtractor.t :=
  ptr ← u32 d (off + 4 + i * 4);
  if skips 8 ptr then Ok self
  else
    tml ← _timelines_record i ptr;
    Ok (set_timelines (timelines self ++ [tml]) self).

Definition _timelines (self : GameExtractor.t) : result GameExtractor.t :=
  match DataWin.chunks dw !! ChunkID.TMLN with
  | None => Ok self
  | Some c =>
      let off := Chunk.data_start c in
      count ← u32 d (Chunk.data_start c);
      for_in_range count (_timelines_body off) self
  end.

(** [for fn in steps: fn()]; the progress callback [cb] only reports. *)
Fixpoint run_steps (steps : list (GameExtractor.t -> result GameExtractor.t))
    (self : GameExtractor.t) : result GameExtractor.t :=
  match steps with
  | [] => Ok self
  | fn :: steps' => self' ← fn self; run_steps steps' self'
  end.

Definition steps : list (GameExtractor.t -> result GameExtractor.t) :=
  [_gen8; _strings; _sprites; _sounds; _audio; _objects; _rooms;
   _backgrounds; _textures; _fonts; _paths; _scripts; _shaders;
   _extensions; _timelines].

Definition extract_all (self : GameExtractor.t) : result GameExtractor.t :=
  run_steps steps self.
End Decoders.

(** The decoding half of [App.open_file]: [DataWin(path)], then
    [GameExtractor(dw)] and [extract_all].  The catalog exists only in the
    [Ok] case. *)
Definition load (file : list byte) : result GameExtractor.t :=
  dw ← _parse file;
  extract_all dw (GameExtractor.init dw).

(** ** Images

    The three Pillow operations the renderer's atlas code uses, on RGBA
    rasters stored as rows of pixels: [Image.new], [Image.crop] (pixels
    outside the source read as zero) and [Image.paste] without a mask
    (clipped to the destination). *)

Definition RGBA : Type := Z * Z * Z * Z.

Module Image.
Record t : Type := mk { width : Z; height : Z; rows : list (list RGBA) }.

Definition getpixel (im : t) (x y : Z) : option RGBA :=
  if (x <? 0) || (y <? 0) then None
  else row ← rows im !! Z.to_nat y; row !! Z.to_nat x.

Definition tabulate (w h : Z) (f : Z -> Z -> RGBA) : t :=
  mk w h ((fun y => (fun x => f x y) <$> seqZ 0 w) <$> seqZ 0 h).

(** [Image.new('RGBA', (w, h), color)].  Pillow raises for a negative
    side, for a side that does not fit a C int, and when the raster cannot be
    allocated; [can_allocate w h] tells whether a [w x h] raster can be. *)
Definition new (can_allocate : Z -> Z -> bool) (w h : Z) (color : RGBA) : result t :=
  if (w <? 0) || (h <? 0) then Raise (ValueError "Width and height must be >= 0")
  else if (2 ^ 31 <=? w) || (2 ^ 31 <=? h) then Raise OverflowError
  else if can_allocate w h then Ok (tabulate w h (fun _ _ => color))
  else Raise MemoryError.

(** [im.crop((l, u, r, b))] *)
Definition crop (im : t) (box : Z * Z * Z * Z) : t :=
  let '(l, u, r, b) := box in
  tabulate (r - l) (b - u)
    (fun x y => default (0, 0, 0, 0) (getpixel im (l + x) (u + y))).

(** [im.crop(box)] where it may fail: the crop is a new raster. *)
Definition try_crop (can_allocate : Z -> Z -> bool) (im : t) (box : Z * Z * Z * Z)
  : result t :=
  let '(l, u, r, b) := box in
  if can_allocate (r - l) (b - u) then Ok (crop im box) else Raise MemoryError.

(** [dst.paste(src, (x0, y0))]: the image [dst] has afterwards. *)
Definition paste (dst src : t) (pos : Z * Z) : t :=
  let '(x0, y0) := pos in
  tabulate (width dst) (height dst)
    (fun x y =>
       match getpixel src (x - x0) (y - y0) with
       | Some p => p
       | None => default (0, 0, 0, 0) (getpixel dst x y)
       end).

(** Every coordinate inside [width x height] holds a pixel. *)
Definition wf (im : t) : Prop :=
  forall x y, 0 <= x < width im -> 0 <= y < height im ->
              is_Some (getpixel im x y).
End Image.

Definition TRANSPARENT : RGBA := (0, 0, 0, 0).

(** ** RoomRenderer *)

Module RoomRenderer.
Record t : Type := mk
  { ext : GameExtractor.t;
    textures : gmap Z Image.t;
    _tileset_cache : gmap Z Image.t }.
End RoomRenderer.

(** One iteration of [for bg in self.ext.backgrounds] in
    [_build_tileset_cache]. *)
Definition _build_tileset_cache_step (textures : gmap Z Image.t)
    (cache : gmap Z Image.t) (bg : Background.t) : gmap Z Image.t :=
  match Background.tpage bg with
  | Some tpe =>
      match textures !! TPAGEntry.tex_id tpe with
      | Some tex =>
          if (TPAGEntry.src_x tpe + TPAGEntry.src_w tpe <=? Image.width tex)
             && (TPAGEntry.src_y tpe + TPAGEntry.src_h tpe <=? Image.height tex)
          then <[Background.index bg :=
                   Image.crop tex (TPAGEntry.src_x tpe, TPAGEntry.src_y tpe,
                                   TPAGEntry.src_x tpe + TPAGEntry.src_w tpe,
                                   TPAGEntry.src_y tpe + TPAGEntry.src_h tpe)]> cache
          else cache
      | None => cache
      end
  | None => cache
  end.

Definition _build_tileset_cache (ext : GameExtractor.t)
    (textures : gmap Z Image.t) : gmap Z Image.t :=
  fold_left (_build_tileset_cache_step textures) (backgrounds ext) ∅.

(** [RoomRenderer.__init__] *)
Definition RoomRenderer_init (ext : GameExtractor.t) (textures : gmap Z Image.t)
  : RoomRenderer.t :=
  RoomRenderer.mk ext textures (_build_tileset_cache ext textures).

Definition get_tileset (self : RoomRenderer.t) (bg_index : Z) : option Image.t :=
  RoomRenderer._tileset_cache self !! bg_index.

(** [RoomRenderer._get_sprite_frame].  The body after the two guards runs
    inside [try: ... except: return None], so whatever Pillow raises there
    (a canvas side that does not fit a C int, a raster that cannot be
    allocated) becomes [None].  [can_allocate] is the environment's answer
    to whether a raster of a given size can be allocated. *)
Definition _get_sprite_frame (can_allocate : Z -> Z -> bool)
    (self : RoomRenderer.t) (tpe : TPAGEntry.t)
    (sprite_w sprite_h : Z) : option Image.t :=
  match RoomRenderer.textures self !! TPAGEntry.tex_id tpe with
  | None => None
  | Some tex =>
      if (TPAGEntry.src_x tpe <? 0) || (TPAGEntry.src_y tpe <? 0)
         || (TPAGEntry.src_w tpe <=? 0) || (TPAGEntry.src_h tpe <=? 0)
         || (TPAGEntry.src_x tpe + TPAGEntry.src_w tpe >? Image.width tex)
         || (TPAGEntry.src_y tpe + TPAGEntry.src_h tpe >? Image.height tex)
      then None
      else
        let try_body : result Image.t :=
          crop ← Image.try_crop can_allocate tex
                   (TPAGEntry.src_x tpe, TPAGEntry.src_y tpe,
                    TPAGEntry.src_x tpe + TPAGEntry.src_w tpe,
                    TPAGEntry.src_y tpe + TPAGEntry.src_h tpe);
          if (sprite_w >? 0) && (sprite_h >? 0) then
            full ← Image.new can_allocate sprite_w sprite_h (0, 0, 0, 0);
            Ok (Image.paste full crop (TPAGEntry.tgt_x tpe, TPAGEntry.tgt_y tpe))
          else Ok crop in
        match try_body with
        | Ok img => Some img
        | Raise _ => None
        end
  end.

(** *** The draw list of [render_room] *)

Inductive draw_item : Type :=
| tile_item (tile : RoomTile.t)
| inst_item (obj : GameObject.t) (inst : RoomInst.t).

(** The 4-tuples [(item_type, depth, item, orig_idx)]; [item_type] is
    ['tile'] or ['inst'] according to the constructor of [item]. *)
Module DrawEntry.
Record t : Type := mk { depth : Z; item : draw_item; orig_idx : Z }.
End DrawEntry.

(** [for i, x in enumerate(l)] appending [f i x] when it is [Some]. *)
Fixpoint collect_from {A B : Type} (f : Z -> A -> option B) (i : Z) (l : list A)
  : list B :=
  match l with
  | [] => []
  | x :: l' =>
      match f i x with
      | Some y => y :: collect_from f (i + 1) l'
      | None => collect_from f (i + 1) l'
      end
  end.

Definition tile_entry (depth_min depth_max : Z) (i : Z) (tile : RoomTile.t)
  : option DrawEntry.t :=
  if (depth_min <=? RoomTile.depth tile) && (RoomTile.depth tile <=? depth_max)
  then Some (DrawEntry.mk (RoomTile.depth tile) (tile_item tile) i)
  else None.

Definition inst_entry (object_map : gmap Z GameObject.t) (show_hidden : bool)
    (depth_min depth_max : Z) (i : Z) (inst : RoomInst.t) : option DrawEntry.t :=
  match object_map !! RoomInst.obj_idx inst with
  | Some obj =>
      if GameObject.visible obj || show_hidden then
        if (depth_min <=? GameObject.depth obj) && (GameObject.depth obj <=? depth_max)
        then Some (DrawEntry.mk (GameObject.depth obj) (inst_item obj inst) (100000 + i))
        else None
      else None
  | None => None
  end.

(** The list [draw_list] before it is sorted. *)
Definition collect_drawables (self : RoomRenderer.t) (room : Room.t)
    (show_tiles show_inst show_hidden : bool) (depth_min depth_max : Z)
  : list DrawEntry.t :=
  (if show_tiles
   then collect_from (tile_entry depth_min depth_max) 0 (Room.tiles room)
   else [])
  ++
  (if show_inst
   then collect_from (inst_entry (object_map (RoomRenderer.ext self)) show_hidden
                        depth_min depth_max) 0 (Room.instances room)
   else []).

(** [key=lambda x: (-x\[1\], x\[3\])] and the order of Python tuples. *)
Definition sort_key (e : DrawEntry.t) : Z * Z :=
  (- DrawEntry.depth e, DrawEntry.orig_idx e).

Definition key_le (a b : Z * Z) : bool :=
  (fst a <? fst b) || ((fst a =? fst b) && (snd a <=? snd b)).

(** [list.sort(key=...)] is a stable sort: elements with equal keys keep
    their order.  It is modelled by the stable insertion sort; the sorted,
    stable rearrangement of a list is unique. *)
Fixpoint insert_by_key (x : DrawEntry.t) (l : list DrawEntry.t) : list DrawEntry.t :=
  match l with
  | [] => [x]
  | y :: l' =>
      if key_le (sort_key x) (sort_key y) then x :: y :: l'
      else y :: insert_by_key x l'
  end.

Definition sort_by_key (l : list DrawEntry.t) : list DrawEntry.t :=
  foldr insert_by_key [] l.

(** [draw_list] as the drawing loop of [render_room] iterates over it. *)
Definition render_room_draw_list (self : RoomRenderer.t) (room : Room.t)
    (show_tiles show_inst show_hidden : bool) (depth_min depth_max : Z)
  : list DrawEntry.t :=
  sort_by_key (collect_drawables self room show_tiles show_inst show_hidden
                 depth_min depth_max).

(** ** Notions the theorems are stated with *)

(** The four bytes [b'FORM'], little-endian [ChunkID.FORM]. *)
Definition FORM_magic : list byte := [x46; x4f; x52; x4d].

(** Position at which the chunk scan stopped: just past the last chunk it
    recorded, or 8 when it recorded none. *)
Definition scan_end (dw : DataWin.t) : Z :=
  match last (DataWin.trace dw) with
  | Some (_, c) => Chunk.offset c + 8 + Chunk.size c
  | None => 8
  end.

(** The run of the scan loop from position [pos]: the chunks it records, in
    order, and the position [stop] at which its guard fails. *)
Inductive scan_from (d : list byte) : Z -> list (Z * Chunk.t) -> Z -> Prop :=
| scan_stop pos :
    ~ pos < blen d - 8 -> scan_from d pos [] pos
| scan_chunk pos cid sz tr stop :
    pos < blen d - 8 ->
    u32 d pos = Ok cid ->
    u32 d (pos + 4) = Ok sz ->
    scan_from d (pos + (8 + sz)) tr stop ->
    scan_from d pos ((cid, Chunk.mk (chunk_name cid) pos sz (pos + 8)) :: tr) stop.

(** [self.chunks\[cid\] = c] *)
Definition write_chunk (m : gmap Z Chunk.t) (p : Z * Chunk.t) : gmap Z Chunk.t :=
  <[fst p := snd p]> m.

(** Last chunk written under tag [cid]. *)
Definition last_with_tag (cid : Z) (tr : list (Z * Chunk.t)) : option Chunk.t :=
  snd <$> last (filter (fun p => fst p = cid) tr).

(** *** Sample archives *)

(** [struct.pack('<I', v)] *)
Definition le32 (v : Z) : list byte := pack_le 4 v.
Definition le16 (v : Z) : list byte := pack_le 2 v.
Definition zeros (n : nat) : list byte := repeat x00 n.

(** A header followed by one header-only chunk: 16 bytes. *)
Definition archive_header_only_chunk : list byte :=
  le32 ChunkID.FORM ++ le32 8 ++ le32 ChunkID.GEN8 ++ le32 0.

(** Three chunks, the third repeating the tag of the first, then 8 bytes of padding. *)
Definition archive_three_chunks : list byte :=
  le32 ChunkID.FORM ++ le32 0
  ++ le32 ChunkID.SPRT ++ le32 4 ++ le32 0
  ++ le32 ChunkID.OBJT ++ le32 0
  ++ le32 ChunkID.SPRT ++ le32 4 ++ le32 0
  ++ zeros 8.

(** Two tiles at the same position, depths 100 and 50, declared in this
    order, and a room holding them. *)
Definition tile_at_depth (depth : Z) : RoomTile.t :=
  RoomTile.mk 0 0 0 0 0 16 16 depth 0 (F32 0x3F800000) (F32 0x3F800000) 0xFFFFFFFF.

Definition room_of_tiles (tiles : list RoomTile.t) : Room.t :=
  Room.mk 0 (text "room_0") 64 64 30 0 [] [] tiles.

Definition empty_renderer : RoomRenderer.t :=
  RoomRenderer_init (GameExtractor.init (DataWin.mk [] 0 ∅ [])) ∅.

(** The order of the draw list: by sort key. *)
Definition entry_le (a b : DrawEntry.t) : Prop :=
  key_le (sort_key a) (sort_key b) = true.


(** *** The sprite-frame example: a 10x10 region with target offset (5,3)
    on a 20x20 sprite, cut from a 16x16 page whose pixel at (x, y) is
    (x, y, 7, 255). *)
Definition sample_page : Image.t := Image.tabulate 16 16 (fun x y => (x, y, 7, 255)).

Definition sample_region : TPAGEntry.t :=
  TPAGEntry.mk 2 4 10 10 5 3 10 10 20 20 0.

Definition sample_renderer : RoomRenderer.t :=
  RoomRenderer_init (GameExtractor.init (DataWin.mk [] 0 ∅ [])) {[ 0 := sample_page ]}.

(** [x, y] lies in the [w x h] block whose top-left corner is [(x0, y0)]. *)
Definition in_block (x0 y0 w h x y : Z) : bool :=
  (x0 <=? x) && (x <? x0 + w) && (y0 <=? y) && (y <? y0 + h).

(** Whether every pixel of the [w x h] image [im] satisfies [ok x y p]. *)
Definition all_pixels (w h : Z) (im : Image.t) (ok : Z -> Z -> RGBA -> bool) : bool :=
  forallb (fun y =>
    forallb (fun x =>
      match Image.getpixel im x y with
      | Some p => ok x y p
      | None => false
      end) (seqZ 0 w)) (seqZ 0 h).

Definition rgba_eqb (p q : RGBA) : bool :=
  let '(r1, g1, b1, a1) := p in
  let '(r2, g2, b2, a2) := q in
  (r1 =? r2) && (g1 =? g2) && (b1 =? b2) && (a1 =? a2).

(** *** Pointer tables *)

(** Entry [i] of the pointer table of the chunk whose payload starts at [off]. *)
Definition table_entry (dw : DataWin.t) (off i : Z) : result Z :=
  u32 (DataWin.data dw) (off + 4 + i * 4).

(** Entry [i] can be read and passes the guard. *)
Definition kept (entry : Z -> result Z) (skip : Z -> bool) (i : Z) : bool :=
  match entry i with
  | Ok ptr => negb (skip ptr)
  | Raise _ => false
  end.

(** Record [r] was decoded from the table entry at position [idx r]. *)
Definition decoded_at {R : Type} (idx : R -> Z) (entry : Z -> result Z)
    (skip : Z -> bool) (record : Z -> Z -> result R) (r : R) : Prop :=
  exists ptr, entry (idx r) = Ok ptr /\ skip ptr = false /\ record (idx r) ptr = Ok r.

(** The dict obtained by [m\[r.index\] = r] for each record in turn. *)
Definition index_map {R : Type} (idx : R -> Z) (l : list R) : gmap Z R :=
  foldl (fun m r => <[idx r := r]> m) ∅ l.

(** Number of table entries [0 .. count-1] that the guard skips. *)
Definition skipped (entry : Z -> result Z) (skip : Z -> bool) (count : Z) : nat :=
  length (filter (fun i => kept entry skip i = false) (seqZ 0 count)).

(** *** The pointer-table decoders, by kind *)

Inductive kind : Type :=
| sprite | sound | audio_blob | object | room | background
| font | path | script | shader | extension | timeline.

Definition body_of (dw : DataWin.t) (k : kind)
  : Z -> Z -> GameExtractor.t -> result GameExtractor.t :=
  match k with
  | sprite => _sprites_body dw
  | sound => _sounds_body dw
  | audio_blob => _audio_body dw
  | object => _objects_body dw
  | room => _rooms_body dw
  | background => _backgrounds_body dw
  | font => _fonts_body dw
  | path => _paths_body dw
  | script => _scripts_body dw
  | shader => _shaders_body dw
  | extension => _extensions_body dw
  | timeline => _timelines_body dw
  end.

Definition decoder_of (dw : DataWin.t) (k : kind)
  : GameExtractor.t -> result GameExtractor.t :=
  match k with
  | sprite => _sprites dw
  | sound => _sounds dw
  | audio_blob => _audio dw
  | object => _objects dw
  | room => _rooms dw
  | background => _backgrounds dw
  | font => _fonts dw
  | path => _paths dw
  | script => _scripts dw
  | shader => _shaders dw
  | extension => _extensions dw
  | timeline => _timelines dw
  end.

Definition tag_of (k : kind) : Z :=
  match k with
  | sprite => ChunkID.SPRT
  | sound => ChunkID.SOND
  | audio_blob => ChunkID.AUDO
  | object => ChunkID.OBJT
  | room => ChunkID.ROOM
  | background => ChunkID.BGND
  | font => ChunkID.FONT
  | path => ChunkID.PATH
  | script => ChunkID.SCPT
  | shader => ChunkID.SHDR
  | extension => ChunkID.EXTN
  | timeline => ChunkID.TMLN
  end.

(** The constant in the guard [ptr >= self.dw.size - K] of each kind. *)
Definition guard_of (k : kind) : Z :=
  match k with
  | sprite => 64
  | sound => 32
  | audio_blob => 4
  | object => 32
  | room => 100
  | background => 20
  | font => 48
  | path => 20
  | script => 8
  | shader => 16
  | extension => 8
  | timeline => 8
  end.

(** Number of records of a kind the extractor holds. *)
Definition decoded (k : kind) (s : GameExtractor.t) : nat :=
  match k with
  | sprite => length (sprites s)
  | sound => length (sounds s)
  | audio_blob => size (audio s)
  | object => length (objects s)
  | room => length (rooms s)
  | background => length (backgrounds s)
  | font => length (fonts s)
  | path => length (paths s)
  | script => length (scripts s)
  | shader => length (shaders s)
  | extension => length (extensions s)
  | timeline => length (timelines s)
  end.

(** Everything the extractor has decoded: all of its attributes except the
    input buffer [dw]. *)
Definition catalog (s : GameExtractor.t) :=
  (info s, sprites s, sounds s, objects s, rooms s, backgrounds s,
   textures s, audio s, sprite_map s, object_map s, fonts s, paths s,
   scripts s, shaders s, extensions s, timelines s, strings s).

(** Number of entries that the object decoder skips on an archive. *)
Definition objt_skipped (file : list byte) : nat :=
  match _parse file with
  | Ok dw =>
      match DataWin.chunks dw !! ChunkID.OBJT with
      | Some c =>
          match u32 file (Chunk.data_start c) with
          | Ok count =>
              skipped (table_entry dw (Chunk.data_start c)) (skips dw 32) count
          | Raise _ => 0%nat
          end
      | None => 0%nat
      end
  | Raise _ => 0%nat
  end.

(** A 32-byte object record: name pointer 0, sprite index, visible, solid,
    depth, an unused word, parent and mask. *)
Definition object_record (sprite_index depth : Z) : list byte :=
  le32 0 ++ le32 sprite_index ++ le32 1 ++ le32 0 ++ le32 depth
  ++ le32 0 ++ le32 (2 ^ 32 - 100) ++ le32 (2 ^ 32 - 1).

(** An archive whose OBJT chunk has the pointer table [ptrs] followed by
    the records [records] and one byte of padding. *)
Definition objt_archive (ptrs : list Z) (records : list byte) : list byte :=
  let payload := le32 (Z.of_nat (length ptrs)) ++ flat_map le32 ptrs ++ records ++ zeros 1 in
  le32 ChunkID.FORM ++ le32 (8 + blen payload)
  ++ le32 ChunkID.OBJT ++ le32 (blen payload) ++ payload.

(** count = 3, the middle pointer zero; records at offsets 32 and 64. *)
Definition objt_archive_3 : list byte :=
  objt_archive [32; 0; 64] (object_record 5 (-10) ++ object_record 6 20).

(** count = 1 and count = 2 with a zero pointer: the same single record. *)
Definition objt_archive_1 : list byte :=
  objt_archive [24] (object_record 5 (-10)).
Definition objt_archive_1_and_zero : list byte :=
  objt_archive [28; 0] (object_record 5 (-10)).

(** *** Frame conditions *)

(** Running [fn] to completion leaves the observation [F] unchanged. *)
Definition keeps {A : Type} (F : GameExtractor.t -> A)
    (fn : GameExtractor.t -> result GameExtractor.t) : Prop :=
  forall s s', fn s = Ok s' -> F s' = F s.

Definition sprite_part (s : GameExtractor.t) := (sprites s, sprite_map s).
Definition object_part (s : GameExtractor.t) := (objects s, object_map s).

(** *** Tilesets *)

(** The crop rectangle of region [tpe] lies inside the page [tex]. *)
Definition within_page (tpe : TPAGEntry.t) (tex : Image.t) : Prop :=
  0 <= TPAGEntry.src_x tpe /\ 0 <= TPAGEntry.src_y tpe
  /\ TPAGEntry.src_x tpe + TPAGEntry.src_w tpe <= Image.width tex
  /\ TPAGEntry.src_y tpe + TPAGEntry.src_h tpe <= Image.height tex.

(** The image [_build_tileset_cache] stores for a background, if any. *)
Definition tileset_of (textures : gmap Z Image.t) (bg : Background.t)
  : option Image.t :=
  tpe ← Background.tpage bg;
  tex ← textures !! TPAGEntry.tex_id tpe;
  if (TPAGEntry.src_x tpe + TPAGEntry.src_w tpe <=? Image.width tex)
     && (TPAGEntry.src_y tpe + TPAGEntry.src_h tpe <=? Image.height tex)
  then Some (Image.crop tex (TPAGEntry.src_x tpe, TPAGEntry.src_y tpe,
                             TPAGEntry.src_x tpe + TPAGEntry.src_w tpe,
                             TPAGEntry.src_y tpe + TPAGEntry.src_h tpe))
  else None.

(** An archive with one background whose region is the sample region. *)
Definition bgnd_archive : list byte :=
  let payload :=
    le32 1 ++ le32 24
    ++ (le32 0 ++ le32 0 ++ le32 0 ++ le32 0 ++ le32 44)
    ++ (le16 2 ++ le16 4 ++ le16 10 ++ le16 10 ++ le16 5 ++ le16 3
        ++ le16 10 ++ le16 10 ++ le16 20 ++ le16 20 ++ le16 0)
    ++ zeros 1 in
  le32 ChunkID.FORM ++ le32 (8 + blen payload)
  ++ le32 ChunkID.BGND ++ le32 (blen payload) ++ payload.

(** An 8x8 page, too small for the sample region. *)
Definition small_page : Image.t := Image.tabulate 8 8 (fun x y => (x, y, 9, 255)).

(** *** A sample archive with most chunk kinds *)

(** The payload of the GEN8 chunk, at offset 16. *)
Definition demo_gen8 : list byte :=
  le32 0 ++ le32 40 ++ zeros 12 ++ le32 77 ++ [x64; x65; x6d; x6f; x00] ++
  zeros 3.

(** The payload of the STRG chunk, at offset 56. *)
Definition demo_strg : list byte :=
  le32 2 ++ le32 68 ++ le32 74 ++ le32 2 ++ [x68; x69] ++ le32 3 ++
  [x61; x62; x63] ++ zeros 3.

(** The payload of the SPRT chunk, at offset 92. *)
Definition demo_sprt : list byte :=
  le32 1 ++ le32 100 ++ le32 172 ++ le32 20 ++ le32 20 ++ zeros 36 ++
  le32 10 ++ le32 0xFFFFFFFD ++ le32 3 ++ le32 180 ++ le32 0 ++ le32 202 ++
  [x73; x70; x72; x5f; x6f; x6e; x65; x00] ++ le16 2 ++ le16 4 ++ le16 10 ++
  le16 10 ++ le16 5 ++ le16 3 ++ le16 10 ++ le16 10 ++ le16 20 ++ le16 20 ++
  le16 0 ++ le16 0 ++ le16 0 ++ le16 0 ++ le16 7 ++ le16 0 ++ le16 0 ++
  le16 0 ++ le16 7 ++ le16 20 ++ le16 20 ++ le16 0 ++ zeros 70.

(** The payload of the OBJT chunk, at offset 302. *)
Definition demo_objt : list byte :=
  le32 2 ++ le32 314 ++ le32 346 ++ le32 0 ++ le32 0 ++ le32 1 ++ le32 0 ++
  le32 0xFFFFFFF6 ++ le32 0 ++ le32 0xFFFFFF9C ++ le32 0xFFFFFFFF ++
  le32 0 ++ le32 0 ++ le32 0 ++ le32 0 ++ le32 5 ++ le32 0 ++
  le32 0xFFFFFF9C ++ le32 0xFFFFFFFF ++ zeros 36.

(** The payload of the ROOM chunk, at offset 422. *)
Definition demo_room : list byte :=
  le32 1 ++ le32 430 ++ le32 0 ++ le32 0 ++ le32 64 ++ le32 48 ++ le32 30 ++
  le32 0 ++ le32 1056816 ++ zeros 12 ++ le32 486 ++ le32 0 ++ le32 566 ++
  le32 630 ++ le32 9 ++ le32 526 ++ le32 526 ++ le32 526 ++ le32 526 ++
  le32 526 ++ le32 526 ++ le32 526 ++ le32 526 ++ le32 526 ++ le32 1 ++
  le32 0 ++ le32 0 ++ le32 0 ++ le32 0 ++ le32 0 ++ le32 0 ++ zeros 8 ++
  le32 0 ++ le32 3 ++ le32 582 ++ le32 598 ++ le32 614 ++ le32 10 ++
  le32 12 ++ le32 0 ++ le32 100 ++ le32 20 ++ le32 22 ++ le32 1 ++
  le32 101 ++ le32 30 ++ le32 32 ++ le32 7 ++ le32 102 ++ le32 2 ++
  le32 642 ++ le32 690 ++ le32 0 ++ le32 0 ++ le32 0 ++ le32 0 ++ le32 0 ++
  le32 16 ++ le32 16 ++ le32 100 ++ le32 0 ++ le32 1065353216 ++
  le32 1065353216 ++ le32 0xFFFFFFFF ++ le32 16 ++ le32 0 ++ le32 0 ++
  le32 0 ++ le32 0 ++ le32 16 ++ le32 16 ++ le32 50 ++ le32 0 ++
  le32 1065353216 ++ le32 1065353216 ++ le32 0xFFFFFFFF ++ zeros 104.

(** The payload of the BGND chunk, at offset 850. *)
Definition demo_bgnd : list byte :=
  le32 1 ++ le32 858 ++ le32 0 ++ zeros 12 ++ le32 878 ++ le16 2 ++ le16 4 ++
  le16 10 ++ le16 10 ++ le16 5 ++ le16 3 ++ le16 10 ++ le16 10 ++ le16 20 ++
  le16 20 ++ le16 0 ++ zeros 2.

(** The payload of the FONT chunk, at offset 910. *)
Definition demo_font : list byte :=
  le32 1 ++ le32 918 ++ le32 0 ++ le32 0 ++ le32 1094713344 ++ le32 1 ++
  le32 0 ++ le16 32 ++ le16 0 ++ le16 127 ++ le16 0 ++ le32 0 ++ zeros 12 ++
  le32 966 ++ le32 2 ++ le32 978 ++ le32 0 ++ le16 65 ++ le16 1 ++ le16 2 ++
  le16 8 ++ le16 9 ++ le16 10 ++ le16 65535 ++ zeros 50.

(** The payload of the PATH chunk, at offset 1050. *)
Definition demo_path : list byte :=
  le32 1 ++ le32 1058 ++ le32 0 ++ le32 1 ++ le32 0 ++ le32 4 ++ le32 2 ++
  le32 1065353216 ++ le32 1065353216 ++ le32 1065353216 ++ le32 1065353216 ++
  le32 1065353216 ++ le32 1065353216 ++ zeros 24.

(** The payload of the AUDO chunk, at offset 1134. *)
Definition demo_audo : list byte :=
  le32 2 ++ le32 1146 ++ le32 1154 ++ le32 4 ++ [x52; x49; x46; x46] ++
  le32 0 ++ zeros 8.

(** The payload of the TXTR chunk, at offset 1174. *)
Definition demo_txtr : list byte :=
  le32 2 ++ le32 1186 ++ le32 1194 ++ le32 0 ++ le32 1202 ++ le32 0 ++
  le32 0 ++ [x89; x50; x4e; x47; x0d; x0a; x1a; x0a] ++
  [x00; x00; x00; x02; x49; x48; x44; x52; x01; x02; x00; x00; x00; x00] ++
  [x00; x00; x00; x00; x49; x45; x4e; x44; xae; x42; x60; x82] ++
  [x89; x50; x4e; x47] ++ zeros 16.

(** A small archive with one chunk of most kinds; 1256 bytes. *)
Definition demo_archive : list byte :=
  le32 ChunkID.FORM ++ le32 1248
  ++ le32 ChunkID.GEN8 ++ le32 32 ++ demo_gen8
  ++ le32 ChunkID.STRG ++ le32 28 ++ demo_strg
  ++ le32 ChunkID.SPRT ++ le32 202 ++ demo_sprt
  ++ le32 ChunkID.OBJT ++ le32 112 ++ demo_objt
  ++ le32 ChunkID.ROOM ++ le32 420 ++ demo_room
  ++ le32 ChunkID.BGND ++ le32 52 ++ demo_bgnd
  ++ le32 ChunkID.FONT ++ le32 132 ++ demo_font
  ++ le32 ChunkID.PATH ++ le32 76 ++ demo_path
  ++ le32 ChunkID.AUDO ++ le32 32 ++ demo_audo
  ++ le32 ChunkID.TXTR ++ le32 82 ++ demo_txtr.

(** The sample archive, scanned and decoded. *)
Definition demo_dw : DataWin.t :=
match _parse demo_archive with
| Ok dw => dw
| Raise _ => DataWin.mk [] 0 ∅ []
end.

Definition demo_ext : GameExtractor.t :=
match load demo_archive with
| Ok ext => ext
| Raise _ => GameExtractor.init demo_dw
end.

(** An object record whose name pointer is [name_ptr]. *)
Definition object_record_named (name_ptr : Z) : list byte :=
le32 name_ptr ++ le32 5 ++ le32 1 ++ le32 0 ++ le32 0
++ le32 0 ++ le32 (2 ^ 32 - 100) ++ le32 (2 ^ 32 - 1).

(** One object whose name pointer, 56, is the offset of a NUL byte. *)
Definition objt_archive_nul_name : list byte :=
objt_archive [24] (object_record_named 56).

(** The three shapes of a record name. *)
Definition name_shape (prefix : string) (i : Z) (name : pystr) : Prop :=
name = fstr prefix i
\/ name = text ""
\/ exists raw, name = decode utf_8 raw /\ (0 < length raw < 200)%nat /\ x00 ∉ raw.

(** *** What the draw list holds *)

(** Entry [e] stands for the tile declared at position [i] of the room. *)
Definition is_tile_entry (room : Room.t) (depth_min depth_max : Z)
    (e : DrawEntry.t) : Prop :=
exists (i : nat) (tile : RoomTile.t),
  Room.tiles room !! i = Some tile
  /\ depth_min <= RoomTile.depth tile <= depth_max
  /\ e = DrawEntry.mk (RoomTile.depth tile) (tile_item tile) (Z.of_nat i).

(** Entry [e] stands for the instance declared at position [i] of the room,
    whose object is found in [object_map] and is visible or shown anyway. *)
Definition is_inst_entry (self : RoomRenderer.t) (room : Room.t)
    (show_hidden : bool) (depth_min depth_max : Z) (e : DrawEntry.t) : Prop :=
exists (i : nat) (inst : RoomInst.t) (obj : GameObject.t),
  Room.instances room !! i = Some inst
  /\ object_map (RoomRenderer.ext self) !! RoomInst.obj_idx inst = Some obj
  /\ (GameObject.visible obj = true \/ show_hidden = true)
  /\ depth_min <= GameObject.depth obj <= depth_max
  /\ e = DrawEntry.mk (GameObject.depth obj) (inst_item obj inst) (100000 + Z.of_nat i).

(** *** Sample sprite archives *)

(** A sprite record: name pointer [name_ptr], size 32x32, origin (0,0),
    declared frame count [fc], and no frame pointer behind it. *)
Definition sprite_record (name_ptr fc : Z) : list byte :=
le32 name_ptr ++ le32 32 ++ le32 32 ++ zeros 36 ++ le32 0 ++ le32 0 ++ le32 fc.

(** An archive whose SPRT chunk has the pointer table [ptrs] followed by
    the records [records] and 5 bytes of padding. *)
Definition sprt_archive (ptrs : list Z) (records : list byte) : list byte :=
let payload := le32 (Z.of_nat (length ptrs)) ++ flat_map le32 ptrs ++ records ++ zeros 5 in
le32 ChunkID.FORM ++ le32 (8 + blen payload)
++ le32 ChunkID.SPRT ++ le32 (blen payload) ++ payload.

(** One unnamed sprite, at offset 24, that declares [fc] frames. *)
Definition sprt_archive_declaring (fc : Z) : list byte :=
sprt_archive [24] (sprite_record 0 fc).

(** *** Counted sub-lists *)

(** Entry [j] of the counted pointer list at [list_ptr] can be read and its
    pointer passes the guard [if p and p < self.dw.size - k]. *)
Definition usable_entry (dw : DataWin.t) (k list_ptr j : Z) : bool :=
match u32 (DataWin.data dw) (list_ptr + 4 + j * 4) with
| Ok p => usable dw k p
| Raise _ => false
end.

(** [l] is the sub-list a record gets from the counted pointer list at
    [list_ptr]: nothing when the list pointer is not usable, and otherwise
    what the loop body [body] keeps of the first [Z.min count bound]
    entries, [count] being the count the list declares: one element for
    each of these entries whose pointer passes the guard with constant [k]. *)
Definition clamped_sublist {A : Type} (dw : DataWin.t) (bound k list_ptr : Z)
    (body : Z -> Z -> list A -> result (list A)) (l : list A) : Prop :=
if usable dw 4 list_ptr then
  exists count,
    u32 (DataWin.data dw) list_ptr = Ok count
    /\ for_in_range (Z.min count bound) (body list_ptr) [] = Ok l
    /\ length l
       = length (filter (fun j => usable_entry dw k list_ptr j = true)
                   (seqZ 0 (Z.min count bound)))
else l = [].

(** *** Record names *)







(** Eight table entries, the first seven zero: one sprite, at index 7,
    without a name pointer. *)
Definition sprt_archive_index_7 : list byte :=
sprt_archive [0; 0; 0; 0; 0; 0; 0; 52] (sprite_record 0 0).

(** *** Embedded images *)

(** A sub-block of an image: a 4-byte big-endian length of the payload, a
    4-byte type, the payload and a 4-byte checksum. *)
Module PngChunk.
Record t : Type := mk
{ size_field : list byte; type_ : list byte; payload : list byte; crc : list byte }.
End PngChunk.

Definition chunk_bytes (c : PngChunk.t) : list byte :=
PngChunk.size_field c ++ PngChunk.type_ c ++ PngChunk.payload c ++ PngChunk.crc c.

(** The fields have their sizes and the length field is the payload's length. *)
Definition chunk_ok (c : PngChunk.t) : Prop :=
length (PngChunk.size_field c) = 4%nat
/\ be_int (PngChunk.size_field c) = blen (PngChunk.payload c)
/\ length (PngChunk.type_ c) = 4%nat
/\ length (PngChunk.crc c) = 4%nat.

(** An image: the signature, sub-blocks, and the end-marker sub-block. *)
Definition png_bytes (blocks : list PngChunk.t) (iend : PngChunk.t) : list byte :=
PNG_SIGNATURE ++ flat_map chunk_bytes blocks ++ chunk_bytes iend.

(** The end marker is the image's only sub-block of type [IEND]. *)
Definition png_ok (blocks : list PngChunk.t) (iend : PngChunk.t) : Prop :=
Forall (fun c => chunk_ok c /\ PngChunk.type_ c ≠ IEND) blocks
/\ chunk_ok iend /\ PngChunk.type_ iend = IEND.

(** A buffer as a [DataWin] without chunks. *)
Definition raw_buffer (data : list byte) : DataWin.t :=
DataWin.mk data (blen data) ∅ [].

(** A header sub-block with a 1-byte payload and the usual empty end
    marker, and the 33-byte image they make. *)
Definition sample_block : PngChunk.t :=
PngChunk.mk [x00; x00; x00; x01] [x49; x48; x44; x52] [x2a] [x01; x02; x03; x04].
Definition sample_iend : PngChunk.t :=
PngChunk.mk [x00; x00; x00; x00] IEND [] [xae; x42; x60; x82].
Definition sample_png : list byte := png_bytes [sample_block] sample_iend.

(** * Properties *)

(** ** The result monad and loops *)

Lemma bind_Ok {A B : Type} (m : result A) (f : A -> result B) (b : B) :
  m ≫= f = Ok b -> exists a, m = Ok a /\ f a = Ok b.
Proof. destruct m as [a|e]; simpl; [eauto | discriminate]. Qed.

Lemma fmap_Ok {A B : Type} (m : result A) (f : A -> B) (b : B) :
  f <$> m = Ok b -> exists a, m = Ok a /\ b = f a.
Proof. destruct m as [a|e]; simpl; [intros [= <-]; eauto | discriminate]. Qed.

(** Invariant rule for [for i in range(...)]. *)
Lemma for_range_ind {S : Type} (P : Z -> S -> Prop) (body : Z -> S -> result S) :
  (forall i s s', P i s -> body i s = Ok s' -> P (i + 1) s') ->
  forall n i s s', P i s -> for_range n i body s = Ok s' -> P (i + Z.of_nat n) s'.
Proof.
  intros Hstep n. induction n as [|n IH]; intros i s s' HP Hrun.
  - simpl in Hrun. injection Hrun as <-. by rewrite Z.add_0_r.
  - simpl in Hrun. apply bind_Ok in Hrun as (s1 & Hb & Hrun).
    replace (i + Z.of_nat (Datatypes.S n)) with (i + 1 + Z.of_nat n) by lia.
    eapply IH; [|exact Hrun]. eauto.
Qed.

(** The loop runs to completion when no iteration raises. *)
Lemma for_range_total {S : Type} (body : Z -> S -> result S) :
  (forall i s, exists s', body i s = Ok s') ->
  forall n i s, exists s', for_range n i body s = Ok s'.
Proof.
  intros Hb n. induction n as [|n IH]; intros i s; simpl; [eauto|].
  destruct (Hb i s) as [s1 ->]. simpl. apply IH.
Qed.

(** ** The byte cursor *)

Lemma byte_val_range b : 0 <= byte_val b < 256.
Proof. unfold byte_val. pose proof (Byte.to_N_bounded b). lia. Qed.

Lemma byte_val_inj a b : byte_val a = byte_val b -> a = b.
Proof.
  unfold byte_val. intros H. apply N2Z.inj in H.
  pose proof (Byte.of_to_N a) as Ha. rewrite H, Byte.of_to_N in Ha. congruence.
Qed.

Lemma le_int_range bs : 0 <= le_int bs < 256 ^ Z.of_nat (length bs).
Proof.
  induction bs as [|b bs IH]; [simpl; lia|].
  cbn [le_int foldr length]. fold (le_int bs).
  pose proof (byte_val_range b).
  rewrite Nat2Z.inj_succ, Z.pow_succ_r by lia. lia.
Qed.

Lemma le_int_inj a b : length a = length b -> le_int a = le_int b -> a = b.
Proof.
  revert b. induction a as [|x a IH]; intros [|y b] Hl; try discriminate; [done|].
  cbn [le_int foldr]. fold (le_int a) (le_int b). intros He.
  pose proof (byte_val_range x). pose proof (byte_val_range y).
  assert (byte_val x = byte_val y /\ le_int a = le_int b) as [Hx Ha] by lia.
  f_equal; [by apply byte_val_inj | apply IH; [by injection Hl | done]].
Qed.

Lemma unpack_from_ok n d o :
  0 <= o -> o + Z.of_nat n <= blen d ->
  unpack_from n d o = Ok (take n (drop (Z.to_nat o) d)).
Proof.
  intros Ho Hn. unfold unpack_from.
  destruct (o <? 0) eqn:E; [lia|]. simpl.
  destruct (blen d - o <? Z.of_nat n) eqn:E2; [lia | done].
Qed.

Lemma unpack_from_length n d o bs :
  unpack_from n d o = Ok bs -> length bs = n.
Proof.
  unfold unpack_from, blen.
  destruct (o <? 0) eqn:E1; cbn [andb];
    repeat match goal with
           | |- context [if ?c then _ else _] => destruct c eqn:?; try discriminate
           end;
    intros [= <-]; rewrite length_take, length_drop; lia.
Qed.

(** A read at a non-negative offset succeeds exactly when it fits. *)
Lemma unpack_from_fits n d o bs :
  0 <= o -> unpack_from n d o = Ok bs -> o + Z.of_nat n <= blen d.
Proof.
  intros Ho. unfold unpack_from.
  destruct (o <? 0) eqn:E; [lia|]. simpl.
  destruct (blen d - o <? Z.of_nat n) eqn:E2; [discriminate | lia].
Qed.

Lemma u32_ok d o :
  0 <= o -> o + 4 <= blen d -> exists v, u32 d o = Ok v /\ 0 <= v < 2 ^ 32.
Proof.
  intros Ho H4. unfold u32. rewrite (unpack_from_ok 4) by (simpl; lia).
  eexists; split; [reflexivity|].
  pose proof (le_int_range (take 4 (drop (Z.to_nat o) d))) as Hr.
  rewrite length_take, length_drop in Hr.
  assert (Z.of_nat (4 `min` (length d - Z.to_nat o)) = 4) as E
    by (unfold blen in H4; lia).
  rewrite E in Hr. exact Hr.
Qed.

Lemma u32_range d o v : u32 d o = Ok v -> 0 <= v < 2 ^ 32.
Proof.
  unfold u32. intros H. apply fmap_Ok in H as (bs & Hb & ->).
  apply unpack_from_length in Hb. pose proof (le_int_range bs) as Hr.
  rewrite Hb in Hr. exact Hr.
Qed.

Lemma u16_range d o v : u16 d o = Ok v -> 0 <= v < 2 ^ 16.
Proof.
  unfold u16. intros H. apply fmap_Ok in H as (bs & Hb & ->).
  apply unpack_from_length in Hb. pose proof (le_int_range bs) as Hr.
  rewrite Hb in Hr. exact Hr.
Qed.

(** ** The chunk scan of [DataWin._parse] *)

(** With fuel for every byte of the buffer the loop leaves through its
    guard; what it returns is the run described by [scan_from]. *)
Lemma _parse_loop_scan d fuel : forall pos m tr0,
  0 <= pos ->
  (Z.to_nat (blen d - 8 - pos) <= fuel)%nat ->
  exists tr stop,
    _parse_loop fuel d pos (m, tr0) = Ok (foldl write_chunk m tr, tr0 ++ tr)
    /\ scan_from d pos tr stop.
Proof.
  induction fuel as [|fuel IH]; intros pos m tr0 Hpos Hfuel.
  - exists [], pos. cbn [_parse_loop].
    destruct (pos <? blen d - 8) eqn:E; [lia|].
    rewrite app_nil_r. split; [done | constructor; lia].
  - cbn [_parse_loop]. destruct (pos <? blen d - 8) eqn:E.
    + destruct (u32_ok d pos) as (cid & Hcid & _); [lia..|].
      destruct (u32_ok d (pos + 4)) as (sz & Hsz & Hszr); [lia..|].
      rewrite Hcid. cbn [mbind result_bind]. rewrite Hsz. cbn [mbind result_bind fst snd].
      set (c := Chunk.mk (chunk_name cid) pos sz (pos + 8)).
      destruct (IH (pos + (8 + sz)) (<[cid := c]> m) (tr0 ++ [(cid, c)]))
        as (tr & stop & Hrun & Hscan); [lia..|].
      exists ((cid, c) :: tr), stop. split.
      * rewrite Hrun. by rewrite <- app_assoc.
      * econstructor; eauto; lia.
    + exists [], pos. rewrite app_nil_r. split; [done | constructor; lia].
Qed.

Lemma scan_from_stop d pos tr stop :
  scan_from d pos tr stop ->
  stop = match last tr with
         | Some (_, c) => Chunk.offset c + 8 + Chunk.size c
         | None => pos
         end
  /\ ~ stop < blen d - 8.
Proof.
  induction 1 as [pos Hn | pos cid sz tr stop Hlt Hcid Hsz Hscan [IH1 IH2]].
  - done.
  - split; [|done]. rewrite last_cons. destruct (last tr) as [[? c]|]; [done|].
    simpl. lia.
Qed.

(** Every recorded chunk starts at or after the scan position, carries the
    tag and size read at its offset, and has its payload 8 bytes in. *)
Lemma scan_from_chunks d pos tr stop :
  scan_from d pos tr stop ->
  Forall (fun p => pos <= Chunk.offset (snd p)
                   /\ Chunk.offset (snd p) < blen d - 8
                   /\ u32 d (Chunk.offset (snd p)) = Ok (fst p)
                   /\ u32 d (Chunk.offset (snd p) + 4) = Ok (Chunk.size (snd p))
                   /\ 0 <= Chunk.size (snd p)
                   /\ Chunk.data_start (snd p) = Chunk.offset (snd p) + 8) tr.
Proof.
  induction 1 as [pos Hn | pos cid sz tr stop Hlt Hcid Hsz Hscan IH]; [constructor|].
  pose proof (u32_range _ _ _ Hsz) as Hr.
  constructor; [simpl; repeat split; try done; lia|].
  eapply Forall_impl; [exact IH|]. simpl. intros p (? & ? & ? & ? & ? & ?).
  repeat split; try done; lia.
Qed.

(** Chunks follow one another without gap: the next one starts where the
    previous payload ends. *)
Lemma scan_from_contiguous d pos tr stop :
  scan_from d pos tr stop ->
  (forall p, tr !! 0%nat = Some p -> Chunk.offset (snd p) = pos)
  /\ forall i p q, tr !! i = Some p -> tr !! Datatypes.S i = Some q ->
       Chunk.offset (snd q) = Chunk.offset (snd p) + 8 + Chunk.size (snd p).
Proof.
  induction 1 as [pos Hn | pos cid sz tr stop Hlt Hcid Hsz Hscan [IH0 IH]].
  - split; intros; discriminate.
  - split; [by intros p [= <-]|].
    intros [|i] p q Hp Hq; simpl in Hp, Hq.
    + injection Hp as <-. rewrite (IH0 _ Hq). simpl. lia.
    + eauto.
Qed.

(** A chunk recorded later lies wholly after one recorded earlier. *)
Lemma scan_from_ordered d pos tr stop :
  scan_from d pos tr stop ->
  forall i j p q, tr !! i = Some p -> tr !! j = Some q -> (i < j)%nat ->
    Chunk.offset (snd p) + 8 + Chunk.size (snd p) <= Chunk.offset (snd q).
Proof.
  induction 1 as [pos Hn | pos cid sz tr stop Hlt Hcid Hsz Hscan IH];
    intros i j p q Hp Hq Hij; [discriminate|].
  destruct j as [|j]; [lia|]. simpl in Hq.
  destruct i as [|i].
  - injection Hp as <-. simpl.
    pose proof (scan_from_chunks _ _ _ _ Hscan) as Hall.
    rewrite Forall_lookup in Hall. destruct (Hall _ _ Hq) as (? & _). lia.
  - simpl in Hp. eapply IH; eauto. lia.
Qed.

(** The dict built by overwriting holds, for each tag, the last chunk
    written under it. *)
Lemma foldl_write_chunk_lookup tr : forall m cid,
  foldl write_chunk m tr !! cid =
  match last_with_tag cid tr with
  | Some c => Some c
  | None => m !! cid
  end.
Proof.
  induction tr as [|[k c] tr IH]; intros m cid; [done|].
  cbn [foldl]. rewrite IH. unfold last_with_tag, write_chunk. cbn [fst snd].
  rewrite filter_cons. cbn [fst]. destruct (decide (k = cid)) as [->|Hne].
  - rewrite last_cons. destruct (last (filter _ tr)) as [[? ?]|]; simpl; [done|].
    by rewrite lookup_insert_eq.
  - destruct (last (filter _ tr)) as [[? ?]|]; simpl; [done|].
    by rewrite lookup_insert_ne.
Qed.

Lemma _parse_ok d :
  u32 d 0 = Ok ChunkID.FORM ->
  exists tr stop,
    _parse d = Ok (DataWin.mk d (blen d) (foldl write_chunk ∅ tr) tr)
    /\ scan_from d 8 tr stop.
Proof.
  intros Hm. unfold _parse. rewrite Hm. cbn [mbind result_bind].
  rewrite Z.eqb_refl. cbn [negb].
  destruct (_parse_loop_scan d (length d) 8 ∅ []) as (tr & stop & Hrun & Hscan);
    [lia | unfold blen; lia |].
  rewrite Hrun. simpl. eauto.
Qed.

Example parse_three_chunks_trace :
  exists dw, _parse archive_three_chunks = Ok dw
    /\ map (fun p => (fst p, Chunk.offset (snd p), Chunk.size (snd p), Chunk.data_start (snd p)))
           (DataWin.trace dw)
       = [(ChunkID.SPRT, 8, 4, 16); (ChunkID.OBJT, 20, 0, 28); (ChunkID.SPRT, 28, 4, 36)]
    /\ Chunk.offset <$> DataWin.chunks dw !! ChunkID.SPRT = Some 28
    /\ Chunk.offset <$> DataWin.chunks dw !! ChunkID.OBJT = Some 20.
Proof. eexists. split; [vm_compute; reflexivity|]. vm_compute. done. Qed.

(** C6, as the code has it.  For every buffer that passes the magic check
    the scan returns; it reads a 4-byte tag and a 4-byte size and advances
    8 + size bytes, repeating while more than 8 bytes remain
    ([pos < size - 8]).  The chunks it records have payload start equal to
    offset + 8, strictly increasing offsets, are contiguous from offset 8 on
    and do not overlap; the dict keeps, for each tag, the last chunk recorded
    under it. *)
Theorem parse_scan_while_more_than_8 (d : list byte) :
  u32 d 0 = Ok ChunkID.FORM ->
  exists dw,
    _parse d = Ok dw
    /\ scan_from d 8 (DataWin.trace dw) (scan_end dw)
    /\ ~ scan_end dw < blen d - 8
    /\ (forall p, p ∈ DataWin.trace dw ->
          Chunk.data_start (snd p) = Chunk.offset (snd p) + 8
          /\ 0 <= Chunk.size (snd p)
          /\ Chunk.offset (snd p) < blen d - 8)
    /\ (forall i j p q,
          DataWin.trace dw !! i = Some p -> DataWin.trace dw !! j = Some q ->
          (i < j)%nat ->
          Chunk.offset (snd p) < Chunk.offset (snd q)
          /\ Chunk.offset (snd p) + 8 + Chunk.size (snd p) <= Chunk.offset (snd q))
    /\ (forall p, DataWin.trace dw !! 0%nat = Some p -> Chunk.offset (snd p) = 8)
    /\ (forall i p q,
          DataWin.trace dw !! i = Some p -> DataWin.trace dw !! Datatypes.S i = Some q ->
          Chunk.offset (snd q) = Chunk.offset (snd p) + 8 + Chunk.size (snd p))
    /\ (forall cid, DataWin.chunks dw !! cid = last_with_tag cid (DataWin.trace dw)).
Proof.
  intros Hm. destruct (_parse_ok d Hm) as (tr & stop & Hparse & Hscan).
  eexists. split; [exact Hparse|].
  destruct (scan_from_stop _ _ _ _ Hscan) as [Hstop Hguard].
  assert (scan_end (DataWin.mk d (blen d) (foldl write_chunk ∅ tr) tr) = stop) as Hend
    by (unfold scan_end; cbn [DataWin.trace]; by rewrite Hstop).
  rewrite Hend. cbn [DataWin.trace DataWin.chunks].
  pose proof (scan_from_chunks _ _ _ _ Hscan) as Hall.
  destruct (scan_from_contiguous _ _ _ _ Hscan) as [Hfirst Hcont].
  repeat split.
  - exact Hscan.
  - exact Hguard.
  - rewrite Forall_forall in Hall. by destruct (Hall p) as (_ & _ & _ & _ & _ & ?).
  - rewrite Forall_forall in Hall. by destruct (Hall p) as (_ & _ & _ & _ & ? & _).
  - rewrite Forall_forall in Hall. by destruct (Hall p) as (_ & ? & _).
  - pose proof (scan_from_ordered _ _ _ _ Hscan _ _ _ _ H H0 H1) as Hord.
    rewrite Forall_lookup in Hall.
    destruct (Hall _ _ H) as (_ & _ & _ & _ & ? & _). lia.
  - eapply scan_from_ordered; eauto.
  - exact Hfirst.
  - exact Hcont.
  - intros cid. rewrite foldl_write_chunk_lookup.
    by destruct (last_with_tag cid tr).
Qed.

Lemma parse_scan_while_more_than_8_witness :
  u32 archive_three_chunks 0 = Ok ChunkID.FORM
  /\ exists dw, _parse archive_three_chunks = Ok dw
       /\ ~ scan_end dw < blen archive_three_chunks - 8.
Proof.
  split; [reflexivity|].
  destruct (parse_scan_while_more_than_8 archive_three_chunks eq_refl)
    as (dw & Hp & _ & Hend & _).
  exists dw. split; [exact Hp | exact Hend].
Defined.

(** C6 as stated fails: the scan does not go on until fewer than 8 bytes
    remain.  On a 16-byte archive whose bytes 8..15 are a complete chunk
    header it stops at position 8 with 8 bytes left and records nothing. *)
Lemma parse_stops_with_8_bytes_left :
  _parse archive_header_only_chunk
    = Ok (DataWin.mk archive_header_only_chunk 16 ∅ [])
  /\ ~ (forall d dw, _parse d = Ok dw -> blen d - scan_end dw < 8).
Proof.
  assert (_parse archive_header_only_chunk
          = Ok (DataWin.mk archive_header_only_chunk 16 ∅ [])) as E by reflexivity.
  split; [exact E|]. intros H. specialize (H _ _ E).
  vm_compute in H. discriminate.
Qed.

(** ** Bad magic *)

Lemma le_int_FORM_magic : le_int FORM_magic = ChunkID.FORM.
Proof. reflexivity. Qed.

(** A buffer of at least 4 bytes whose leading 4 bytes are not the
    container tag makes [DataWin] raise [ValueError("Invalid data.win")]
    before any chunk is read. *)
Lemma parse_bad_magic (file : list byte) :
  4 <= blen file ->
  take 4 file ≠ FORM_magic ->
  _parse file = Raise (ValueError "Invalid data.win").
Proof.
  intros Hlen Hne.
  unfold _parse, u32. rewrite (unpack_from_ok 4) by (simpl; lia).
  cbn [fmap result_fmap mbind result_bind].
  change (drop (Z.to_nat 0) file) with file.
  destruct (le_int (take 4 file) =? ChunkID.FORM) eqn:E; [|done].
  exfalso. apply Hne. apply le_int_inj.
  - rewrite length_take. unfold blen in Hlen. cbn [FORM_magic length]. lia.
  - rewrite le_int_FORM_magic. lia.
Qed.

(** A buffer of fewer than 4 bytes makes the very first read,
    [self.u32(0)], raise [struct.error]. *)
Lemma parse_short_buffer (file : list byte) :
  blen file < 4 -> _parse file = Raise StructError.
Proof.
  intros Hlen. unfold _parse, u32, unpack_from.
  cbn [Z.ltb Z.compare andb].
  assert ((blen file - 0 <? Z.of_nat 4) = true) as ->
    by (change (Z.of_nat 4) with 4; lia).
  done.
Qed.

(** C3, as the code has it.  For every input buffer whose leading 4 bytes
    are not the container tag, loading fails and no catalog is produced, not
    even a partial one: with [ValueError("Invalid data.win")] when the buffer
    has at least 4 bytes, and with [struct.error] from the read of the tag
    itself when it has fewer. *)
Theorem load_without_magic (file : list byte) :
  take 4 file ≠ FORM_magic ->
  (4 <= blen file ->
     _parse file = Raise (ValueError "Invalid data.win")
     /\ load file = Raise (ValueError "Invalid data.win"))
  /\ (blen file < 4 ->
       _parse file = Raise StructError /\ load file = Raise StructError)
  /\ forall ext, load file ≠ Ok ext.
Proof.
  intros Hne.
  assert (4 <= blen file ->
          _parse file = Raise (ValueError "Invalid data.win")
          /\ load file = Raise (ValueError "Invalid data.win")) as Hlong.
  { intros Hlen. pose proof (parse_bad_magic file Hlen Hne) as Hp.
    split; [exact Hp|]. unfold load. by rewrite Hp. }
  assert (blen file < 4 ->
          _parse file = Raise StructError /\ load file = Raise StructError) as Hshort.
  { intros Hlen. pose proof (parse_short_buffer file Hlen) as Hp.
    split; [exact Hp|]. unfold load. by rewrite Hp. }
  split; [exact Hlong|]. split; [exact Hshort|].
  intros ext Hok. destruct (Z_lt_le_dec (blen file) 4) as [Hlt|Hge].
  - destruct (Hshort Hlt) as [_ Hl]. congruence.
  - destruct (Hlong Hge) as [_ Hl]. congruence.
Qed.

Lemma load_without_magic_witness :
  load (le32 ChunkID.SPRT ++ le32 0) = Raise (ValueError "Invalid data.win")
  /\ load [x46; x4f] = Raise StructError.
Proof.
  split.
  - apply (load_without_magic (le32 ChunkID.SPRT ++ le32 0)).
    + vm_compute. discriminate.
    + vm_compute. discriminate.
  - apply (load_without_magic [x46; x4f]).
    + vm_compute. discriminate.
    + vm_compute. reflexivity.
Defined.

(** C3 as stated fails: the empty buffer does not start with the container
    tag, yet loading it fails with [struct.error], not with the bad-magic
    [ValueError]. *)
Lemma load_empty_buffer_struct_error :
  take 4 [] ≠ FORM_magic
  /\ load [] = Raise StructError
  /\ load [] ≠ Raise (ValueError "Invalid data.win").
Proof.
  split; [discriminate|]. split; [reflexivity|]. discriminate.
Qed.

(** ** The draw list *)

Lemma key_le_spec a b :
  key_le a b = true <-> fst a < fst b \/ (fst a = fst b /\ snd a <= snd b).
Proof. unfold key_le. lia. Qed.

Lemma key_le_total a b : key_le a b = false -> key_le b a = true.
Proof.
  intros H. apply key_le_spec.
  destruct (key_le a b) eqn:E; [discriminate|].
  assert (~ (fst a < fst b \/ (fst a = fst b /\ snd a <= snd b))) as Hn
    by (rewrite <- key_le_spec, E; discriminate).
  lia.
Qed.

Lemma entry_le_trans a b c : entry_le a b -> entry_le b c -> entry_le a c.
Proof. unfold entry_le. rewrite !key_le_spec. lia. Qed.

Lemma insert_by_key_perm x l : Permutation (insert_by_key x l) (x :: l).
Proof.
  induction l as [|y l IH]; simpl; [done|].
  destruct (key_le _ _); [done|].
  rewrite IH. apply perm_swap.
Qed.

Lemma sort_by_key_perm l : Permutation (sort_by_key l) l.
Proof.
  induction l as [|x l IH]; simpl; [done|].
  rewrite insert_by_key_perm. by constructor.
Qed.

Lemma insert_by_key_sorted x l :
  StronglySorted entry_le l -> StronglySorted entry_le (insert_by_key x l).
Proof.
  induction 1 as [|y l Hs IH Hall]; simpl; [repeat constructor|].
  destruct (key_le (sort_key x) (sort_key y)) eqn:E.
  - constructor; [by constructor|]. constructor; [exact E|].
    eapply Forall_impl; [exact Hall|]. intros z Hz.
    by apply (entry_le_trans x y z).
  - constructor; [exact IH|].
    rewrite (insert_by_key_perm x l). constructor; [|exact Hall].
    by apply key_le_total.
Qed.

Lemma sort_by_key_sorted l : StronglySorted entry_le (sort_by_key l).
Proof.
  induction l as [|x l IH]; simpl; [constructor|].
  by apply insert_by_key_sorted.
Qed.

Lemma StronglySorted_lookup {A : Type} (R : A -> A -> Prop) (l : list A) :
  StronglySorted R l ->
  forall i j a b, l !! i = Some a -> l !! j = Some b -> (i < j)%nat -> R a b.
Proof.
  induction 1 as [|x l Hs IH Hall]; intros i j a b Ha Hb Hij; [discriminate|].
  destruct j as [|j]; [lia|]. simpl in Hb. destruct i as [|i].
  - injection Ha as <-. rewrite Forall_lookup in Hall. eauto.
  - simpl in Ha. eapply IH; eauto. lia.
Qed.

(** The sort is stable: among entries with one key the order of the input
    is kept. *)
Lemma insert_by_key_filter k x l :
  filter (fun e => sort_key e = k) (insert_by_key x l)
  = filter (fun e => sort_key e = k) (x :: l).
Proof.
  induction l as [|y l IH]; simpl; [done|].
  destruct (key_le (sort_key x) (sort_key y)) eqn:E; [done|].
  rewrite filter_cons, IH, !filter_cons.
  destruct (decide (sort_key y = k)) as [Hy|Hy];
    destruct (decide (sort_key x = k)) as [Hx|Hx]; try done.
  exfalso. assert (key_le (sort_key x) (sort_key y) = true) as Ht
    by (apply key_le_spec; rewrite Hx, Hy; lia).
  congruence.
Qed.

Lemma sort_by_key_stable k l :
  filter (fun e => sort_key e = k) (sort_by_key l)
  = filter (fun e => sort_key e = k) l.
Proof.
  induction l as [|x l IH]; simpl; [done|].
  by rewrite insert_by_key_filter, !filter_cons, IH.
Qed.

(** Membership in what [enumerate] collects. *)
Lemma elem_of_collect_from {A B : Type} (f : Z -> A -> option B) (l : list A) :
  forall i0 y,
    y ∈ collect_from f i0 l
    <-> exists (k : nat) (x : A), l !! k = Some x /\ f (i0 + Z.of_nat k) x = Some y.
Proof.
  induction l as [|x l IH]; intros i0 y; cbn [collect_from].
  - split; [intros H; by apply elem_of_nil in H | intros (k & x & H & _); discriminate].
  - assert (y ∈ collect_from f (i0 + 1) l
            <-> exists (k : nat) (x' : A),
                  l !! k = Some x' /\ f (i0 + Z.of_nat (Datatypes.S k)) x' = Some y) as IH'.
    { rewrite IH. split; intros (k & x' & Hk & Hf); exists k, x'; (split; [done|]).
      - by replace (i0 + Z.of_nat (Datatypes.S k)) with (i0 + 1 + Z.of_nat k) by lia.
      - by replace (i0 + 1 + Z.of_nat k) with (i0 + Z.of_nat (Datatypes.S k)) by lia. }
    destruct (f i0 x) as [y0|] eqn:E.
    + rewrite elem_of_cons, IH'. split.
      * intros [->|(k & x' & Hk & Hf)].
        -- exists 0%nat, x. split; [done|]. by rewrite Z.add_0_r.
        -- exists (Datatypes.S k), x'. by split.
      * intros ([|k] & x' & Hk & Hf).
        -- left. injection Hk as <-. rewrite Z.add_0_r in Hf. congruence.
        -- right. exists k, x'. by split.
    + rewrite IH'. split.
      * intros (k & x' & Hk & Hf). exists (Datatypes.S k), x'. by split.
      * intros ([|k] & x' & Hk & Hf).
        -- injection Hk as <-. rewrite Z.add_0_r in Hf. congruence.
        -- exists k, x'. by split.
Qed.

(** Entries collected from distinct positions are distinct when each
    records its position. *)
Lemma NoDup_collect_from {A : Type} (f : Z -> A -> option DrawEntry.t) (c : Z)
    (l : list A) :
  (forall i x y, f i x = Some y -> DrawEntry.orig_idx y = c + i) ->
  forall i0, NoDup (collect_from f i0 l)
             /\ Forall (fun y => c + i0 <= DrawEntry.orig_idx y) (collect_from f i0 l).
Proof.
  intros Hf. induction l as [|x l IH]; intros i0; cbn [collect_from].
  - split; constructor.
  - destruct (IH (i0 + 1)) as [Hnd Hall].
    assert (Forall (fun y => c + i0 <= DrawEntry.orig_idx y)
              (collect_from f (i0 + 1) l)) as Hall'
      by (eapply Forall_impl; [exact Hall|]; cbn; intros; lia).
    destruct (f i0 x) as [y0|] eqn:E; [|done].
    split.
    + constructor; [|done]. intros Hin. rewrite Forall_forall in Hall.
      specialize (Hall _ Hin). rewrite (Hf _ _ _ E) in Hall. lia.
    + constructor; [|done]. rewrite (Hf _ _ _ E). lia.
Qed.

Lemma tile_entry_Some depth_min depth_max i tile e :
  tile_entry depth_min depth_max i tile = Some e
  <-> depth_min <= RoomTile.depth tile <= depth_max
      /\ e = DrawEntry.mk (RoomTile.depth tile) (tile_item tile) i.
Proof.
  unfold tile_entry. destruct (_ && _) eqn:E.
  - split; [intros [= <-]; split; [lia|done] | by intros [_ ->]].
  - split; [discriminate | intros [? _]; lia].
Qed.

Lemma inst_entry_Some object_map show_hidden depth_min depth_max i inst e :
  inst_entry object_map show_hidden depth_min depth_max i inst = Some e
  <-> exists obj,
        object_map !! RoomInst.obj_idx inst = Some obj
        /\ (GameObject.visible obj = true \/ show_hidden = true)
        /\ depth_min <= GameObject.depth obj <= depth_max
        /\ e = DrawEntry.mk (GameObject.depth obj) (inst_item obj inst) (100000 + i).
Proof.
  unfold inst_entry. destruct (object_map !! RoomInst.obj_idx inst) as [obj|].
  2:{ split; [discriminate | intros (? & ? & _); discriminate]. }
  destruct (GameObject.visible obj || show_hidden) eqn:Ev.
  - destruct (_ && _) eqn:E.
    + split.
      * intros [= <-]. exists obj. repeat split; try lia; try done.
        apply orb_true_iff in Ev. exact Ev.
      * intros (o & [= <-] & _ & _ & ->). done.
    + split; [discriminate | intros (o & [= <-] & _ & ? & _); lia].
  - split; [discriminate|]. intros (o & [= <-] & Hv & _).
    apply orb_false_iff in Ev as [? ?]. destruct Hv; congruence.
Qed.

(** The collected list holds each drawable tile and instance once. *)
Lemma collect_drawables_spec self room show_tiles show_inst show_hidden
    depth_min depth_max :
  let l := collect_drawables self room show_tiles show_inst show_hidden
             depth_min depth_max in
  NoDup l
  /\ forall e, e ∈ l
       <-> (show_tiles = true /\ is_tile_entry room depth_min depth_max e)
           \/ (show_inst = true
               /\ is_inst_entry self room show_hidden depth_min depth_max e).
Proof.
  unfold collect_drawables. set (ft := tile_entry depth_min depth_max).
  set (fi := inst_entry _ show_hidden depth_min depth_max).
  assert (forall e, e ∈ collect_from ft 0 (Room.tiles room)
            <-> is_tile_entry room depth_min depth_max e) as Ht.
  { intros e. rewrite elem_of_collect_from. unfold is_tile_entry.
    split; intros (k & x & Hk & H); exists k, x; (split; [done|]).
    - apply tile_entry_Some in H. by rewrite Z.add_0_l in H.
    - apply tile_entry_Some. by rewrite Z.add_0_l. }
  assert (forall e, e ∈ collect_from fi 0 (Room.instances room)
            <-> is_inst_entry self room show_hidden depth_min depth_max e) as Hi.
  { intros e. rewrite elem_of_collect_from. unfold is_inst_entry. split.
    - intros (k & x & Hk & H). apply inst_entry_Some in H as (obj & H).
      rewrite Z.add_0_l in H. exists k, x, obj. by split.
    - intros (k & x & obj & Hk & H). exists k, x. split; [done|].
      apply inst_entry_Some. exists obj. by rewrite Z.add_0_l. }
  assert (NoDup (collect_from ft 0 (Room.tiles room))) as Hndt.
  { apply (NoDup_collect_from ft 0). intros i x y H.
    apply tile_entry_Some in H as [_ ->]. cbn. lia. }
  assert (NoDup (collect_from fi 0 (Room.instances room))) as Hndi.
  { apply (NoDup_collect_from fi 100000). intros i x y H.
    apply inst_entry_Some in H as (obj & _ & _ & _ & ->). cbn. lia. }
  cbn zeta. split.
  - destruct show_tiles, show_inst; cbn [app]; rewrite ?app_nil_r;
      try done; try constructor.
    apply NoDup_app. split; [done|]. split; [|done].
    intros e He1 He2. apply Ht in He1 as (? & ? & _ & _ & ->).
    apply Hi in He2 as (? & ? & ? & _ & _ & _ & _ & [=]).
  - intros e. rewrite elem_of_app.
    destruct show_tiles, show_inst; rewrite ?Ht, ?Hi, ?elem_of_nil;
      intuition discriminate.
Qed.

(** C1.  The draw list that [render_room] iterates over holds, once each,
    the room's tiles within the depth range (when tiles are shown), with
    their depth and their position among the tiles, and the room's instances
    whose object is found and visible (or shown anyway) and within the depth
    range (when instances are shown), with their object's depth and 100000
    plus their position.  It is ordered by descending depth and, at equal
    depth, by ascending original index: of two entries the one with the
    higher depth comes first, and of two with the same depth the one with
    the lower original index comes first. *)
Theorem render_room_draw_list_order
    (self : RoomRenderer.t) (room : Room.t)
    (show_tiles show_inst show_hidden : bool) (depth_min depth_max : Z) :
  let draw_list := render_room_draw_list self room show_tiles show_inst
                     show_hidden depth_min depth_max in
  (forall e, e ∈ draw_list
     <-> (show_tiles = true /\ is_tile_entry room depth_min depth_max e)
         \/ (show_inst = true
             /\ is_inst_entry self room show_hidden depth_min depth_max e))
  /\ NoDup draw_list
  /\ Permutation draw_list
       (collect_drawables self room show_tiles show_inst show_hidden depth_min depth_max)
  /\ (forall i j a b,
        draw_list !! i = Some a -> draw_list !! j = Some b -> (i < j)%nat ->
        DrawEntry.depth b <= DrawEntry.depth a
        /\ (DrawEntry.depth a = DrawEntry.depth b ->
            DrawEntry.orig_idx a <= DrawEntry.orig_idx b))
  /\ (forall i j a b,
        draw_list !! i = Some a -> draw_list !! j = Some b ->
        DrawEntry.depth b < DrawEntry.depth a
        \/ (DrawEntry.depth a = DrawEntry.depth b
            /\ DrawEntry.orig_idx a < DrawEntry.orig_idx b) ->
        (i < j)%nat).
Proof.
  intros draw_list.
  assert (Permutation draw_list
            (collect_drawables self room show_tiles show_inst show_hidden
               depth_min depth_max)) as Hperm by apply sort_by_key_perm.
  destruct (collect_drawables_spec self room show_tiles show_inst show_hidden
              depth_min depth_max) as [Hnd Hmem].
  assert (forall i j a b,
        draw_list !! i = Some a -> draw_list !! j = Some b -> (i < j)%nat ->
        DrawEntry.depth b <= DrawEntry.depth a
        /\ (DrawEntry.depth a = DrawEntry.depth b ->
            DrawEntry.orig_idx a <= DrawEntry.orig_idx b)) as Hsorted.
  { intros i j a b Ha Hb Hij.
    pose proof (StronglySorted_lookup entry_le draw_list
                  (sort_by_key_sorted _) i j a b Ha Hb Hij) as Hle.
    unfold entry_le in Hle. rewrite key_le_spec in Hle.
    unfold sort_key in Hle. simpl in Hle. lia. }
  split; [|split; [|split; [exact Hperm|split; [exact Hsorted|]]]].
  - intros e. rewrite <- Hmem. by rewrite Hperm.
  - by rewrite Hperm.
  - intros i j a b Ha Hb Hlt.
    destruct (Nat.lt_trichotomy i j) as [Hij|[->|Hji]]; [exact Hij| |].
    + rewrite Ha in Hb. injection Hb as ->. lia.
    + destruct (Hsorted j i b a Hb Ha Hji). lia.
Qed.

(** The two tiles of the spec's example: depth 100 is drawn before depth
    50 whatever the declaration order, and equal depths keep it. *)
Example draw_list_depth_100_before_50 :
  map (fun e => (DrawEntry.depth e, DrawEntry.orig_idx e))
    (render_room_draw_list empty_renderer
       (room_of_tiles [tile_at_depth 100; tile_at_depth 50])
       true true false (-999999999) 999999999) = [(100, 0); (50, 1)]
  /\ map (fun e => (DrawEntry.depth e, DrawEntry.orig_idx e))
    (render_room_draw_list empty_renderer
       (room_of_tiles [tile_at_depth 50; tile_at_depth 100])
       true true false (-999999999) 999999999) = [(100, 1); (50, 0)]
  /\ map (fun e => (DrawEntry.depth e, DrawEntry.orig_idx e))
    (render_room_draw_list empty_renderer
       (room_of_tiles [tile_at_depth 7; tile_at_depth 7; tile_at_depth 9])
       true true false (-999999999) 999999999) = [(9, 2); (7, 0); (7, 1)].
Proof. repeat split. Qed.

(** ** Images *)

Lemma getpixel_tabulate w h f x y :
  0 <= x < w -> 0 <= y < h ->
  Image.getpixel (Image.tabulate w h f) x y = Some (f x y).
Proof.
  intros Hx Hy. unfold Image.getpixel, Image.tabulate. cbn [Image.rows].
  destruct ((x <? 0) || (y <? 0)) eqn:E; [lia|].
  rewrite list_lookup_fmap, lookup_seqZ_lt by lia. cbn [fmap option_fmap option_map mbind option_bind].
  rewrite list_lookup_fmap, lookup_seqZ_lt by lia. cbn [fmap option_fmap option_map].
  do 2 f_equal; lia.
Qed.

Lemma getpixel_tabulate_outside w h f x y :
  ~ (0 <= x < w /\ 0 <= y < h) ->
  Image.getpixel (Image.tabulate w h f) x y = None.
Proof.
  intros Hout. unfold Image.getpixel, Image.tabulate. cbn [Image.rows].
  destruct ((x <? 0) || (y <? 0)) eqn:E; [done|].
  rewrite list_lookup_fmap.
  destruct (decide (y < h)) as [Hy|Hy].
  - rewrite lookup_seqZ_lt by lia. cbn [fmap option_fmap option_map mbind option_bind].
    rewrite list_lookup_fmap, lookup_seqZ_ge by lia. done.
  - rewrite lookup_seqZ_ge by lia. done.
Qed.

Lemma tabulate_wf w h f : Image.wf (Image.tabulate w h f).
Proof. intros x y Hx Hy. cbn in Hx, Hy. rewrite getpixel_tabulate by done. eauto. Qed.

(** Inside the source image a crop holds the source's pixels. *)
Lemma getpixel_crop im l u r b x y :
  Image.wf im ->
  0 <= l -> 0 <= u -> r <= Image.width im -> b <= Image.height im ->
  0 <= x < r - l -> 0 <= y < b - u ->
  Image.getpixel (Image.crop im (l, u, r, b)) x y = Image.getpixel im (l + x) (u + y).
Proof.
  intros Hwf Hl Hu Hr Hb Hx Hy. unfold Image.crop.
  rewrite getpixel_tabulate by done.
  destruct (Hwf (l + x) (u + y)) as [p Hp]; [lia..|]. by rewrite Hp.
Qed.

(** ** Sprite frame reconstruction *)

(** C8, as the code has it.  For a region with positive source size inside
    its atlas page and a sprite with positive declared size,
    [_get_sprite_frame] depends on
    whether Pillow can make the two rasters.  When both sides of the sprite
    are below [2^31] and the crop and the canvas can be allocated, it returns
    an image of exactly the declared size; a pixel outside the
    [src_w x src_h] block at the target offset is transparent, and a pixel
    inside it is the pixel of the crop, that is of the page at the
    corresponding source position.  When a side reaches [2^31] or one of the
    rasters cannot be allocated, the exception is swallowed and the result is
    [None]. *)
Theorem get_sprite_frame_reconstructs
    (can_allocate : Z -> Z -> bool)
    (self : RoomRenderer.t) (tpe : TPAGEntry.t) (sprite_w sprite_h : Z)
    (tex : Image.t) :
  RoomRenderer.textures self !! TPAGEntry.tex_id tpe = Some tex ->
  0 <= TPAGEntry.src_x tpe -> 0 <= TPAGEntry.src_y tpe ->
  0 < TPAGEntry.src_w tpe -> 0 < TPAGEntry.src_h tpe ->
  TPAGEntry.src_x tpe + TPAGEntry.src_w tpe <= Image.width tex ->
  TPAGEntry.src_y tpe + TPAGEntry.src_h tpe <= Image.height tex ->
  0 < sprite_w -> 0 < sprite_h ->
  (sprite_w < 2 ^ 31 -> sprite_h < 2 ^ 31 ->
   can_allocate (TPAGEntry.src_w tpe) (TPAGEntry.src_h tpe) = true ->
   can_allocate sprite_w sprite_h = true ->
   exists full,
     _get_sprite_frame can_allocate self tpe sprite_w sprite_h = Some full
     /\ Image.width full = sprite_w
     /\ Image.height full = sprite_h
     /\ forall x y, 0 <= x < sprite_w -> 0 <= y < sprite_h ->
          if in_block (TPAGEntry.tgt_x tpe) (TPAGEntry.tgt_y tpe)
               (TPAGEntry.src_w tpe) (TPAGEntry.src_h tpe) x y
          then
            Image.getpixel full x y
            = Image.getpixel
                (Image.crop tex (TPAGEntry.src_x tpe, TPAGEntry.src_y tpe,
                                 TPAGEntry.src_x tpe + TPAGEntry.src_w tpe,
                                 TPAGEntry.src_y tpe + TPAGEntry.src_h tpe))
                (x - TPAGEntry.tgt_x tpe) (y - TPAGEntry.tgt_y tpe)
            /\ (Image.wf tex ->
                Image.getpixel full x y
                = Image.getpixel tex
                    (TPAGEntry.src_x tpe + (x - TPAGEntry.tgt_x tpe))
                    (TPAGEntry.src_y tpe + (y - TPAGEntry.tgt_y tpe)))
          else Image.getpixel full x y = Some TRANSPARENT)
  /\ (2 ^ 31 <= sprite_w \/ 2 ^ 31 <= sprite_h
      \/ can_allocate (TPAGEntry.src_w tpe) (TPAGEntry.src_h tpe) = false
      \/ can_allocate sprite_w sprite_h = false ->
      _get_sprite_frame can_allocate self tpe sprite_w sprite_h = None).
Proof.
  intros Htex Hx Hy Hw Hh Hxw Hyh Hsw Hsh.
  unfold _get_sprite_frame. rewrite Htex.
  destruct (_ || _) eqn:Eg; [lia|]. clear Eg.
  unfold Image.try_crop, Image.new.
  replace (TPAGEntry.src_x tpe + TPAGEntry.src_w tpe - TPAGEntry.src_x tpe)
    with (TPAGEntry.src_w tpe) by lia.
  replace (TPAGEntry.src_y tpe + TPAGEntry.src_h tpe - TPAGEntry.src_y tpe)
    with (TPAGEntry.src_h tpe) by lia.
  assert ((sprite_w >? 0) && (sprite_h >? 0) = true) as Es by lia.
  assert ((sprite_w <? 0) || (sprite_h <? 0) = false) as En by lia.
  split.
  - intros Hbw Hbh Hac Has. rewrite Hac. cbn [mbind result_bind].
    rewrite Es, En.
    assert ((2 ^ 31 <=? sprite_w) || (2 ^ 31 <=? sprite_h) = false) as -> by lia.
    rewrite Has. cbn [mbind result_bind].
    eexists. split; [reflexivity|]. split; [done|]. split; [done|].
    intros x y Hxr Hyr. unfold Image.paste. cbn [Image.width Image.height Image.tabulate].
    rewrite getpixel_tabulate by done.
    set (crop := Image.crop tex _).
    destruct (in_block _ _ _ _ x y) eqn:Eb; unfold in_block in Eb.
    + assert (0 <= x - TPAGEntry.tgt_x tpe < TPAGEntry.src_w tpe) as Hbx by lia.
      assert (0 <= y - TPAGEntry.tgt_y tpe < TPAGEntry.src_h tpe) as Hby by lia.
      assert (Image.getpixel crop (x - TPAGEntry.tgt_x tpe) (y - TPAGEntry.tgt_y tpe)
              = Some (default (0, 0, 0, 0)
                        (Image.getpixel tex
                           (TPAGEntry.src_x tpe + (x - TPAGEntry.tgt_x tpe))
                           (TPAGEntry.src_y tpe + (y - TPAGEntry.tgt_y tpe))))) as Hc.
      { unfold crop, Image.crop. rewrite getpixel_tabulate by lia. done. }
      rewrite Hc. split; [done|]. intros Hwf.
      destruct (Hwf (TPAGEntry.src_x tpe + (x - TPAGEntry.tgt_x tpe))
                    (TPAGEntry.src_y tpe + (y - TPAGEntry.tgt_y tpe))) as [p Hp]; [lia..|].
      by rewrite Hp.
    + assert (Image.getpixel crop (x - TPAGEntry.tgt_x tpe) (y - TPAGEntry.tgt_y tpe) = None)
        as Hc.
      { unfold crop, Image.crop. apply getpixel_tabulate_outside. lia. }
      rewrite Hc. by rewrite getpixel_tabulate by done.
  - intros Hfail.
    destruct (can_allocate (TPAGEntry.src_w tpe) (TPAGEntry.src_h tpe)) eqn:Hac;
      cbn [mbind result_bind]; [|done].
    rewrite Es, En.
    destruct ((2 ^ 31 <=? sprite_w) || (2 ^ 31 <=? sprite_h)) eqn:Eo;
      cbn [mbind result_bind]; [done|].
    destruct (can_allocate sprite_w sprite_h) eqn:Has; cbn [mbind result_bind]; [|done].
    destruct Hfail as [H|[H|[H|H]]]; [lia|lia|done|done].
Qed.

Lemma get_sprite_frame_reconstructs_witness :
  (exists full,
     _get_sprite_frame (fun _ _ => true) sample_renderer sample_region 20 20 = Some full
     /\ Image.width full = 20 /\ Image.height full = 20)
  /\ _get_sprite_frame (fun w h => w * h <=? 100) sample_renderer sample_region 20 20
     = None.
Proof.
  split.
  - destruct (get_sprite_frame_reconstructs (fun _ _ => true)
                sample_renderer sample_region 20 20 sample_page)
      as [Hgood _]; [reflexivity | cbn; lia ..|].
    destruct Hgood as (full & Hf & Hw & Hh & _); [lia | lia | reflexivity | reflexivity |].
    exists full. by repeat split.
  - destruct (get_sprite_frame_reconstructs (fun w h => w * h <=? 100)
                sample_renderer sample_region 20 20 sample_page)
      as [_ Hbad]; [reflexivity | cbn; lia ..|].
    apply Hbad. right. right. right. reflexivity.
Defined.

(** C8 as stated fails: a valid region and a positive declared size do not
    suffice.  The declared width is an unchecked 32-bit field, and for
    [2^32 - 1] the canvas cannot be made, whatever memory there is: the
    result is [None]. *)
Lemma get_sprite_frame_huge_canvas :
  RoomRenderer.textures sample_renderer !! TPAGEntry.tex_id sample_region
  = Some sample_page
  /\ 0 <= TPAGEntry.src_x sample_region /\ 0 <= TPAGEntry.src_y sample_region
  /\ 0 < TPAGEntry.src_w sample_region /\ 0 < TPAGEntry.src_h sample_region
  /\ TPAGEntry.src_x sample_region + TPAGEntry.src_w sample_region
     <= Image.width sample_page
  /\ TPAGEntry.src_y sample_region + TPAGEntry.src_h sample_region
     <= Image.height sample_page
  /\ 0 < 2 ^ 32 - 1 /\ 0 < 1
  /\ _get_sprite_frame (fun _ _ => true) sample_renderer sample_region (2 ^ 32 - 1) 1
     = None.
Proof. repeat split; try reflexivity; cbn; lia. Qed.

(** The spec's example: a 10x10 region with target offset (5,3) on a 20x20
    sprite is transparent everywhere except the 10x10 block at (5,3), which
    holds the page's pixels from (2,4) on. *)
Example sprite_frame_10x10_at_5_3 :
  match _get_sprite_frame (fun _ _ => true) sample_renderer sample_region 20 20 with
  | Some full =>
      all_pixels 20 20 full (fun x y p =>
        if in_block 5 3 10 10 x y
        then rgba_eqb p (2 + (x - 5), 4 + (y - 3), 7, 255)
        else rgba_eqb p TRANSPARENT)
  | None => false
  end = true.
Proof. vm_compute. reflexivity. Qed.

(** ** Pointer-table loops *)

Ltac inv_res H :=
  repeat match type of H with
         | mbind _ _ = Ok _ =>
             let x := fresh "x" in let E := fresh "E" in
             apply bind_Ok in H as (x & E & H)
         | fmap _ _ = Ok _ =>
             let x := fresh "x" in let E := fresh "E" in
             apply fmap_Ok in H as (x & E & H)
         | (if ?c then _ else _) = Ok _ => destruct c eqn:?
         | (let '(_, _) := ?p in _) = Ok _ => destruct p
         | Raise _ = Ok _ => discriminate H
         end.

Lemma for_in_range_frame {S A : Type} (F : S -> A) (body : Z -> S -> result S)
    (count : Z) (s s' : S) :
  (forall i s s', body i s = Ok s' -> F s' = F s) ->
  for_in_range count body s = Ok s' -> F s' = F s.
Proof.
  intros Hb Hrun.
  apply (for_range_ind (fun _ t => F t = F s) body) with (i := 0) in Hrun; [done| |done].
  intros i t t' Ht Hbt. rewrite <- Ht. eauto.
Qed.

Lemma seqZ_succ i n : seqZ i (Z.of_nat (Datatypes.S n)) = i :: seqZ (i + 1) (Z.of_nat n).
Proof.
  rewrite seqZ_cons by lia. f_equal. f_equal; lia.
Qed.

Section PointerTable.
Context {R : Type}.
Variables (L : GameExtractor.t -> list R) (idx : R -> Z).
Variables (entry : Z -> result Z) (skip : Z -> bool).
Variable record : Z -> Z -> result R.
Variable body : Z -> GameExtractor.t -> result GameExtractor.t.

Hypothesis body_spec : forall i s s', body i s = Ok s' ->
  exists ptr, entry i = Ok ptr
    /\ ((skip ptr = true /\ s' = s)
        \/ (skip ptr = false
            /\ exists r, record i ptr = Ok r /\ L s' = L s ++ [r])).
Hypothesis record_idx : forall i ptr r, record i ptr = Ok r -> idx r = i.

(** What a completed loop appended: one record per kept entry, in table
    order, each carrying the position of its entry as index. *)
Lemma table_loop n : forall i s s',
  for_range n i body s = Ok s' ->
  exists recs,
    L s' = L s ++ recs
    /\ idx <$> recs = filter (fun j => kept entry skip j = true) (seqZ i (Z.of_nat n))
    /\ Forall (decoded_at idx entry skip record) recs.
Proof.
  induction n as [|n IH]; intros i s s' Hrun.
  - injection Hrun as <-. exists []. by rewrite app_nil_r.
  - cbn [for_range] in Hrun. apply bind_Ok in Hrun as (s1 & Hb & Hrun).
    destruct (IH _ _ _ Hrun) as (recs & HL & Hidx & Hdec).
    destruct (body_spec _ _ _ Hb) as (ptr & He & [[Hs ->]|(Hs & r & Hr & HL1)]).
    + exists recs. split; [done|]. split; [|done].
      rewrite seqZ_succ, filter_cons_False; [done|].
      unfold kept. rewrite He, Hs. discriminate.
    + exists (r :: recs). split; [by rewrite HL, HL1, <- app_assoc|]. split.
      * rewrite seqZ_succ, filter_cons_True by (unfold kept; by rewrite He, Hs).
        rewrite fmap_cons, Hidx. f_equal. eauto.
      * constructor; [|done]. exists ptr.
        rewrite (record_idx _ _ _ Hr). by repeat split.
Qed.

(** Records decoded = entries read - entries skipped. *)
Lemma table_loop_count count s s' :
  0 <= count ->
  for_in_range count body s = Ok s' ->
  exists recs,
    L s' = L s ++ recs
    /\ (length recs + skipped entry skip count = Z.to_nat count)%nat.
Proof.
  intros Hc Hrun. unfold for_in_range in Hrun.
  destruct (table_loop _ _ _ _ Hrun) as (recs & HL & Hidx & _).
  exists recs. split; [done|].
  rewrite Z2Nat.id in Hidx by done.
  assert (length recs = length (filter (fun j => kept entry skip j = true) (seqZ 0 count)))
    as -> by (rewrite <- Hidx; by rewrite length_fmap).
  unfold skipped. rewrite <- (length_seqZ 0 count).
  generalize (seqZ 0 count). intros l.
  induction l as [|x l IHl]; [done|].
  rewrite !filter_cons. destruct (kept entry skip x) eqn:E; simpl.
  - destruct (decide (true = true)); [|done].
    destruct (decide (true = false)); [done|]. simpl. lia.
  - destruct (decide (false = true)); [done|].
    destruct (decide (false = false)); [|done]. simpl. lia.
Qed.
End PointerTable.

(** The dict filled alongside a list with distinct indices finds exactly
    the records of the list, each under its own index. *)
Lemma index_map_lookup {R : Type} (idx : R -> Z) (l : list R) :
  NoDup (idx <$> l) ->
  (forall r, r ∈ l -> index_map idx l !! idx r = Some r)
  /\ (forall k r, index_map idx l !! k = Some r -> idx r = k /\ r ∈ l).
Proof.
  unfold index_map. induction l as [|x l IH] using rev_ind; intros Hnd.
  - split; [intros r Hr; by apply elem_of_nil in Hr|].
    intros k r Hk. simpl in Hk. by rewrite lookup_empty in Hk.
  - rewrite fmap_app in Hnd. apply NoDup_app in Hnd as (Hl & Hdisj & _).
    destruct (IH Hl) as [IHa IHb]. rewrite foldl_snoc. split.
    + intros r Hr. apply elem_of_app in Hr as [Hr|Hr].
      * rewrite lookup_insert_ne; [by apply IHa|].
        intros Heq. apply (Hdisj (idx r)); [by apply list_elem_of_fmap_2|].
        rewrite <- Heq. simpl. apply list_elem_of_here.
      * apply list_elem_of_singleton in Hr as ->. by rewrite lookup_insert_eq.
    + intros k r Hk. destruct (decide (idx x = k)) as [<-|Hne].
      * rewrite lookup_insert_eq in Hk. injection Hk as <-.
        split; [done|]. apply elem_of_app. right. apply list_elem_of_here.
      * rewrite lookup_insert_ne in Hk by done.
        destruct (IHb _ _ Hk). split; [done|]. apply elem_of_app. by left.
Qed.

Lemma NoDup_filter_seqZ (P : Z -> Prop) `{forall x, Decision (P x)} i n :
  NoDup (filter P (seqZ i n)).
Proof. apply NoDup_filter, NoDup_seqZ. Qed.

Section TableLength.
Variables (N : GameExtractor.t -> nat).
Variables (entry : Z -> result Z) (skip : Z -> bool).
Variable body : Z -> GameExtractor.t -> result GameExtractor.t.

Hypothesis body_step : forall i s s', body i s = Ok s' ->
  exists ptr, entry i = Ok ptr
    /\ ((skip ptr = true /\ s' = s)
        \/ (skip ptr = false /\ N s' = Datatypes.S (N s))).

Lemma table_length n : forall i s s',
  for_range n i body s = Ok s' ->
  (N s' + length (filter (fun j => kept entry skip j = false) (seqZ i (Z.of_nat n)))
   = N s + n)%nat.
Proof.
  induction n as [|n IH]; intros i s s' Hrun.
  - injection Hrun as <-. simpl. lia.
  - cbn [for_range] in Hrun. apply bind_Ok in Hrun as (s1 & Hb & Hrun).
    specialize (IH _ _ _ Hrun). rewrite seqZ_succ.
    destruct (body_step _ _ _ Hb) as (ptr & He & [[Hs ->]|[Hs HN]]).
    + rewrite filter_cons_True by (unfold kept; by rewrite He, Hs).
      cbn [length]. lia.
    + rewrite filter_cons_False by (unfold kept; rewrite He, Hs; discriminate).
      lia.
Qed.
End TableLength.

(** ** Skipped pointers *)

Lemma skips_true dw K ptr :
  ptr = 0 \/ DataWin.size dw <= ptr + K -> skips dw K ptr = true.
Proof. unfold skips. lia. Qed.

Ltac unfold_bodies H :=
  unfold _sprites_body, _sounds_body, _audio_body, _objects_body, _rooms_body,
    _backgrounds_body, _fonts_body, _paths_body, _scripts_body, _shaders_body,
    _extensions_body, _timelines_body in H.

Lemma body_of_skip dw k off i ptr self :
  table_entry dw off i = Ok ptr ->
  skips dw (guard_of k) ptr = true ->
  body_of dw k off i self = Ok self.
Proof.
  unfold table_entry. intros He Hs.
  destruct k; cbn [body_of guard_of] in *;
    unfold _sprites_body, _sounds_body, _audio_body, _objects_body, _rooms_body,
      _backgrounds_body, _fonts_body, _paths_body, _scripts_body, _shaders_body,
      _extensions_body, _timelines_body;
    rewrite He; cbn [mbind result_bind]; by rewrite Hs.
Qed.

Lemma body_of_step dw k off i s s' :
  k ≠ audio_blob ->
  body_of dw k off i s = Ok s' ->
  exists ptr, table_entry dw off i = Ok ptr
    /\ ((skips dw (guard_of k) ptr = true /\ s' = s)
        \/ (skips dw (guard_of k) ptr = false
            /\ decoded k s' = Datatypes.S (decoded k s))).
Proof.
  intros Hk H. unfold table_entry.
  destruct k; try done; cbn [body_of guard_of decoded] in *; unfold_bodies H;
    apply bind_Ok in H as (ptr & He & H); exists ptr; (split; [exact He|]);
    (match type of H with
     | (if ?c then _ else _) = _ => destruct c eqn:Es
     end;
     [ left; by injection H as <-
     | right; split; [done|]; apply bind_Ok in H as (r & Hr & H);
       injection H as <-; cbn; rewrite length_app; simpl; lia ]).
Qed.

Lemma decoder_of_unfold dw k self :
  decoder_of dw k self =
  match DataWin.chunks dw !! tag_of k with
  | None => Ok self
  | Some c =>
      count ← u32 (DataWin.data dw) (Chunk.data_start c);
      for_in_range count (body_of dw k (Chunk.data_start c)) self
  end.
Proof. by destruct k. Qed.

(** C2, as the code has it.  In every pointer-table decoder an entry that
    is zero, or at which fewer than the kind's guard constant of bytes are
    left before the end of the buffer (in particular one whose record would
    extend past the end), is skipped: the iteration leaves the extractor as
    it was and the loop goes on with the next entry.  No tally of skips is
    kept.  For the decoders that fill a list, the records added and the
    entries skipped add up to the declared count, so a chunk with count 3
    and one skipped pointer yields exactly 2 records.  The texture decoder
    does not skip: for an unusable entry it appends an empty placeholder. *)
Theorem pointer_table_skips (dw : DataWin.t) (k : kind) :
  (forall off i ptr self,
      table_entry dw off i = Ok ptr ->
      ptr = 0 \/ DataWin.size dw <= ptr + guard_of k ->
      body_of dw k off i self = Ok self
      /\ forall n, for_range (Datatypes.S n) i (body_of dw k off) self
                   = for_range n (i + 1) (body_of dw k off) self)
  /\ (forall c count self self',
        k ≠ audio_blob ->
        DataWin.chunks dw !! tag_of k = Some c ->
        u32 (DataWin.data dw) (Chunk.data_start c) = Ok count ->
        decoder_of dw k self = Ok self' ->
        (decoded k self'
         + skipped (table_entry dw (Chunk.data_start c)) (skips dw (guard_of k)) count
         = decoded k self + Z.to_nat count)%nat
        /\ (count = 3 ->
            skipped (table_entry dw (Chunk.data_start c)) (skips dw (guard_of k)) count
              = 1%nat ->
            decoded k self' = (decoded k self + 2)%nat))
  /\ (forall off i entry self,
        table_entry dw off i = Ok entry ->
        usable dw 8 entry = false ->
        _textures_body dw off i self = Ok (set_textures (textures self ++ [[]]) self)).
Proof.
  split; [|split].
  - intros off i ptr self He Hg.
    assert (body_of dw k off i self = Ok self) as Hb
      by (eapply body_of_skip; [exact He | by apply skips_true]).
    split; [exact Hb|]. intros n. cbn [for_range]. by rewrite Hb.
  - intros c count self self' Hk Hc Hcount Hrun.
    rewrite decoder_of_unfold, Hc, Hcount in Hrun. cbn [mbind result_bind] in Hrun.
    pose proof (u32_range _ _ _ Hcount) as Hr.
    unfold for_in_range in Hrun.
    pose proof (table_length (decoded k) (table_entry dw (Chunk.data_start c))
                  (skips dw (guard_of k)) (body_of dw k (Chunk.data_start c))
                  (fun i s s' => body_of_step dw k (Chunk.data_start c) i s s' Hk)
                  _ _ _ _ Hrun) as Hlen.
    rewrite Z2Nat.id in Hlen by lia. fold (skipped (table_entry dw (Chunk.data_start c))
      (skips dw (guard_of k)) count) in Hlen.
    split; [exact Hlen|]. intros -> Hs. rewrite Hs in Hlen.
    change (Z.to_nat 3) with 3%nat in Hlen. lia.
  - intros off i entry self He Hu. unfold _textures_body.
    unfold table_entry in He. rewrite He. cbn [mbind result_bind]. by rewrite Hu.
Qed.

(** The spec's example on an OBJT chunk with the pointer table
    [32; 0; 64]: two records, with indices 0 and 2. *)
Example objects_count_3_one_zero :
  match load objt_archive_3 with
  | Ok ext => GameObject.index <$> objects ext
  | Raise _ => []
  end = [0; 2]
  /\ objt_skipped objt_archive_3 = 1%nat.
Proof. split; vm_compute; reflexivity. Qed.

Lemma pointer_table_skips_witness :
  exists dw ext,
    _parse objt_archive_3 = Ok dw
    /\ _objects dw (GameExtractor.init dw) = Ok ext
    /\ length (objects ext) = 2%nat.
Proof.
  destruct (_parse objt_archive_3) as [dw|] eqn:Hp; [|vm_compute in Hp; discriminate].
  destruct (_objects dw (GameExtractor.init dw)) as [ext|] eqn:Hx.
  2:{ exfalso. revert Hx. vm_compute in Hp. injection Hp as <-. vm_compute. discriminate. }
  exists dw, ext. split; [done|]. split; [done|].
  destruct (pointer_table_skips dw object) as (_ & Hcount & _).
  assert (DataWin.chunks dw !! ChunkID.OBJT
          = Some (Chunk.mk (text "OBJT") 8 81 16)) as Hc.
  { vm_compute in Hp. injection Hp as <-. vm_compute. reflexivity. }
  assert (u32 (DataWin.data dw) 16 = Ok 3) as H3.
  { vm_compute in Hp. injection Hp as <-. vm_compute. reflexivity. }
  destruct (Hcount _ 3 _ _ ltac:(discriminate) Hc H3 Hx) as [_ H2].
  apply H2; [reflexivity|].
  vm_compute in Hp. injection Hp as <-. vm_compute. reflexivity.
Defined.

(** C2 as stated fails: no skip tally exists.  Two archives, one whose
    object table is [\[24\]] and one whose table is [\[28; 0\]], decode to
    the same catalog, yet the second skipped a pointer and the first did
    not; so nothing the extractor holds after decoding counts the skips. *)
Lemma no_skip_tally :
  (exists a b,
      load objt_archive_1 = Ok a /\ load objt_archive_1_and_zero = Ok b
      /\ catalog a = catalog b)
  /\ objt_skipped objt_archive_1 = 0%nat
  /\ objt_skipped objt_archive_1_and_zero = 1%nat
  /\ ~ (exists tally : _ -> nat,
          forall file ext, load file = Ok ext ->
                           tally (catalog ext) = objt_skipped file).
Proof.
  assert (exists a b,
      load objt_archive_1 = Ok a /\ load objt_archive_1_and_zero = Ok b
      /\ catalog a = catalog b) as Hab.
  { destruct (load objt_archive_1) as [a|] eqn:Ha; [|vm_compute in Ha; discriminate].
    destruct (load objt_archive_1_and_zero) as [b|] eqn:Hb;
      [|vm_compute in Hb; discriminate].
    exists a, b. split; [done|]. split; [done|].
    vm_compute in Ha. injection Ha as <-.
    vm_compute in Hb. injection Hb as <-.
    vm_compute. reflexivity. }
  assert (objt_skipped objt_archive_1 = 0%nat) as H0 by (vm_compute; reflexivity).
  assert (objt_skipped objt_archive_1_and_zero = 1%nat) as H1 by (vm_compute; reflexivity).
  split; [exact Hab|]. split; [exact H0|]. split; [exact H1|].
  intros (tally & Ht). destruct Hab as (a & b & Ha & Hb & Hab).
  pose proof (Ht _ _ Ha) as Ta. pose proof (Ht _ _ Hb) as Tb.
  rewrite Hab, Tb, H1, H0 in Ta. discriminate.
Qed.

(** ** Frame conditions of the extraction steps *)

Ltac inv_ok H :=
  inv_res H;
  try match type of H with
      | Ok _ = Ok _ => injection H as <-
      end.

Ltac unfold_all_bodies H :=
  unfold _sprites_body, _sounds_body, _audio_body, _objects_body, _rooms_body,
    _backgrounds_body, _fonts_body, _paths_body, _scripts_body, _shaders_body,
    _extensions_body, _timelines_body, _textures_body, _strings_body in H.

Ltac unfold_all_steps H :=
  unfold _sprites, _sounds, _audio, _objects, _rooms, _backgrounds, _fonts,
    _paths, _scripts, _shaders, _extensions, _timelines, _textures, _strings,
    _gen8 in H.

(** Proves [keeps F step] when no assignment of the step touches [F]:
    [keeps_tac F] reduces a pointer-table step to its loop body. *)
Ltac keeps_tac F :=
  let s := fresh "s" in let s' := fresh "s'" in let H := fresh "H" in
  intros s s' H; unfold_all_steps H;
  match type of H with
  | match ?c with _ => _ end = _ => destruct c
  end;
  [| by injection H as <-];
  first
    [ (* [_gen8] *)
      progress (inv_ok H); reflexivity
    | (* a pointer-table loop *)
      let count := fresh "count" in let Hc := fresh "Hc" in
      apply bind_Ok in H as (count & Hc & H);
      apply (for_in_range_frame F) in H; [exact H|] ].

Ltac keeps_body :=
  let i := fresh "i" in let s := fresh "s" in let s' := fresh "s'" in
  let H := fresh "H" in
  intros i s s' H; unfold_all_bodies H; inv_ok H; reflexivity.

Lemma run_steps_keeps {A : Type} (F : GameExtractor.t -> A) l :
  Forall (keeps F) l -> keeps F (run_steps l).
Proof.
  induction 1 as [|fn l Hfn Hl IH]; intros s s' Hrun; simpl in Hrun.
  - by injection Hrun as <-.
  - apply bind_Ok in Hrun as (s1 & H1 & Hrun).
    rewrite (IH _ _ Hrun). by apply Hfn.
Qed.

Lemma keeps_sprite_part dw fn :
  fn ∈ [_gen8 dw; _strings dw; _sounds dw; _audio dw; _objects dw; _rooms dw;
        _backgrounds dw; _textures dw; _fonts dw; _paths dw; _scripts dw;
        _shaders dw; _extensions dw; _timelines dw] ->
  keeps sprite_part fn.
Proof.
  intros Hin. repeat (apply elem_of_cons in Hin as [->|Hin]);
    [..| by apply elem_of_nil in Hin];
    keeps_tac sprite_part; try keeps_body.
Qed.

Lemma keeps_object_part dw fn :
  fn ∈ [_gen8 dw; _strings dw; _sprites dw; _sounds dw; _audio dw; _rooms dw;
        _backgrounds dw; _textures dw; _fonts dw; _paths dw; _scripts dw;
        _shaders dw; _extensions dw; _timelines dw] ->
  keeps object_part fn.
Proof.
  intros Hin. repeat (apply elem_of_cons in Hin as [->|Hin]);
    [..| by apply elem_of_nil in Hin];
    keeps_tac object_part; try keeps_body.
Qed.

Lemma keeps_backgrounds dw fn :
  fn ∈ [_gen8 dw; _strings dw; _sprites dw; _sounds dw; _audio dw; _objects dw;
        _rooms dw; _textures dw; _fonts dw; _paths dw; _scripts dw;
        _shaders dw; _extensions dw; _timelines dw] ->
  keeps backgrounds fn.
Proof.
  intros Hin. repeat (apply elem_of_cons in Hin as [->|Hin]);
    [..| by apply elem_of_nil in Hin];
    keeps_tac backgrounds; try keeps_body.
Qed.

Lemma keeps_dw dw fn : fn ∈ steps dw -> keeps GameExtractor.dw fn.
Proof.
  unfold steps. intros Hin. repeat (apply elem_of_cons in Hin as [->|Hin]);
    [..| by apply elem_of_nil in Hin];
    keeps_tac GameExtractor.dw; try keeps_body.
Qed.

Lemma keeps_all {A : Type} (F : GameExtractor.t -> A) l :
  (forall fn, fn ∈ l -> keeps F fn) -> Forall (keeps F) l.
Proof. intros H. apply Forall_forall. exact H. Qed.

(** [load] taken apart at the three steps that fill the lookup maps and
    the background list. *)
Lemma load_stages file ext :
  load file = Ok ext ->
  exists dw s2 s3 s5 s6 s7 s8,
    _parse file = Ok dw
    /\ run_steps [_gen8 dw; _strings dw] (GameExtractor.init dw) = Ok s2
    /\ _sprites dw s2 = Ok s3
    /\ run_steps [_sounds dw; _audio dw] s3 = Ok s5
    /\ _objects dw s5 = Ok s6
    /\ _rooms dw s6 = Ok s7
    /\ _backgrounds dw s7 = Ok s8
    /\ run_steps [_textures dw; _fonts dw; _paths dw; _scripts dw; _shaders dw;
                  _extensions dw; _timelines dw] s8 = Ok ext.
Proof.
  unfold load, extract_all, steps. intros H.
  apply bind_Ok in H as (dw & Hp & H). cbn [run_steps] in H.
  apply bind_Ok in H as (s1 & H1 & H). apply bind_Ok in H as (s2 & H2 & H).
  apply bind_Ok in H as (s3 & H3 & H). apply bind_Ok in H as (s4 & H4 & H).
  apply bind_Ok in H as (s5 & H5 & H). apply bind_Ok in H as (s6 & H6 & H).
  apply bind_Ok in H as (s7 & H7 & H). apply bind_Ok in H as (s8 & H8 & H).
  exists dw, s2, s3, s5, s6, s7, s8. cbn [run_steps].
  rewrite H1. cbn [mbind result_bind]. rewrite H2. cbn [mbind result_bind].
  rewrite H4. cbn [mbind result_bind]. rewrite H5. cbn [mbind result_bind].
  repeat (split; [done|]). exact H.
Qed.

(** ** The lists and lookup maps after decoding *)

Section TableMap.
Context {R : Type}.
Variables (L : GameExtractor.t -> list R) (M : GameExtractor.t -> gmap Z R).
Variable idx : R -> Z.
Variable body : Z -> GameExtractor.t -> result GameExtractor.t.

Hypothesis body_map : forall i s s', body i s = Ok s' ->
  s' = s \/ exists r, L s' = L s ++ [r] /\ M s' = <[idx r := r]> (M s).

(** The dict receives the records the list receives, in the same order. *)
Lemma table_map n : forall i s s',
  for_range n i body s = Ok s' ->
  exists recs,
    L s' = L s ++ recs
    /\ M s' = foldl (fun m r => <[idx r := r]> m) (M s) recs.
Proof.
  induction n as [|n IH]; intros i s s' Hrun.
  - injection Hrun as <-. exists []. by rewrite app_nil_r.
  - cbn [for_range] in Hrun. apply bind_Ok in Hrun as (s1 & Hb & Hrun).
    destruct (IH _ _ _ Hrun) as (recs & HL & HM).
    destruct (body_map _ _ _ Hb) as [->|(r & HL1 & HM1)].
    + by exists recs.
    + exists (r :: recs). rewrite HL, HM, HL1, HM1, <- app_assoc. done.
Qed.
End TableMap.

Lemma _sprites_record_index dw i ptr r :
  _sprites_record dw i ptr = Ok r -> Sprite.index r = i.
Proof. unfold _sprites_record. intros H. inv_ok H. reflexivity. Qed.

Lemma _objects_record_index dw i ptr r :
  _objects_record dw i ptr = Ok r -> GameObject.index r = i.
Proof. unfold _objects_record. intros H. inv_ok H. reflexivity. Qed.

Lemma _backgrounds_record_index dw i ptr r :
  _backgrounds_record dw i ptr = Ok r -> Background.index r = i.
Proof. unfold _backgrounds_record. intros H. inv_ok H. reflexivity. Qed.

Lemma _sprites_body_spec dw off i s s' :
  _sprites_body dw off i s = Ok s' ->
  exists ptr, table_entry dw off i = Ok ptr
    /\ ((skips dw 64 ptr = true /\ s' = s)
        \/ (skips dw 64 ptr = false
            /\ exists r, _sprites_record dw i ptr = Ok r
                 /\ sprites s' = sprites s ++ [r]
                 /\ sprite_map s' = <[i := r]> (sprite_map s))).
Proof.
  unfold _sprites_body, table_entry. intros H.
  apply bind_Ok in H as (ptr & He & H). exists ptr. split; [exact He|].
  destruct (skips dw 64 ptr); [left; by injection H as <-|right].
  split; [done|]. apply bind_Ok in H as (r & Hr & H). injection H as <-. eauto.
Qed.

Lemma _objects_body_spec dw off i s s' :
  _objects_body dw off i s = Ok s' ->
  exists ptr, table_entry dw off i = Ok ptr
    /\ ((skips dw 32 ptr = true /\ s' = s)
        \/ (skips dw 32 ptr = false
            /\ exists r, _objects_record dw i ptr = Ok r
                 /\ objects s' = objects s ++ [r]
                 /\ object_map s' = <[i := r]> (object_map s))).
Proof.
  unfold _objects_body, table_entry. intros H.
  apply bind_Ok in H as (ptr & He & H). exists ptr. split; [exact He|].
  destruct (skips dw 32 ptr); [left; by injection H as <-|right].
  split; [done|]. apply bind_Ok in H as (r & Hr & H). injection H as <-. eauto.
Qed.

Lemma _backgrounds_body_spec dw off i s s' :
  _backgrounds_body dw off i s = Ok s' ->
  exists ptr, table_entry dw off i = Ok ptr
    /\ ((skips dw 20 ptr = true /\ s' = s)
        \/ (skips dw 20 ptr = false
            /\ exists r, _backgrounds_record dw i ptr = Ok r
                 /\ backgrounds s' = backgrounds s ++ [r])).
Proof.
  unfold _backgrounds_body, table_entry. intros H.
  apply bind_Ok in H as (ptr & He & H). exists ptr. split; [exact He|].
  destruct (skips dw 20 ptr); [left; by injection H as <-|right].
  split; [done|]. apply bind_Ok in H as (r & Hr & H). injection H as <-. eauto.
Qed.

(** What [_sprites] leaves when it starts from the empty list and dict. *)
Lemma _sprites_result dw s s' :
  sprites s = [] -> sprite_map s = ∅ ->
  _sprites dw s = Ok s' ->
  NoDup (Sprite.index <$> sprites s')
  /\ sprite_map s' = index_map Sprite.index (sprites s')
  /\ (sprites s' = []
      \/ exists c, DataWin.chunks dw !! ChunkID.SPRT = Some c
           /\ Forall (decoded_at Sprite.index (table_entry dw (Chunk.data_start c))
                        (skips dw 64) (_sprites_record dw)) (sprites s')).
Proof.
  intros HL HM. unfold _sprites.
  destruct (DataWin.chunks dw !! ChunkID.SPRT) as [c|] eqn:Hc.
  2:{ intros [= <-]. rewrite HL, HM. split; [constructor|]. split; [done|]. by left. }
  intros H. apply bind_Ok in H as (count & Hcount & H). unfold for_in_range in H.
  destruct (table_loop sprites Sprite.index (table_entry dw (Chunk.data_start c))
              (skips dw 64) (_sprites_record dw) (_sprites_body dw (Chunk.data_start c)))
    with (n := Z.to_nat count) (i := 0) (s := s) (s' := s')
    as (recs & HL' & Hidx & Hdec); [| |exact H|].
  { intros i t t' Hb. destruct (_sprites_body_spec _ _ _ _ _ Hb)
      as (ptr & He & [Hskip|(Hs & r & Hr & HLr & _)]); exists ptr;
      (split; [exact He|]); [by left | right].
    split; [exact Hs|]. exists r. by split. }
  { apply _sprites_record_index. }
  destruct (table_map sprites sprite_map Sprite.index (_sprites_body dw (Chunk.data_start c)))
    with (n := Z.to_nat count) (i := 0) (s := s) (s' := s')
    as (recs' & HL'' & HM'); [|exact H|].
  { intros i t t' Hb. destruct (_sprites_body_spec _ _ _ _ _ Hb)
      as (ptr & He & [[_ ->]|(Hs & r & Hr & HLr & HMr)]); [by left|right].
      exists r. by rewrite (_sprites_record_index _ _ _ _ Hr). }
  rewrite HL in HL', HL''. cbn [app] in HL', HL''. rewrite HL'' in HL'. subst recs'.
  rewrite HM in HM'. rewrite HL''.
  split; [rewrite Hidx; apply NoDup_filter_seqZ|].
  split; [exact HM'|]. right. eauto.
Qed.

Lemma _objects_result dw s s' :
  objects s = [] -> object_map s = ∅ ->
  _objects dw s = Ok s' ->
  NoDup (GameObject.index <$> objects s')
  /\ object_map s' = index_map GameObject.index (objects s')
  /\ (objects s' = []
      \/ exists c, DataWin.chunks dw !! ChunkID.OBJT = Some c
           /\ Forall (decoded_at GameObject.index (table_entry dw (Chunk.data_start c))
                        (skips dw 32) (_objects_record dw)) (objects s')).
Proof.
  intros HL HM. unfold _objects.
  destruct (DataWin.chunks dw !! ChunkID.OBJT) as [c|] eqn:Hc.
  2:{ intros [= <-]. rewrite HL, HM. split; [constructor|]. split; [done|]. by left. }
  intros H. apply bind_Ok in H as (count & Hcount & H). unfold for_in_range in H.
  destruct (table_loop objects GameObject.index (table_entry dw (Chunk.data_start c))
              (skips dw 32) (_objects_record dw) (_objects_body dw (Chunk.data_start c)))
    with (n := Z.to_nat count) (i := 0) (s := s) (s' := s')
    as (recs & HL' & Hidx & Hdec); [| |exact H|].
  { intros i t t' Hb. destruct (_objects_body_spec _ _ _ _ _ Hb)
      as (ptr & He & [Hskip|(Hs & r & Hr & HLr & _)]); exists ptr;
      (split; [exact He|]); [by left | right].
    split; [exact Hs|]. exists r. by split. }
  { apply _objects_record_index. }
  destruct (table_map objects object_map GameObject.index
              (_objects_body dw (Chunk.data_start c)))
    with (n := Z.to_nat count) (i := 0) (s := s) (s' := s')
    as (recs' & HL'' & HM'); [|exact H|].
  { intros i t t' Hb. destruct (_objects_body_spec _ _ _ _ _ Hb)
      as (ptr & He & [[_ ->]|(Hs & r & Hr & HLr & HMr)]); [by left|right].
      exists r. by rewrite (_objects_record_index _ _ _ _ Hr). }
  rewrite HL in HL', HL''. cbn [app] in HL', HL''. rewrite HL'' in HL'. subst recs'.
  rewrite HM in HM'. rewrite HL''.
  split; [rewrite Hidx; apply NoDup_filter_seqZ|].
  split; [exact HM'|]. right. eauto.
Qed.

Lemma load_dw file ext dw :
  _parse file = Ok dw -> load file = Ok ext -> GameExtractor.dw ext = dw.
Proof.
  unfold load. intros Hp H. rewrite Hp in H. cbn [mbind result_bind] in H.
  apply (run_steps_keeps GameExtractor.dw (steps dw)) in H; [done|].
  apply keeps_all, keeps_dw.
Qed.

(** [run_steps] over some of the steps that keep [F]. *)
Ltac keeps_run lem dw H :=
  eapply run_steps_keeps; [|exact H];
  apply Forall_forall;
  let fn := fresh "fn" in let Hin := fresh "Hin" in
  intros fn Hin; apply (lem dw); set_solver.

Ltac keeps_one lem dw H :=
  eapply (lem dw); [|exact H]; set_solver.

Lemma load_sprites file ext :
  load file = Ok ext ->
  exists dw s2 s3,
    _parse file = Ok dw /\ sprites s2 = [] /\ sprite_map s2 = ∅
    /\ _sprites dw s2 = Ok s3
    /\ sprites ext = sprites s3 /\ sprite_map ext = sprite_map s3.
Proof.
  intros H. destruct (load_stages _ _ H)
    as (dw & s2 & s3 & s5 & s6 & s7 & s8 & Hp & H2 & H3 & H5 & H6 & H7 & H8 & Hx).
  exists dw, s2, s3. split; [done|].
  assert (sprite_part s2 = sprite_part (GameExtractor.init dw)) as E2
    by keeps_run keeps_sprite_part dw H2.
  assert (sprite_part s5 = sprite_part s3) as E5 by keeps_run keeps_sprite_part dw H5.
  assert (sprite_part s6 = sprite_part s5) as E6 by keeps_one keeps_sprite_part dw H6.
  assert (sprite_part s7 = sprite_part s6) as E7 by keeps_one keeps_sprite_part dw H7.
  assert (sprite_part s8 = sprite_part s7) as E8 by keeps_one keeps_sprite_part dw H8.
  assert (sprite_part ext = sprite_part s8) as Ex by keeps_run keeps_sprite_part dw Hx.
  rewrite E8, E7, E6, E5 in Ex.
  unfold sprite_part in E2, Ex. injection E2 as -> ->. injection Ex as -> ->.
  by repeat split.
Qed.

Lemma load_objects file ext :
  load file = Ok ext ->
  exists dw s5 s6,
    _parse file = Ok dw /\ objects s5 = [] /\ object_map s5 = ∅
    /\ _objects dw s5 = Ok s6
    /\ objects ext = objects s6 /\ object_map ext = object_map s6.
Proof.
  intros H. destruct (load_stages _ _ H)
    as (dw & s2 & s3 & s5 & s6 & s7 & s8 & Hp & H2 & H3 & H5 & H6 & H7 & H8 & Hx).
  exists dw, s5, s6. split; [done|].
  assert (object_part s2 = object_part (GameExtractor.init dw)) as E2
    by keeps_run keeps_object_part dw H2.
  assert (object_part s3 = object_part s2) as E3 by keeps_one keeps_object_part dw H3.
  assert (object_part s5 = object_part s3) as E5 by keeps_run keeps_object_part dw H5.
  assert (object_part s7 = object_part s6) as E7 by keeps_one keeps_object_part dw H7.
  assert (object_part s8 = object_part s7) as E8 by keeps_one keeps_object_part dw H8.
  assert (object_part ext = object_part s8) as Ex by keeps_run keeps_object_part dw Hx.
  rewrite E3, E2 in E5. rewrite E8, E7 in Ex.
  unfold object_part in E5, Ex. injection E5 as -> ->. injection Ex as -> ->.
  by repeat split.
Qed.

Lemma load_backgrounds file ext :
  load file = Ok ext ->
  exists dw s7 s8,
    _parse file = Ok dw /\ backgrounds s7 = []
    /\ _backgrounds dw s7 = Ok s8
    /\ backgrounds ext = backgrounds s8.
Proof.
  intros H. destruct (load_stages _ _ H)
    as (dw & s2 & s3 & s5 & s6 & s7 & s8 & Hp & H2 & H3 & H5 & H6 & H7 & H8 & Hx).
  exists dw, s7, s8. split; [done|].
  assert (backgrounds s2 = backgrounds (GameExtractor.init dw)) as E2
    by keeps_run keeps_backgrounds dw H2.
  assert (backgrounds s3 = backgrounds s2) as E3 by keeps_one keeps_backgrounds dw H3.
  assert (backgrounds s5 = backgrounds s3) as E5 by keeps_run keeps_backgrounds dw H5.
  assert (backgrounds s6 = backgrounds s5) as E6 by keeps_one keeps_backgrounds dw H6.
  assert (backgrounds s7 = backgrounds s6) as E7 by keeps_one keeps_backgrounds dw H7.
  assert (backgrounds ext = backgrounds s8) as Ex by keeps_run keeps_backgrounds dw Hx.
  rewrite E6, E5, E3, E2 in E7. by repeat split.
Qed.

(** C10.  After [load] the lookup maps agree with the decoded lists: every
    sprite of the list is found in [sprite_map] under its own index, every
    entry of [sprite_map] is a sprite of the list stored under its index,
    likewise for objects and [object_map]; and the index of each record is
    the position of the pointer-table entry it was decoded from. *)
Theorem catalog_maps_consistent (file : list byte) (ext : GameExtractor.t) :
  load file = Ok ext ->
  (forall s, s ∈ sprites ext -> sprite_map ext !! Sprite.index s = Some s)
  /\ (forall k s, sprite_map ext !! k = Some s -> Sprite.index s = k /\ s ∈ sprites ext)
  /\ (forall o, o ∈ objects ext -> object_map ext !! GameObject.index o = Some o)
  /\ (forall k o, object_map ext !! k = Some o ->
        GameObject.index o = k /\ o ∈ objects ext)
  /\ (forall s, s ∈ sprites ext ->
        exists c, DataWin.chunks (GameExtractor.dw ext) !! ChunkID.SPRT = Some c
          /\ decoded_at Sprite.index
               (table_entry (GameExtractor.dw ext) (Chunk.data_start c))
               (skips (GameExtractor.dw ext) 64)
               (_sprites_record (GameExtractor.dw ext)) s)
  /\ (forall o, o ∈ objects ext ->
        exists c, DataWin.chunks (GameExtractor.dw ext) !! ChunkID.OBJT = Some c
          /\ decoded_at GameObject.index
               (table_entry (GameExtractor.dw ext) (Chunk.data_start c))
               (skips (GameExtractor.dw ext) 32)
               (_objects_record (GameExtractor.dw ext)) o).
Proof.
  intros H.
  destruct (load_sprites _ _ H) as (dw & s2 & s3 & Hp & HL & HM & Hs & EL & EM).
  destruct (load_objects _ _ H) as (dw' & s5 & s6 & Hp' & HL' & HM' & Ho & EL' & EM').
  rewrite Hp in Hp'. injection Hp' as <-.
  rewrite (load_dw _ _ _ Hp H).
  destruct (_sprites_result _ _ _ HL HM Hs) as (Hnd & Hmap & Hdec).
  destruct (_objects_result _ _ _ HL' HM' Ho) as (Hnd' & Hmap' & Hdec').
  rewrite EL, EM, EL', EM', Hmap, Hmap'.
  destruct (index_map_lookup Sprite.index (sprites s3) Hnd) as [Ha Hb].
  destruct (index_map_lookup GameObject.index (objects s6) Hnd') as [Ha' Hb'].
  repeat split; try (by eauto); try (by eapply Hb); try (by eapply Hb').
  - intros s Hin. destruct Hdec as [He|(c & Hc & Hall)].
    + rewrite He in Hin. by apply elem_of_nil in Hin.
    + exists c. split; [done|]. rewrite Forall_forall in Hall. by apply Hall.
  - intros o Hin. destruct Hdec' as [He|(c & Hc & Hall)].
    + rewrite He in Hin. by apply elem_of_nil in Hin.
    + exists c. split; [done|]. rewrite Forall_forall in Hall. by apply Hall.
Qed.

Lemma catalog_maps_consistent_witness :
  exists ext, load objt_archive_3 = Ok ext
    /\ forall o, o ∈ objects ext -> object_map ext !! GameObject.index o = Some o.
Proof.
  destruct (load objt_archive_3) as [ext|] eqn:Hl; [|vm_compute in Hl; discriminate].
  exists ext. split; [done|].
  destruct (catalog_maps_consistent objt_archive_3 ext Hl) as (_ & _ & Ho & _).
  exact Ho.
Defined.

(** ** The tileset cache *)

Lemma read_tpage_nonneg d tp tpe :
  read_tpage d tp = Ok tpe ->
  0 <= TPAGEntry.src_x tpe /\ 0 <= TPAGEntry.src_y tpe
  /\ 0 <= TPAGEntry.src_w tpe /\ 0 <= TPAGEntry.src_h tpe.
Proof.
  unfold read_tpage. intros H. inv_ok H. cbn.
  repeat match goal with
         | E : u16 _ _ = Ok _ |- _ => apply u16_range in E
         end.
  lia.
Qed.

Lemma _backgrounds_record_tpage dw i ptr bg tpe :
  _backgrounds_record dw i ptr = Ok bg ->
  Background.tpage bg = Some tpe ->
  0 <= TPAGEntry.src_x tpe /\ 0 <= TPAGEntry.src_y tpe
  /\ 0 <= TPAGEntry.src_w tpe /\ 0 <= TPAGEntry.src_h tpe.
Proof.
  unfold _backgrounds_record. intros H Ht.
  apply bind_Ok in H as (name_ptr & _ & H). apply bind_Ok in H as (tp_ptr & _ & H).
  apply bind_Ok in H as (tpage & Htp & H). injection H as <-. cbn in Ht. subst tpage.
  unfold tpage_at in Htp. destruct (usable dw 22 tp_ptr); [|discriminate].
  apply fmap_Ok in Htp as (t & Hr & [= ->]). by apply read_tpage_nonneg in Hr.
Qed.

(** What [_backgrounds] leaves when it starts from the empty list. *)
Lemma _backgrounds_result dw s s' :
  backgrounds s = [] ->
  _backgrounds dw s = Ok s' ->
  NoDup (Background.index <$> backgrounds s')
  /\ Forall (fun bg => forall tpe, Background.tpage bg = Some tpe ->
               0 <= TPAGEntry.src_x tpe /\ 0 <= TPAGEntry.src_y tpe
               /\ 0 <= TPAGEntry.src_w tpe /\ 0 <= TPAGEntry.src_h tpe)
       (backgrounds s').
Proof.
  intros HL. unfold _backgrounds.
  destruct (DataWin.chunks dw !! ChunkID.BGND) as [c|] eqn:Hc.
  2:{ intros [= <-]. rewrite HL. split; constructor. }
  intros H. apply bind_Ok in H as (count & Hcount & H). unfold for_in_range in H.
  destruct (table_loop backgrounds Background.index
              (table_entry dw (Chunk.data_start c))
              (skips dw 20) (_backgrounds_record dw)
              (_backgrounds_body dw (Chunk.data_start c)))
    with (n := Z.to_nat count) (i := 0) (s := s) (s' := s')
    as (recs & HL' & Hidx & Hdec); [| |exact H|].
  { intros i t t' Hb. destruct (_backgrounds_body_spec _ _ _ _ _ Hb)
      as (ptr & He & [Hskip|(Hs & r & Hr & HLr)]); exists ptr;
      (split; [exact He|]); [by left | right].
    split; [exact Hs|]. exists r. by split. }
  { apply _backgrounds_record_index. }
  rewrite HL in HL'. cbn [app] in HL'. rewrite HL'.
  split; [rewrite Hidx; apply NoDup_filter_seqZ|].
  eapply Forall_impl; [exact Hdec|]. intros bg (ptr & _ & _ & Hr) tpe Ht.
  eapply _backgrounds_record_tpage; eauto.
Qed.

Lemma _build_tileset_cache_step_alt textures cache bg :
  _build_tileset_cache_step textures cache bg =
  match tileset_of textures bg with
  | Some img => <[Background.index bg := img]> cache
  | None => cache
  end.
Proof.
  unfold _build_tileset_cache_step, tileset_of.
  destruct (Background.tpage bg) as [tpe|]; [|done]. cbn.
  destruct (textures !! TPAGEntry.tex_id tpe) as [tex|]; [|done]. cbn.
  by destruct (_ && _).
Qed.

(** With distinct indices the cache holds, for each background of the
    list, exactly what its own iteration stored. *)
Lemma fold_tileset_cache_lookup textures l : forall cache,
  NoDup (Background.index <$> l) ->
  (forall bg, bg ∈ l ->
     fold_left (_build_tileset_cache_step textures) l cache !! Background.index bg
     = match tileset_of textures bg with
       | Some img => Some img
       | None => cache !! Background.index bg
       end)
  /\ (forall k, k ∉ Background.index <$> l ->
        fold_left (_build_tileset_cache_step textures) l cache !! k = cache !! k).
Proof.
  induction l as [|b l IH]; intros cache Hnd.
  - split; [intros bg Hin; by apply elem_of_nil in Hin | done].
  - rewrite fmap_cons in Hnd. apply NoDup_cons in Hnd as [Hb Hnd].
    cbn [fold_left]. destruct (IH (_build_tileset_cache_step textures cache b) Hnd)
      as [IHa IHb].
    assert (forall k, k ≠ Background.index b ->
              _build_tileset_cache_step textures cache b !! k = cache !! k) as Hother.
    { intros k Hk. rewrite _build_tileset_cache_step_alt.
      destruct (tileset_of textures b); [by rewrite lookup_insert_ne|done]. }
    split.
    + intros bg Hin. apply elem_of_cons in Hin as [->|Hin].
      * rewrite IHb by done. rewrite _build_tileset_cache_step_alt.
        destruct (tileset_of textures b); [by rewrite lookup_insert_eq|done].
      * rewrite IHa by done. destruct (tileset_of textures bg); [done|].
        apply Hother. intros Heq. apply Hb. rewrite <- Heq.
        by apply list_elem_of_fmap_2.
    + intros k Hk. rewrite fmap_cons in Hk. apply not_elem_of_cons in Hk as [Hk1 Hk2].
      rewrite IHb by done. by apply Hother.
Qed.

(** X1.  For a background of a loaded archive whose region names an
    existing texture page: if the crop rectangle does not lie fully within
    the page, [get_tileset] of its index is absent; if it does, [get_tileset]
    is the crop of exactly that rectangle. *)
Theorem get_tileset_within_page_or_absent
    (file : list byte) (ext : GameExtractor.t) (textures : gmap Z Image.t)
    (bg : Background.t) (tpe : TPAGEntry.t) (tex : Image.t) :
  load file = Ok ext ->
  bg ∈ backgrounds ext ->
  Background.tpage bg = Some tpe ->
  textures !! TPAGEntry.tex_id tpe = Some tex ->
  (~ within_page tpe tex ->
     get_tileset (RoomRenderer_init ext textures) (Background.index bg) = None)
  /\ (within_page tpe tex ->
        get_tileset (RoomRenderer_init ext textures) (Background.index bg)
        = Some (Image.crop tex (TPAGEntry.src_x tpe, TPAGEntry.src_y tpe,
                                TPAGEntry.src_x tpe + TPAGEntry.src_w tpe,
                                TPAGEntry.src_y tpe + TPAGEntry.src_h tpe))).
Proof.
  intros Hl Hin Ht Htex.
  destruct (load_backgrounds _ _ Hl) as (dw & s7 & s8 & _ & H7 & H8 & Hx).
  destruct (_backgrounds_result _ _ _ H7 H8) as [Hnd Hpos].
  rewrite <- Hx in Hnd, Hpos.
  rewrite Forall_forall in Hpos. destruct (Hpos _ Hin _ Ht) as (Hx0 & Hy0 & _).
  unfold get_tileset, RoomRenderer_init, _build_tileset_cache.
  cbn [RoomRenderer._tileset_cache].
  destruct (fold_tileset_cache_lookup textures (backgrounds ext) ∅ Hnd) as [Hlook _].
  rewrite (Hlook _ Hin). unfold tileset_of. rewrite Ht. cbn. rewrite Htex. cbn.
  unfold within_page.
  destruct (_ && _) eqn:E; split; intros Hw; try done; lia.
Qed.

Lemma get_tileset_within_page_or_absent_witness :
  exists ext bg,
    load bgnd_archive = Ok ext /\ bg ∈ backgrounds ext
    /\ get_tileset (RoomRenderer_init ext {[ 0 := small_page ]}) (Background.index bg)
       = None.
Proof.
  destruct (load bgnd_archive) as [ext|] eqn:Hl; [|vm_compute in Hl; discriminate].
  assert (backgrounds ext = [Background.mk 0 (text "bg_0") (Some sample_region)]) as Hb.
  { vm_compute in Hl. injection Hl as <-. reflexivity. }
  exists ext, (Background.mk 0 (text "bg_0") (Some sample_region)).
  split; [done|]. split; [rewrite Hb; apply list_elem_of_here|].
  apply (get_tileset_within_page_or_absent bgnd_archive ext {[ 0 := small_page ]}
           (Background.mk 0 (text "bg_0") (Some sample_region)) sample_region small_page).
  - exact Hl.
  - rewrite Hb. apply list_elem_of_here.
  - reflexivity.
  - reflexivity.
  - unfold within_page. cbn. lia.
Defined.

(** The two cases on the sample background: a 16x16 page holds the region,
    an 8x8 page does not. *)
Example tileset_of_sample_background :
  match load bgnd_archive with
  | Ok ext =>
      (get_tileset (RoomRenderer_init ext {[ 0 := sample_page ]}) 0,
       get_tileset (RoomRenderer_init ext {[ 0 := small_page ]}) 0)
  | Raise _ => (None, None)
  end = (Some (Image.crop sample_page (2, 4, 12, 14)), None).
Proof. vm_compute. reflexivity. Qed.

(** C7.  The tileset lookup for the index of a background of a loaded
    archive.  When the background has a region and the region names an
    existing texture page: if the crop rectangle does not lie fully within
    the page the lookup is absent, and if it does the lookup is the crop of
    exactly that rectangle, an image of the region's width and height whose
    pixels are the page's pixels from the region's source corner on, neither
    clamped nor shifted.  Without a region, or without its page, the lookup
    is absent as well. *)
Theorem tileset_absent_or_exact_crop
    (file : list byte) (ext : GameExtractor.t) (textures : gmap Z Image.t)
    (bg : Background.t) :
  load file = Ok ext ->
  bg ∈ backgrounds ext ->
  match Background.tpage bg with
  | Some tpe =>
      match textures !! TPAGEntry.tex_id tpe with
      | Some tex =>
          (~ within_page tpe tex ->
             get_tileset (RoomRenderer_init ext textures) (Background.index bg) = None)
          /\ (within_page tpe tex ->
              exists img,
                get_tileset (RoomRenderer_init ext textures) (Background.index bg)
                = Some img
                /\ img = Image.crop tex (TPAGEntry.src_x tpe, TPAGEntry.src_y tpe,
                                         TPAGEntry.src_x tpe + TPAGEntry.src_w tpe,
                                         TPAGEntry.src_y tpe + TPAGEntry.src_h tpe)
                /\ Image.width img = TPAGEntry.src_w tpe
                /\ Image.height img = TPAGEntry.src_h tpe
                /\ (Image.wf tex ->
                    forall x y, 0 <= x < TPAGEntry.src_w tpe ->
                                0 <= y < TPAGEntry.src_h tpe ->
                      Image.getpixel img x y
                      = Image.getpixel tex (TPAGEntry.src_x tpe + x)
                                           (TPAGEntry.src_y tpe + y)))
      | None =>
          get_tileset (RoomRenderer_init ext textures) (Background.index bg) = None
      end
  | None => get_tileset (RoomRenderer_init ext textures) (Background.index bg) = None
  end.
Proof.
  intros Hl Hin.
  destruct (load_backgrounds _ _ Hl) as (dw & s7 & s8 & _ & H7 & H8 & Hx).
  destruct (_backgrounds_result _ _ _ H7 H8) as [Hnd Hpos].
  rewrite <- Hx in Hnd, Hpos. rewrite Forall_forall in Hpos.
  unfold get_tileset, RoomRenderer_init, _build_tileset_cache.
  cbn [RoomRenderer._tileset_cache].
  destruct (fold_tileset_cache_lookup textures (backgrounds ext) ∅ Hnd) as [Hlook _].
  rewrite (Hlook _ Hin). unfold tileset_of.
  destruct (Background.tpage bg) as [tpe|] eqn:Ht; cbn; [|done].
  destruct (Hpos _ Hin _ Ht) as (Hx0 & Hy0 & _).
  destruct (textures !! TPAGEntry.tex_id tpe) as [tex|] eqn:Htex; cbn; [|done].
  unfold within_page.
  destruct (_ && _) eqn:E; split; intros Hw; try done; try lia.
  eexists. split; [reflexivity|]. split; [reflexivity|].
  split; [cbn; lia|]. split; [cbn; lia|].
  intros Hwf x y Hxr Hyr. apply getpixel_crop; try done; lia.
Qed.

Lemma tileset_absent_or_exact_crop_witness :
  exists ext bg img,
    load bgnd_archive = Ok ext /\ bg ∈ backgrounds ext
    /\ get_tileset (RoomRenderer_init ext {[ 0 := sample_page ]}) (Background.index bg)
       = Some img
    /\ Image.width img = 10 /\ Image.height img = 10.
Proof.
  destruct (load bgnd_archive) as [ext|] eqn:Hl; [|vm_compute in Hl; discriminate].
  assert (backgrounds ext = [Background.mk 0 (text "bg_0") (Some sample_region)]) as Hb.
  { vm_compute in Hl. injection Hl as <-. reflexivity. }
  assert (Background.mk 0 (text "bg_0") (Some sample_region) ∈ backgrounds ext) as Hin
    by (rewrite Hb; apply list_elem_of_here).
  pose proof (tileset_absent_or_exact_crop bgnd_archive ext {[ 0 := sample_page ]}
                _ Hl Hin) as H.
  cbn [Background.tpage] in H.
  change ({[ 0 := sample_page ]} !! TPAGEntry.tex_id sample_region)
    with (Some sample_page : option Image.t) in H.
  destruct H as [_ H].
  destruct H as (img & Hg & _ & Hw & Hh & _).
  { unfold within_page. cbn. lia. }
  exists ext, (Background.mk 0 (text "bg_0") (Some sample_region)), img.
  split; [done|]. split; [exact Hin|]. split; [exact Hg|]. split; [exact Hw|exact Hh].
Defined.

(** ** One step of [extract_all] in isolation *)

Lemma run_steps_app l1 l2 s s' :
  run_steps (l1 ++ l2) s = Ok s' ->
  exists s1, run_steps l1 s = Ok s1 /\ run_steps l2 s1 = Ok s'.
Proof.
  revert s. induction l1 as [|fn l1 IH]; intros s H; cbn [app run_steps] in *.
  - eauto.
  - apply bind_Ok in H as (t & Hfn & H). destruct (IH _ H) as (s1 & H1 & H2).
    exists s1. by rewrite Hfn.
Qed.

(** If every step but the [n]-th keeps [F], then [F] of the loaded catalog
    is what the [n]-th step computed from the initial [F]. *)
Lemma load_step {A : Type} (F : GameExtractor.t -> A) (n : nat)
    (fn : DataWin.t -> GameExtractor.t -> result GameExtractor.t) file ext :
  load file = Ok ext ->
  (forall dw, steps dw !! n = Some (fn dw)) ->
  (forall dw m g, steps dw !! m = Some g -> m ≠ n -> keeps F g) ->
  exists dw s s',
    _parse file = Ok dw /\ GameExtractor.dw ext = dw
    /\ F s = F (GameExtractor.init dw)
    /\ fn dw s = Ok s' /\ F ext = F s'.
Proof.
  intros H Hn Hk. pose proof H as H0. unfold load in H.
  apply bind_Ok in H as (dw & Hp & H). unfold extract_all in H.
  rewrite <- (take_drop n (steps dw)) in H.
  rewrite (drop_S _ _ _ (Hn dw)) in H.
  apply run_steps_app in H as (s & H1 & H). cbn [run_steps] in H.
  apply bind_Ok in H as (s' & Hfn & H2).
  exists dw, s, s'. split; [done|]. split; [by eapply load_dw|].
  split; [|split; [done|]].
  - eapply run_steps_keeps; [|exact H1]. apply Forall_forall. intros g Hg.
    apply list_elem_of_lookup in Hg as (m & Hm).
    pose proof (lookup_lt_Some _ _ _ Hm) as Hlt. rewrite length_take in Hlt.
    rewrite lookup_take_lt in Hm by lia. eapply Hk; [exact Hm|lia].
  - eapply run_steps_keeps; [|exact H2]. apply Forall_forall. intros g Hg.
    apply list_elem_of_lookup in Hg as (m & Hm).
    rewrite lookup_drop in Hm. eapply Hk; [exact Hm|lia].
Qed.

(** Proves that all steps but one keep a field. *)
Ltac keeps_others F :=
  let dw := fresh "dw" in let m := fresh "m" in let g := fresh "g" in
  let Hm := fresh "Hm" in let Hne := fresh "Hne" in
  intros dw m g Hm Hne; unfold steps in Hm;
  do 15 (destruct m as [|m];
         [ try (exfalso; by apply Hne);
           injection Hm as <-; keeps_tac F; try keeps_body |]);
  discriminate Hm.

Lemma keeps_rooms dw m g : steps dw !! m = Some g -> m ≠ 6%nat -> keeps rooms g.
Proof. revert dw m g. keeps_others rooms. Qed.

Lemma keeps_textures dw m g : steps dw !! m = Some g -> m ≠ 8%nat -> keeps textures g.
Proof. revert dw m g. keeps_others textures. Qed.

Lemma keeps_fonts dw m g : steps dw !! m = Some g -> m ≠ 9%nat -> keeps fonts g.
Proof. revert dw m g. keeps_others fonts. Qed.

Lemma keeps_paths dw m g : steps dw !! m = Some g -> m ≠ 10%nat -> keeps paths g.
Proof. revert dw m g. keeps_others paths. Qed.

Lemma keeps_audio dw m g : steps dw !! m = Some g -> m ≠ 4%nat -> keeps audio g.
Proof. revert dw m g. keeps_others audio. Qed.

Lemma keeps_sprites_list dw m g :
  steps dw !! m = Some g -> m ≠ 2%nat -> keeps sprites g.
Proof. revert dw m g. keeps_others sprites. Qed.

Lemma load_demo : load demo_archive = Ok demo_ext.
Proof. vm_compute. reflexivity. Qed.

Lemma parse_demo : _parse demo_archive = Ok demo_dw.
Proof. vm_compute. reflexivity. Qed.

(** ** Variable-length sub-lists *)

(** A loop whose body appends at most one element, each satisfying [Q],
    yields at most as many elements as it has iterations. *)
Lemma append_loop {A : Type} (Q : A -> Prop) (body : Z -> list A -> result (list A)) :
  (forall j l l', body j l = Ok l' -> l' = l \/ exists x, l' = l ++ [x] /\ Q x) ->
  forall count l',
    for_in_range count body [] = Ok l' ->
    (length l' <= Z.to_nat count)%nat /\ Forall Q l'.
Proof.
  intros Hb count l' Hrun. unfold for_in_range in Hrun.
  apply (for_range_ind
           (fun i l => (Z.of_nat (length l) <= i) /\ Forall Q l) body) with (i := 0)
    in Hrun.
  - destruct Hrun as [Hlen HQ]. split; [lia|done].
  - intros i l l1 [Hlen HQ] Hstep.
    destruct (Hb _ _ _ Hstep) as [->|(x & -> & Hx)]; [split; [lia|done]|].
    rewrite length_app. cbn [length]. split; [lia|].
    apply Forall_app. split; [done|]. by constructor.
  - split; [simpl; lia | constructor].
Qed.

Lemma _sprites_frame_step dw ptr j l l' :
  _sprites_frame dw ptr j l = Ok l' ->
  l' = l \/ exists t, l' = l ++ [t]
    /\ 0 < TPAGEntry.src_w t < 2 ^ 16 /\ 0 < TPAGEntry.src_h t < 2 ^ 16.
Proof.
  unfold _sprites_frame. intros H.
  apply bind_Ok in H as (tp & _ & H).
  destruct (usable dw 22 tp); [|left; by injection H as <-].
  apply bind_Ok in H as (t & Ht & H).
  destruct (_ && _) eqn:E; [|left; by injection H as <-].
  injection H as <-. right. exists t. split; [done|].
  unfold read_tpage in Ht. inv_ok Ht. cbn in *.
  repeat match goal with
         | E : u16 _ _ = Ok _ |- _ => apply u16_range in E
         end.
  lia.
Qed.

Lemma _sprites_record_frames dw i ptr s :
  _sprites_record dw i ptr = Ok s ->
  (length (Sprite.frames s) < 5000)%nat
  /\ Forall (fun t => 0 < TPAGEntry.src_w t < 2 ^ 16 /\ 0 < TPAGEntry.src_h t < 2 ^ 16)
       (Sprite.frames s).
Proof.
  unfold _sprites_record. intros H.
  apply bind_Ok in H as (name_ptr & _ & H). apply bind_Ok in H as (w & _ & H).
  apply bind_Ok in H as (h & _ & H). apply bind_Ok in H as (ox & _ & H).
  apply bind_Ok in H as (oy & _ & H). apply bind_Ok in H as (fc & Hfc & H).
  apply bind_Ok in H as (frames & Hfr & H). injection H as <-. cbn [Sprite.frames].
  unfold _sprites_frames in Hfr. destruct (fc <? 5000) eqn:E.
  - apply (append_loop _ _ (_sprites_frame_step dw ptr)) in Hfr as [Hlen HQ].
    apply u32_range in Hfc. split; [lia|done].
  - injection Hfr as <-. split; [simpl; lia | constructor].
Qed.

(** The records of a list filled by a pointer-table step, after [load]. *)
Lemma load_sprites_decoded file ext s :
  load file = Ok ext -> s ∈ sprites ext ->
  exists i ptr, _sprites_record (GameExtractor.dw ext) i ptr = Ok s.
Proof.
  intros H Hin.
  destruct (load_sprites _ _ H) as (dw & s2 & s3 & Hp & HL & HM & Hs & EL & EM).
  rewrite (load_dw _ _ _ Hp H).
  destruct (_sprites_result _ _ _ HL HM Hs) as (_ & _ & [He|(c & _ & Hall)]).
  - rewrite EL, He in Hin. by apply elem_of_nil in Hin.
  - rewrite Forall_forall in Hall. rewrite EL in Hin.
    destruct (Hall _ Hin) as (ptr & _ & _ & Hr). eauto.
Qed.

(** The table entry and the record behind a sprite of a loaded archive. *)
Lemma load_sprites_table file ext s :
  load file = Ok ext -> s ∈ sprites ext ->
  exists c,
    DataWin.chunks (GameExtractor.dw ext) !! ChunkID.SPRT = Some c
    /\ decoded_at Sprite.index
         (table_entry (GameExtractor.dw ext) (Chunk.data_start c))
         (skips (GameExtractor.dw ext) 64)
         (_sprites_record (GameExtractor.dw ext)) s.
Proof.
  intros H Hin.
  destruct (load_sprites _ _ H) as (dw & s2 & s3 & Hp & HL & HM & Hs & EL & EM).
  rewrite (load_dw _ _ _ Hp H).
  destruct (_sprites_result _ _ _ HL HM Hs) as (_ & _ & [He|(c & Hc & Hall)]).
  - rewrite EL, He in Hin. by apply elem_of_nil in Hin.
  - rewrite Forall_forall in Hall. rewrite EL in Hin.
    exists c. split; [exact Hc|]. by apply Hall.
Qed.

(** The frame list of a record against the frame count its record declares. *)
Lemma _sprites_record_declared dw i ptr s :
  _sprites_record dw i ptr = Ok s ->
  exists fc, u32 (DataWin.data dw) (ptr + 0x38) = Ok fc
    /\ Z.of_nat (length (Sprite.frames s)) <= fc
    /\ (5000 <= fc -> Sprite.frames s = []).
Proof.
  unfold _sprites_record. intros H.
  apply bind_Ok in H as (name_ptr & _ & H). apply bind_Ok in H as (w & _ & H).
  apply bind_Ok in H as (h & _ & H). apply bind_Ok in H as (ox & _ & H).
  apply bind_Ok in H as (oy & _ & H). apply bind_Ok in H as (fc & Hfc & H).
  apply bind_Ok in H as (frames & Hfr & H). injection H as <-. cbn [Sprite.frames].
  exists fc. split; [exact Hfc|].
  unfold _sprites_frames in Hfr. destruct (fc <? 5000) eqn:E.
  - apply (append_loop _ _ (_sprites_frame_step dw ptr)) in Hfr as [Hlen _].
    apply u32_range in Hfc. split; [lia|]. intros Hbig. lia.
  - injection Hfr as <-. apply u32_range in Hfc. split; [simpl; lia|done].
Qed.

(** X2.  Every sprite of a loaded archive has fewer than 5000 frames, and
    each of its frames has a source width and height between 1 and 65535:
    regions without area are not kept.  The sprite was decoded from the
    record its entry of the SPRT pointer table points to; the frame count
    [fc] that record declares at offset [0x38] bounds the number of frames
    kept, and a declared count of 5000 or more leaves the sprite without
    frames. *)
Theorem loaded_sprite_frames (file : list byte) (ext : GameExtractor.t) (s : Sprite.t) :
  load file = Ok ext ->
  s ∈ sprites ext ->
  (length (Sprite.frames s) < 5000)%nat
  /\ (forall t, t ∈ Sprite.frames s ->
        0 < TPAGEntry.src_w t < 2 ^ 16 /\ 0 < TPAGEntry.src_h t < 2 ^ 16)
  /\ exists c ptr fc,
       DataWin.chunks (GameExtractor.dw ext) !! ChunkID.SPRT = Some c
       /\ table_entry (GameExtractor.dw ext) (Chunk.data_start c) (Sprite.index s)
          = Ok ptr
       /\ u32 (DataWin.data (GameExtractor.dw ext)) (ptr + 0x38) = Ok fc
       /\ Z.of_nat (length (Sprite.frames s)) <= fc
       /\ (5000 <= fc -> Sprite.frames s = []).
Proof.
  intros H Hin.
  destruct (load_sprites_table _ _ _ H Hin) as (c & Hc & ptr & He & _ & Hr).
  destruct (_sprites_record_frames _ _ _ _ Hr) as [Hlen HQ].
  destruct (_sprites_record_declared _ _ _ _ Hr) as (fc & Hfc & Hle & Hbig).
  split; [done|]. split; [rewrite Forall_forall in HQ; exact HQ|].
  exists c, ptr, fc. done.
Qed.

Lemma loaded_sprite_frames_witness :
  exists s, s ∈ sprites demo_ext /\ (length (Sprite.frames s) < 5000)%nat.
Proof.
  assert (exists s, sprites demo_ext !! 0%nat = Some s) as [s Hs]
    by (vm_compute; eauto).
  exists s. assert (s ∈ sprites demo_ext) as Hin by (eapply list_elem_of_lookup_2; eauto).
  split; [done|].
  exact (proj1 (loaded_sprite_frames demo_archive demo_ext s load_demo Hin)).
Defined.

(** A declared frame count of 5000 or more discards the frame list. *)
Lemma _sprites_frames_discarded dw ptr fc :
  5000 <= fc -> _sprites_frames dw ptr fc = Ok [].
Proof. intros H. unfold _sprites_frames. destruct (fc <? 5000) eqn:E; [lia|done]. Qed.

(** A sprite that declares 5000 frames loads without frames, although no
    frame pointer follows its record; declaring 4999 makes the decoder read
    frame pointers past the end of the buffer. *)
Example sprite_declaring_5000_frames :
  (fun ext => Sprite.frames <$> sprites ext) <$> load (sprt_archive_declaring 5000)
  = Ok [[]]
  /\ load (sprt_archive_declaring 4999) = Raise StructError.
Proof. split; vm_compute; reflexivity. Qed.

Lemma _rooms_body_spec dw off i s s' :
  _rooms_body dw off i s = Ok s' ->
  exists ptr, table_entry dw off i = Ok ptr
    /\ ((skips dw 100 ptr = true /\ s' = s)
        \/ (skips dw 100 ptr = false
            /\ exists r, _rooms_record dw i ptr = Ok r
                 /\ rooms s' = rooms s ++ [r])).
Proof.
  unfold _rooms_body, table_entry. intros H.
  apply bind_Ok in H as (ptr & He & H). exists ptr. split; [exact He|].
  destruct (skips dw 100 ptr); [left; by injection H as <-|right].
  split; [done|]. apply bind_Ok in H as (r & Hr & H). injection H as <-. eauto.
Qed.

Lemma _rooms_record_index dw i ptr r :
  _rooms_record dw i ptr = Ok r -> Room.index r = i.
Proof. unfold _rooms_record. intros H. inv_ok H. reflexivity. Qed.

Lemma load_rooms_decoded file ext r :
  load file = Ok ext -> r ∈ rooms ext ->
  exists ptr, _rooms_record (GameExtractor.dw ext) (Room.index r) ptr = Ok r.
Proof.
  intros H Hin.
  destruct (load_step rooms 6 _rooms file ext H (fun _ => eq_refl) keeps_rooms)
    as (dw & s & s' & Hp & Hdw & Hs & Hfn & Hx).
  rewrite Hdw. rewrite Hx in Hin. cbn in Hs. unfold _rooms in Hfn.
  destruct (DataWin.chunks dw !! ChunkID.ROOM) as [c|].
  2:{ injection Hfn as <-. rewrite Hs in Hin. by apply elem_of_nil in Hin. }
  apply bind_Ok in Hfn as (count & _ & Hfn). unfold for_in_range in Hfn.
  destruct (table_loop rooms Room.index (table_entry dw (Chunk.data_start c))
              (skips dw 100) (_rooms_record dw) (_rooms_body dw (Chunk.data_start c))
              (_rooms_body_spec dw (Chunk.data_start c)) (_rooms_record_index dw)
              _ _ _ _ Hfn) as (recs & HL & _ & Hdec).
  rewrite Hs in HL. cbn [app] in HL. rewrite HL in Hin.
  rewrite Forall_forall in Hdec. destruct (Hdec _ Hin) as (ptr & _ & _ & Hr). eauto.
Qed.

Lemma _rooms_bg_step dw p j l l' :
  _rooms_bg dw p j l = Ok l' -> l' = l \/ exists x, l' = l ++ [x] /\ True.
Proof.
  unfold _rooms_bg. intros H. apply bind_Ok in H as (bp & _ & H).
  destruct (usable dw 32 bp); [|left; by injection H as <-].
  inv_ok H. right. eauto.
Qed.

Lemma _rooms_inst_step dw p j l l' :
  _rooms_inst dw p j l = Ok l' -> l' = l \/ exists x, l' = l ++ [x] /\ True.
Proof.
  unfold _rooms_inst. intros H. apply bind_Ok in H as (ip & _ & H).
  destruct (usable dw 16 ip); [|left; by injection H as <-].
  inv_ok H. right. eauto.
Qed.

Lemma _rooms_tile_step dw p j l l' :
  _rooms_tile dw p j l = Ok l' -> l' = l \/ exists x, l' = l ++ [x] /\ True.
Proof.
  unfold _rooms_tile. intros H. apply bind_Ok in H as (tp & _ & H).
  destruct (usable dw 48 tp); [|left; by injection H as <-].
  inv_ok H. right. eauto.
Qed.

Lemma _rooms_record_lengths dw i ptr r :
  _rooms_record dw i ptr = Ok r ->
  Z.of_nat (length (Room.bg_defs r)) <= 8
  /\ Z.of_nat (length (Room.instances r)) <= 10000
  /\ Z.of_nat (length (Room.tiles r)) <= 50000.
Proof.
  unfold _rooms_record. intros H.
  apply bind_Ok in H as (name_ptr & _ & H). apply bind_Ok in H as (w & _ & H).
  apply bind_Ok in H as (h & _ & H). apply bind_Ok in H as (sp & _ & H).
  apply bind_Ok in H as (col & _ & H). apply bind_Ok in H as (bgs & Hbg & H).
  apply bind_Ok in H as (insts & Hin & H). apply bind_Ok in H as (tls & Htl & H).
  injection H as <-. cbn [Room.bg_defs Room.instances Room.tiles].
  repeat split.
  - unfold _rooms_bg_defs in Hbg. apply bind_Ok in Hbg as (p & _ & Hbg).
    destruct (usable dw 4 p); [|injection Hbg as <-; simpl; lia].
    apply bind_Ok in Hbg as (n & _ & Hbg).
    apply (append_loop _ _ (_rooms_bg_step dw p)) in Hbg as [Hlen _]. lia.
  - unfold _rooms_instances in Hin. apply bind_Ok in Hin as (p & _ & Hin).
    destruct (usable dw 4 p); [|injection Hin as <-; simpl; lia].
    apply bind_Ok in Hin as (n & _ & Hin).
    apply (append_loop _ _ (_rooms_inst_step dw p)) in Hin as [Hlen _]. lia.
  - unfold _rooms_tiles in Htl. apply bind_Ok in Htl as (p & _ & Htl).
    destruct (usable dw 4 p); [|injection Htl as <-; simpl; lia].
    apply bind_Ok in Htl as (n & _ & Htl).
    apply (append_loop _ _ (_rooms_tile_step dw p)) in Htl as [Hlen _]. lia.
Qed.

(** X3.  Every room of a loaded archive has at most 8 background slots, at
    most 10000 instances and at most 50000 tiles, whatever counts the
    archive declares. *)
Theorem loaded_room_list_bounds (file : list byte) (ext : GameExtractor.t) (r : Room.t) :
  load file = Ok ext ->
  r ∈ rooms ext ->
  Z.of_nat (length (Room.bg_defs r)) <= 8
  /\ Z.of_nat (length (Room.instances r)) <= 10000
  /\ Z.of_nat (length (Room.tiles r)) <= 50000.
Proof.
  intros H Hin. destruct (load_rooms_decoded _ _ _ H Hin) as (ptr & Hr).
  by eapply _rooms_record_lengths.
Qed.

Lemma loaded_room_list_bounds_witness :
  exists r, r ∈ rooms demo_ext /\ Z.of_nat (length (Room.bg_defs r)) <= 8.
Proof.
  assert (exists r, rooms demo_ext !! 0%nat = Some r) as [r Hr]
    by (vm_compute; eauto).
  exists r. assert (r ∈ rooms demo_ext) as Hin by (eapply list_elem_of_lookup_2; eauto).
  split; [done|].
  exact (proj1 (loaded_room_list_bounds demo_archive demo_ext r load_demo Hin)).
Defined.

Lemma _fonts_body_spec dw off i s s' :
  _fonts_body dw off i s = Ok s' ->
  exists ptr, table_entry dw off i = Ok ptr
    /\ ((skips dw 48 ptr = true /\ s' = s)
        \/ (skips dw 48 ptr = false
            /\ exists r, _fonts_record dw i ptr = Ok r
                 /\ fonts s' = fonts s ++ [r])).
Proof.
  unfold _fonts_body, table_entry. intros H.
  apply bind_Ok in H as (ptr & He & H). exists ptr. split; [exact He|].
  destruct (skips dw 48 ptr); [left; by injection H as <-|right].
  split; [done|]. apply bind_Ok in H as (r & Hr & H). injection H as <-. eauto.
Qed.

Lemma _fonts_record_index dw i ptr r :
  _fonts_record dw i ptr = Ok r -> Font.index r = i.
Proof. unfold _fonts_record. intros H. inv_ok H; reflexivity. Qed.

Lemma _paths_body_spec dw off i s s' :
  _paths_body dw off i s = Ok s' ->
  exists ptr, table_entry dw off i = Ok ptr
    /\ ((skips dw 20 ptr = true /\ s' = s)
        \/ (skips dw 20 ptr = false
            /\ exists r, _paths_record dw i ptr = Ok r
                 /\ paths s' = paths s ++ [r])).
Proof.
  unfold _paths_body, table_entry. intros H.
  apply bind_Ok in H as (ptr & He & H). exists ptr. split; [exact He|].
  destruct (skips dw 20 ptr); [left; by injection H as <-|right].
  split; [done|]. apply bind_Ok in H as (r & Hr & H). injection H as <-. eauto.
Qed.

Lemma _paths_record_index dw i ptr r :
  _paths_record dw i ptr = Ok r -> Path.index r = i.
Proof. unfold _paths_record. intros H. inv_ok H; reflexivity. Qed.

Lemma load_fonts_decoded file ext r :
  load file = Ok ext -> r ∈ fonts ext ->
  exists ptr, _fonts_record (GameExtractor.dw ext) (Font.index r) ptr = Ok r.
Proof.
  intros H Hin.
  destruct (load_step fonts 9 _fonts file ext H (fun _ => eq_refl) keeps_fonts)
    as (dw & s & s' & Hp & Hdw & Hs & Hfn & Hx).
  rewrite Hdw. rewrite Hx in Hin. cbn in Hs. unfold _fonts in Hfn.
  destruct (DataWin.chunks dw !! ChunkID.FONT) as [c|].
  2:{ injection Hfn as <-. rewrite Hs in Hin. by apply elem_of_nil in Hin. }
  apply bind_Ok in Hfn as (count & _ & Hfn). unfold for_in_range in Hfn.
  destruct (table_loop fonts Font.index (table_entry dw (Chunk.data_start c))
              (skips dw 48) (_fonts_record dw) (_fonts_body dw (Chunk.data_start c))
              (_fonts_body_spec dw (Chunk.data_start c)) (_fonts_record_index dw)
              _ _ _ _ Hfn) as (recs & HL & _ & Hdec).
  rewrite Hs in HL. cbn [app] in HL. rewrite HL in Hin.
  rewrite Forall_forall in Hdec. destruct (Hdec _ Hin) as (ptr & _ & _ & Hr). eauto.
Qed.

Lemma load_paths_decoded file ext r :
  load file = Ok ext -> r ∈ paths ext ->
  exists ptr, _paths_record (GameExtractor.dw ext) (Path.index r) ptr = Ok r.
Proof.
  intros H Hin.
  destruct (load_step paths 10 _paths file ext H (fun _ => eq_refl) keeps_paths)
    as (dw & s & s' & Hp & Hdw & Hs & Hfn & Hx).
  rewrite Hdw. rewrite Hx in Hin. cbn in Hs. unfold _paths in Hfn.
  destruct (DataWin.chunks dw !! ChunkID.PATH) as [c|].
  2:{ injection Hfn as <-. rewrite Hs in Hin. by apply elem_of_nil in Hin. }
  apply bind_Ok in Hfn as (count & _ & Hfn). unfold for_in_range in Hfn.
  destruct (table_loop paths Path.index (table_entry dw (Chunk.data_start c))
              (skips dw 20) (_paths_record dw) (_paths_body dw (Chunk.data_start c))
              (_paths_body_spec dw (Chunk.data_start c)) (_paths_record_index dw)
              _ _ _ _ Hfn) as (recs & HL & _ & Hdec).
  rewrite Hs in HL. cbn [app] in HL. rewrite HL in Hin.
  rewrite Forall_forall in Hdec. destruct (Hdec _ Hin) as (ptr & _ & _ & Hr). eauto.
Qed.

Lemma _fonts_glyph_step dw p j l l' :
  _fonts_glyph dw p j l = Ok l' -> l' = l \/ exists x, l' = l ++ [x] /\ True.
Proof.
  unfold _fonts_glyph. intros H. apply bind_Ok in H as (gp & _ & H).
  destruct (usable dw 28 gp); [|left; by injection H as <-].
  inv_ok H. right. eauto.
Qed.

Lemma _fonts_glyphs_length dw ptr l :
  _fonts_glyphs dw ptr = Ok l -> Z.of_nat (length l) <= 1000.
Proof.
  unfold _fonts_glyphs. intros H. apply bind_Ok in H as (p & _ & H).
  destruct (usable dw 4 p); [|injection H as <-; simpl; lia].
  apply bind_Ok in H as (n & _ & H).
  apply (append_loop _ _ (_fonts_glyph_step dw p)) in H as [Hlen _]. lia.
Qed.

(** The point loop reads consecutive 12-byte points: the offset it carries
    is 20 + 12 * (points read so far) past the record. *)
Lemma _paths_points_length dw ptr l :
  _paths_points dw ptr = Ok l ->
  Z.of_nat (length l) <= 10000
  /\ ptr + 20 + 12 * Z.of_nat (length l) <= Z.max (ptr + 20) (DataWin.size dw).
Proof.
  unfold _paths_points. intros H. apply bind_Ok in H as (n & _ & H).
  apply fmap_Ok in H as ([pts off] & H & ->). cbn [fst]. unfold for_in_range in H.
  apply (for_range_ind
           (fun i (st : list PathPoint.t * Z) =>
              Z.of_nat (length (fst st)) <= i
              /\ snd st = ptr + 20 + 12 * Z.of_nat (length (fst st))
              /\ snd st <= Z.max (ptr + 20) (DataWin.size dw))
           (_paths_point dw)) with (i := 0) in H.
  - cbn [fst snd] in H. destruct H as (Hlen & Hoff & Hmax). split; [lia|]. lia.
  - intros i [l0 o0] [l1 o1] (Hlen & Hoff & Hmax) Hstep. cbn [fst snd] in *.
    unfold _paths_point in Hstep.
    destruct (o0 + 12 <=? DataWin.size dw) eqn:E.
    + inv_ok Hstep. rewrite length_app. cbn [length]. lia.
    + injection Hstep as <- <-. lia.
  - cbn. lia.
Qed.

(** X4.  Every font of a loaded archive has at most 1000 glyphs and every
    path at most 10000 points, whatever counts the archive declares. *)
Theorem loaded_font_and_path_bounds (file : list byte) (ext : GameExtractor.t) :
  load file = Ok ext ->
  (forall f, f ∈ fonts ext -> Z.of_nat (length (Font.glyphs f)) <= 1000)
  /\ (forall p, p ∈ paths ext -> Z.of_nat (length (Path.points p)) <= 10000).
Proof.
  intros H. split.
  - intros f Hin. destruct (load_fonts_decoded _ _ _ H Hin) as (ptr & Hr).
    unfold _fonts_record in Hr.
    repeat (apply bind_Ok in Hr as (? & ? & Hr)). injection Hr as <-.
    cbn [Font.glyphs]. by eapply _fonts_glyphs_length.
  - intros p Hin. destruct (load_paths_decoded _ _ _ H Hin) as (ptr & Hr).
    unfold _paths_record in Hr.
    repeat (apply bind_Ok in Hr as (? & ? & Hr)). injection Hr as <-.
    cbn [Path.points]. by eapply _paths_points_length.
Qed.

Lemma loaded_font_and_path_bounds_witness :
  exists p, p ∈ paths demo_ext /\ Z.of_nat (length (Path.points p)) <= 10000.
Proof.
  assert (exists p, paths demo_ext !! 0%nat = Some p) as [p Hp]
    by (vm_compute; eauto).
  exists p. assert (p ∈ paths demo_ext) as Hin by (eapply list_elem_of_lookup_2; eauto).
  split; [exact Hin|].
  exact (proj2 (loaded_font_and_path_bounds demo_archive demo_ext load_demo) p Hin).
Defined.

(** ** Null-terminated strings *)

Lemma index_of_Some b bs k :
  index_of b bs = Some k ->
  0 <= k /\ bs !! Z.to_nat k = Some b /\ b ∉ take (Z.to_nat k) bs.
Proof.
  revert k. induction bs as [|x bs IH]; intros k H; [discriminate|].
  cbn [index_of] in H. destruct (Byte.eqb x b) eqn:E.
  - injection H as <-. apply Byte.byte_dec_bl in E as ->.
    split; [lia|]. split; [done|]. cbn. apply not_elem_of_nil.
  - destruct (index_of b bs) as [k'|]; [|discriminate]. injection H as <-.
    destruct (IH k' eq_refl) as (Hk & Hl & Hn).
    split; [lia|]. rewrite Z2Nat.inj_succ by lia. split; [done|].
    cbn [take]. apply not_elem_of_cons. split; [|done].
    intros ->. rewrite Byte.byte_dec_lb in E by done. discriminate.
Qed.

Lemma index_of_None b bs : index_of b bs = None -> b ∉ bs.
Proof.
  induction bs as [|x bs IH]; intros H; [apply not_elem_of_nil|].
  cbn [index_of] in H. destruct (Byte.eqb x b) eqn:E; [discriminate|].
  destruct (index_of b bs); [discriminate|].
  apply not_elem_of_cons. split; [|by apply IH].
  intros ->. rewrite Byte.byte_dec_lb in E by done. discriminate.
Qed.

(** A slice with in-range, ordered bounds. *)
Lemma py_slice_inside data lo hi :
  0 <= lo <= hi -> hi <= blen data ->
  py_slice data lo hi = take (Z.to_nat (hi - lo)) (drop (Z.to_nat lo) data).
Proof.
  intros Hlo Hhi. unfold py_slice, norm_index.
  destruct (lo <? 0) eqn:E1; [lia|]. destruct (hi <? 0) eqn:E2; [lia|].
  by rewrite !Z.min_l by lia.
Qed.

Lemma norm_index_inside len i : 0 <= i -> norm_index len i = Z.min i len.
Proof. intros H. unfold norm_index. destruct (i <? 0) eqn:E; [lia|done]. Qed.

(** The cases of [c_str] at a non-negative offset. *)
Lemma c_str_shape (dw : DataWin.t) (o : Z) :
  DataWin.size dw = blen (DataWin.data dw) ->
  0 <= o ->
  (c_str dw o = text ""
   \/ exists raw,
        c_str dw o = decode utf_8 raw
        /\ (0 < length raw < 200)%nat
        /\ x00 ∉ raw
        /\ raw = take (length raw) (drop (Z.to_nat o) (DataWin.data dw))
        /\ (DataWin.data dw !! (Z.to_nat o + length raw)%nat) = Some x00)
  /\ (o = 0 \/ DataWin.size dw <= o \/ (DataWin.data dw !! Z.to_nat o) = Some x00 ->
      c_str dw o = text "").
Proof.
  intros Hsz Ho. unfold c_str. set (d := DataWin.data dw) in *.
  destruct ((o =? 0) || (o >=? DataWin.size dw)) eqn:Eg.
  { split; [by left | done]. }
  assert (0 < o < blen d) as Hrange by lia.
  unfold bytes_find, py_slice.
  assert (norm_index (blen d) o = o) as -> by (rewrite norm_index_inside; lia).
  set (h := norm_index (blen d) (o + 200)).
  assert (h = Z.min (o + 200) (blen d)) as Hh by (unfold h; rewrite norm_index_inside; lia).
  destruct (index_of x00 _) as [k|] eqn:Ei.
  2:{ assert ((-1 >? o) = false) as -> by lia.
      split; [by left|]. intros [?|[?|Hnul]]; [lia..|].
      exfalso. apply index_of_None in Ei. apply Ei.
      apply list_elem_of_lookup. exists 0%nat.
      rewrite lookup_take_lt by lia. by rewrite lookup_drop, Nat.add_0_r. }
  destruct (index_of_Some _ _ _ Ei) as (Hk & Hlook & Hnot).
  assert (k < h - o) as Hkh.
  { apply lookup_lt_Some in Hlook. rewrite length_take, length_drop in Hlook.
    unfold blen in *. lia. }
  rewrite lookup_take_lt, lookup_drop in Hlook by lia.
  destruct (o + k >? o) eqn:Ek.
  - split.
    + right. eexists. split; [reflexivity|].
      assert (norm_index (blen d) (o + k) = o + k) as ->
        by (rewrite norm_index_inside; lia).
      replace (o + k - o) with k by lia.
      rewrite take_take in Hnot. rewrite Nat.min_l in Hnot by lia.
      assert (length (take (Z.to_nat k) (drop (Z.to_nat o) d)) = Z.to_nat k) as Hlen.
      { rewrite length_take, length_drop. unfold blen in *. lia. }
      rewrite Hlen. repeat split; [lia | lia | done | done].
    + intros [?|[?|Hnul]]; [lia..|]. exfalso.
      apply Hnot. apply list_elem_of_lookup. exists 0%nat.
      rewrite lookup_take_lt by lia.
      rewrite lookup_take_lt by lia. by rewrite lookup_drop, Nat.add_0_r.
  - split; [by left | done].
Qed.

(** X5.  [c_str] at a non-negative offset returns either the empty string
    or the decoding of 1 to 199 bytes that start at the offset, contain no
    NUL and are followed by a NUL in the buffer.  It is empty in particular
    when the offset is 0, lies at or beyond the end of the buffer, or holds
    a NUL byte. *)
Theorem c_str_cases (dw : DataWin.t) (o : Z) :
  DataWin.size dw = blen (DataWin.data dw) ->
  0 <= o ->
  (c_str dw o = text ""
   \/ exists raw,
        c_str dw o = decode utf_8 raw
        /\ (0 < length raw < 200)%nat
        /\ x00 ∉ raw
        /\ raw = take (length raw) (drop (Z.to_nat o) (DataWin.data dw))
        /\ (DataWin.data dw !! (Z.to_nat o + length raw)%nat) = Some x00)
  /\ (o = 0 \/ DataWin.size dw <= o \/ (DataWin.data dw !! Z.to_nat o) = Some x00 ->
      c_str dw o = text "").
Proof. exact (c_str_shape dw o). Qed.

Lemma c_str_cases_witness :
  c_str demo_dw 172 = decode utf_8 [x73; x70; x72; x5f; x6f; x6e; x65]
  /\ c_str demo_dw 0 = text "".
Proof.
  split; [vm_compute; reflexivity|].
  apply (c_str_cases demo_dw 0); [vm_compute; reflexivity | lia | by left].
Defined.

(** ** Record names *)

Lemma _parse_data file dw :
  _parse file = Ok dw -> DataWin.data dw = file /\ DataWin.size dw = blen file.
Proof.
  unfold _parse. intros H. apply bind_Ok in H as (magic & _ & H).
  destruct (negb _); [discriminate|].
  apply bind_Ok in H as (st & _ & H). injection H as <-. done.
Qed.

Lemma load_size file ext :
  load file = Ok ext ->
  DataWin.size (GameExtractor.dw ext) = blen (DataWin.data (GameExtractor.dw ext)).
Proof.
  intros H. pose proof H as H0. unfold load in H0.
  apply bind_Ok in H0 as (dw & Hp & _). rewrite (load_dw _ _ _ Hp H).
  destruct (_parse_data _ _ Hp) as [-> ->]. done.
Qed.

Lemma name_or_shape dw prefix i p :
  DataWin.size dw = blen (DataWin.data dw) ->
  u32 (DataWin.data dw) i = Ok p \/ 0 <= p ->
  name_shape prefix i (name_or dw p (fstr prefix i))
  /\ (p = 0 -> name_or dw p (fstr prefix i) = fstr prefix i).
Proof.
  intros Hsz Hp. unfold name_or, name_shape.
  destruct (p =? 0) eqn:E; cbn [negb]; [split; [by left|done]|].
  split; [|lia].
  assert (0 <= p) as Hp0 by (destruct Hp as [Hp|Hp]; [apply u32_range in Hp|]; lia).
  destruct (c_str_shape dw p Hsz Hp0) as [[->|(raw & -> & Hlen & Hnul & _)] _].
  - right. by left.
  - right. right. eauto.
Qed.

Lemma load_objects_decoded file ext o :
  load file = Ok ext -> o ∈ objects ext ->
  exists i ptr, _objects_record (GameExtractor.dw ext) i ptr = Ok o.
Proof.
  intros H Hin.
  destruct (load_objects _ _ H) as (dw & s5 & s6 & Hp & HL & HM & Hs & EL & EM).
  rewrite (load_dw _ _ _ Hp H).
  destruct (_objects_result _ _ _ HL HM Hs) as (_ & _ & [He|(c & _ & Hall)]).
  - rewrite EL, He in Hin. by apply elem_of_nil in Hin.
  - rewrite Forall_forall in Hall. rewrite EL in Hin.
    destruct (Hall _ Hin) as (ptr & _ & _ & Hr). eauto.
Qed.

(** The table entry and the record behind an object of a loaded archive. *)
Lemma load_objects_table file ext o :
  load file = Ok ext -> o ∈ objects ext ->
  exists c,
    DataWin.chunks (GameExtractor.dw ext) !! ChunkID.OBJT = Some c
    /\ decoded_at GameObject.index
         (table_entry (GameExtractor.dw ext) (Chunk.data_start c))
         (skips (GameExtractor.dw ext) 32)
         (_objects_record (GameExtractor.dw ext)) o.
Proof.
  intros H Hin.
  destruct (load_objects _ _ H) as (dw & s5 & s6 & Hp & HL & HM & Hs & EL & EM).
  rewrite (load_dw _ _ _ Hp H).
  destruct (_objects_result _ _ _ HL HM Hs) as (_ & _ & [He|(c & Hc & Hall)]).
  - rewrite EL, He in Hin. by apply elem_of_nil in Hin.
  - rewrite Forall_forall in Hall. rewrite EL in Hin.
    exists c. split; [exact Hc|]. by apply Hall.
Qed.

(** The name a record gets from its name pointer. *)
Lemma name_or_cases dw p default :
  (p = 0 -> name_or dw p default = default)
  /\ (p <> 0 -> name_or dw p default = c_str dw p).
Proof.
  unfold name_or. destruct (p =? 0) eqn:E; cbn [negb]; split; intros; try done; lia.
Qed.

Lemma _sprites_record_name dw i ptr s :
  _sprites_record dw i ptr = Ok s ->
  exists name_ptr, u32 (DataWin.data dw) ptr = Ok name_ptr
    /\ Sprite.name s = name_or dw name_ptr (fstr "sprite_" i).
Proof.
  unfold _sprites_record. intros Hr. apply bind_Ok in Hr as (p & Hp & Hr).
  repeat (apply bind_Ok in Hr as (? & ? & Hr)). injection Hr as <-.
  exists p. by split.
Qed.

Lemma _objects_record_name dw i ptr o :
  _objects_record dw i ptr = Ok o ->
  exists name_ptr, u32 (DataWin.data dw) ptr = Ok name_ptr
    /\ GameObject.name o = name_or dw name_ptr (fstr "object_" i).
Proof.
  unfold _objects_record. intros Hr. apply bind_Ok in Hr as (p & Hp & Hr).
  repeat (apply bind_Ok in Hr as (? & ? & Hr)). injection Hr as <-.
  exists p. by split.
Qed.

(** X6.  The name of every sprite and object of a loaded archive is the
    synthesized ["sprite_<index>"] or ["object_<index>"], or the empty
    string, or the decoding of 1 to 199 bytes without a NUL.  Which one is
    decided by the name pointer, the first field of the record that the
    entry of the pointer table at the record's index points to: when the
    name pointer is zero the name is the synthesized one, and when it is
    not the name is [c_str] at the name pointer, whatever that reads.  (The
    empty name occurs: see [object_name_can_be_empty].) *)
Theorem loaded_record_names (file : list byte) (ext : GameExtractor.t) :
  load file = Ok ext ->
  (forall s, s ∈ sprites ext ->
     name_shape "sprite_" (Sprite.index s) (Sprite.name s)
     /\ exists c ptr name_ptr,
          DataWin.chunks (GameExtractor.dw ext) !! ChunkID.SPRT = Some c
          /\ table_entry (GameExtractor.dw ext) (Chunk.data_start c) (Sprite.index s)
             = Ok ptr
          /\ u32 (DataWin.data (GameExtractor.dw ext)) ptr = Ok name_ptr
          /\ (name_ptr = 0 -> Sprite.name s = fstr "sprite_" (Sprite.index s))
          /\ (name_ptr <> 0 -> Sprite.name s = c_str (GameExtractor.dw ext) name_ptr))
  /\ (forall o, o ∈ objects ext ->
        name_shape "object_" (GameObject.index o) (GameObject.name o)
        /\ exists c ptr name_ptr,
             DataWin.chunks (GameExtractor.dw ext) !! ChunkID.OBJT = Some c
             /\ table_entry (GameExtractor.dw ext) (Chunk.data_start c)
                  (GameObject.index o) = Ok ptr
             /\ u32 (DataWin.data (GameExtractor.dw ext)) ptr = Ok name_ptr
             /\ (name_ptr = 0 -> GameObject.name o = fstr "object_" (GameObject.index o))
             /\ (name_ptr <> 0 ->
                 GameObject.name o = c_str (GameExtractor.dw ext) name_ptr)).
Proof.
  intros H. pose proof (load_size _ _ H) as Hsz. split.
  - intros s Hin.
    destruct (load_sprites_table _ _ _ H Hin) as (c & Hc & ptr & He & _ & Hr).
    destruct (_sprites_record_name _ _ _ _ Hr) as (p & Hp & Hn).
    destruct (name_or_cases (GameExtractor.dw ext) p (fstr "sprite_" (Sprite.index s)))
      as [Hz Hnz].
    split.
    + rewrite Hn. eapply (name_or_shape _ "sprite_" _ p Hsz). right.
      apply u32_range in Hp. lia.
    + exists c, ptr, p. rewrite Hn. done.
  - intros o Hin.
    destruct (load_objects_table _ _ _ H Hin) as (c & Hc & ptr & He & _ & Hr).
    destruct (_objects_record_name _ _ _ _ Hr) as (p & Hp & Hn).
    destruct (name_or_cases (GameExtractor.dw ext) p (fstr "object_" (GameObject.index o)))
      as [Hz Hnz].
    split.
    + rewrite Hn. eapply (name_or_shape _ "object_" _ p Hsz). right.
      apply u32_range in Hp. lia.
    + exists c, ptr, p. rewrite Hn. done.
Qed.

Lemma loaded_record_names_witness :
  exists o, o ∈ objects demo_ext
    /\ name_shape "object_" (GameObject.index o) (GameObject.name o).
Proof.
  assert (exists o, objects demo_ext !! 0%nat = Some o) as [o Ho]
    by (vm_compute; eauto).
  exists o. assert (o ∈ objects demo_ext) as Hin by (eapply list_elem_of_lookup_2; eauto).
  split; [exact Hin|].
  exact (proj1 (proj2 (loaded_record_names demo_archive demo_ext load_demo) o Hin)).
Defined.

(** An object whose non-zero name pointer is the offset of a NUL byte gets
    the empty name, not a synthesized one. *)
Example object_name_can_be_empty :
  match load objt_archive_nul_name with
  | Ok ext => GameObject.name <$> objects ext
  | Raise _ => []
  end = [text ""].
Proof. vm_compute. reflexivity. Qed.

(** ** Embedded images *)

Lemma bytes_eqb_eq a b : bytes_eqb a b = true <-> a = b.
Proof.
  revert b. induction a as [|x a IH]; intros [|y b]; cbn; try done.
  rewrite andb_true_iff, IH. split.
  - intros [Hx ->]. by apply Byte.byte_dec_bl in Hx as ->.
  - intros [= -> ->]. by rewrite Byte.byte_dec_lb.
Qed.

Lemma be_int_nonneg_from bs : forall acc, 0 <= acc ->
  0 <= fold_left (fun acc b => 256 * acc + byte_val b) bs acc.
Proof.
  induction bs as [|b bs IH]; intros acc Hacc; cbn; [done|].
  apply IH. pose proof (byte_val_range b). lia.
Qed.

Lemma be_int_nonneg bs : 0 <= be_int bs.
Proof. by apply be_int_nonneg_from. Qed.

Lemma py_slice_length data lo hi :
  0 <= lo -> lo <= hi -> hi <= blen data ->
  length (py_slice data lo hi) = Z.to_nat (hi - lo).
Proof.
  intros. rewrite py_slice_inside by lia.
  rewrite length_take, length_drop. unfold blen in *. lia.
Qed.

Lemma take_length_take {A : Type} (n : nat) (l : list A) :
  take (length (take n l)) l = take n l.
Proof.
  rewrite length_take. destruct (decide (n <= length l)%nat).
  - by rewrite Nat.min_l.
  - rewrite Nat.min_r by lia. by rewrite !take_ge by lia.
Qed.

(** A slice from a non-negative offset is a prefix of the buffer from there. *)
Lemma py_slice_prefix data lo hi :
  0 <= lo ->
  py_slice data lo hi
  = take (length (py_slice data lo hi)) (drop (Z.to_nat lo) data).
Proof.
  intros Hlo. unfold py_slice. rewrite (norm_index_inside _ lo) by done.
  set (h := norm_index (blen data) hi).
  destruct (decide (blen data <= lo)) as [Hge|Hlt].
  - rewrite Z.min_r by lia. rewrite drop_ge by (unfold blen; lia).
    rewrite drop_ge by (unfold blen in *; lia). by rewrite !take_nil.
  - rewrite Z.min_l by lia. by rewrite take_length_take.
Qed.

(** With fuel for every byte the scan leaves through its guard or at an end
    marker; it never raises.  What it returns is empty or a slice that
    starts at [off] and ends at least 12 bytes past [pos]. *)
Lemma _extract_png_loop_total dw off fuel : forall pos,
  DataWin.size dw = blen (DataWin.data dw) ->
  0 <= pos ->
  (Z.to_nat (DataWin.size dw - 12 - pos) <= fuel)%nat ->
  exists png,
    _extract_png_loop dw fuel off pos = Ok png
    /\ (png = [] \/ exists stop, pos + 12 <= stop
                      /\ png = py_slice (DataWin.data dw) off stop).
Proof.
  induction fuel as [|fuel IH]; intros pos Hsz Hpos Hfuel; cbn [_extract_png_loop].
  - destruct (pos <? DataWin.size dw - 12) eqn:E; [lia|]. eauto.
  - destruct (pos <? DataWin.size dw - 12) eqn:E; [|eauto].
    unfold unpack_be_I.
    rewrite py_slice_length by lia. replace (pos + 4 - pos) with 4 by lia.
    cbn [Z.to_nat Pos.to_nat Pos.iter_op Nat.add Nat.eqb mbind result_bind].
    set (n := be_int _). pose proof (be_int_nonneg (py_slice (DataWin.data dw) pos (pos + 4))).
    fold n in H.
    destruct (bytes_eqb _ IEND).
    + eexists. split; [reflexivity|]. right. exists (pos + (12 + n)). split; [lia|done].
    + destruct (IH (pos + (12 + n))) as (png & Hrun & Hshape); [done|lia|lia|].
      exists png. split; [done|]. destruct Hshape as [->|(stop & Hs & ->)]; [by left|].
      right. exists stop. split; [lia|done].
Qed.

(** X7.  [_extract_png] never raises.  Its result is empty, or it starts
    with the 8 signature bytes and is the run of bytes of the buffer from
    the given offset on; it is empty whenever the bytes at the offset are not
    the signature. *)
Theorem extract_png_shape (dw : DataWin.t) (off : Z) :
  DataWin.size dw = blen (DataWin.data dw) ->
  0 <= off ->
  exists png,
    _extract_png dw off = Ok png
    /\ (png = []
        \/ (take 8 png = PNG_SIGNATURE
            /\ png = take (length png) (drop (Z.to_nat off) (DataWin.data dw))))
    /\ (py_slice (DataWin.data dw) off (off + 8) ≠ PNG_SIGNATURE -> png = []).
Proof.
  intros Hsz Hoff. unfold _extract_png.
  destruct (bytes_eqb _ PNG_SIGNATURE) eqn:Esig; cbn [negb].
  2:{ exists []. split; [done|]. split; [by left|done]. }
  apply bytes_eqb_eq in Esig.
  destruct (_extract_png_loop_total dw off (length (DataWin.data dw)) (off + 8) Hsz)
    as (png & Hrun & Hshape); [lia | unfold blen in Hsz; lia |].
  exists png. split; [done|]. split; [|intros Hne; by destruct Hne].
  destruct Hshape as [->|(stop & Hstop & ->)]; [by left|right].
  split; [|by apply py_slice_prefix].
  assert (off + 8 <= blen (DataWin.data dw)) as Hfit.
  { destruct (decide (off + 8 <= blen (DataWin.data dw))); [done|exfalso].
    assert (length (py_slice (DataWin.data dw) off (off + 8)) = 8%nat) as Hl
      by (by rewrite Esig).
    unfold py_slice in Hl. rewrite !norm_index_inside in Hl by lia.
    rewrite length_take, length_drop in Hl. unfold blen in *. lia. }
  rewrite <- Esig. unfold py_slice. rewrite !norm_index_inside by lia.
  rewrite take_take. f_equal. lia.
Qed.

Lemma extract_png_shape_witness :
  exists png, _extract_png demo_dw 1202 = Ok png /\ take 8 png = PNG_SIGNATURE.
Proof.
  assert (DataWin.size demo_dw = blen (DataWin.data demo_dw)) as Hsz
    by (vm_compute; reflexivity).
  destruct (extract_png_shape demo_dw 1202 Hsz ltac:(lia)) as (png & Hp & Hshape & _).
  exists png. split; [exact Hp|].
  destruct Hshape as [Hnil|[Hsig _]]; [|exact Hsig].
  exfalso. rewrite Hnil in Hp. revert Hp. vm_compute. discriminate.
Defined.

(** ** Counted sub-lists: discarded or clamped *)

Lemma load_rooms_table file ext r :
  load file = Ok ext -> r ∈ rooms ext ->
  exists c,
    DataWin.chunks (GameExtractor.dw ext) !! ChunkID.ROOM = Some c
    /\ decoded_at Room.index
         (table_entry (GameExtractor.dw ext) (Chunk.data_start c))
         (skips (GameExtractor.dw ext) 100)
         (_rooms_record (GameExtractor.dw ext)) r.
Proof.
  intros H Hin.
  destruct (load_step rooms 6 _rooms file ext H (fun _ => eq_refl) keeps_rooms)
    as (dw & s & s' & Hp & Hdw & Hs & Hfn & Hx).
  rewrite Hdw. rewrite Hx in Hin. cbn in Hs. unfold _rooms in Hfn.
  destruct (DataWin.chunks dw !! ChunkID.ROOM) as [c|] eqn:Hc.
  2:{ injection Hfn as <-. rewrite Hs in Hin. by apply elem_of_nil in Hin. }
  apply bind_Ok in Hfn as (count & _ & Hfn). unfold for_in_range in Hfn.
  destruct (table_loop rooms Room.index (table_entry dw (Chunk.data_start c))
              (skips dw 100) (_rooms_record dw) (_rooms_body dw (Chunk.data_start c))
              (_rooms_body_spec dw (Chunk.data_start c)) (_rooms_record_index dw)
              _ _ _ _ Hfn) as (recs & HL & _ & Hdec).
  rewrite Hs in HL. cbn [app] in HL. rewrite HL in Hin.
  rewrite Forall_forall in Hdec. exists c. split; [done|]. by apply Hdec.
Qed.

Lemma load_fonts_table file ext r :
  load file = Ok ext -> r ∈ fonts ext ->
  exists c,
    DataWin.chunks (GameExtractor.dw ext) !! ChunkID.FONT = Some c
    /\ decoded_at Font.index
         (table_entry (GameExtractor.dw ext) (Chunk.data_start c))
         (skips (GameExtractor.dw ext) 48)
         (_fonts_record (GameExtractor.dw ext)) r.
Proof.
  intros H Hin.
  destruct (load_step fonts 9 _fonts file ext H (fun _ => eq_refl) keeps_fonts)
    as (dw & s & s' & Hp & Hdw & Hs & Hfn & Hx).
  rewrite Hdw. rewrite Hx in Hin. cbn in Hs. unfold _fonts in Hfn.
  destruct (DataWin.chunks dw !! ChunkID.FONT) as [c|] eqn:Hc.
  2:{ injection Hfn as <-. rewrite Hs in Hin. by apply elem_of_nil in Hin. }
  apply bind_Ok in Hfn as (count & _ & Hfn). unfold for_in_range in Hfn.
  destruct (table_loop fonts Font.index (table_entry dw (Chunk.data_start c))
              (skips dw 48) (_fonts_record dw) (_fonts_body dw (Chunk.data_start c))
              (_fonts_body_spec dw (Chunk.data_start c)) (_fonts_record_index dw)
              _ _ _ _ Hfn) as (recs & HL & _ & Hdec).
  rewrite Hs in HL. cbn [app] in HL. rewrite HL in Hin.
  rewrite Forall_forall in Hdec. exists c. split; [done|]. by apply Hdec.
Qed.

Lemma load_paths_table file ext r :
  load file = Ok ext -> r ∈ paths ext ->
  exists c,
    DataWin.chunks (GameExtractor.dw ext) !! ChunkID.PATH = Some c
    /\ decoded_at Path.index
         (table_entry (GameExtractor.dw ext) (Chunk.data_start c))
         (skips (GameExtractor.dw ext) 20)
         (_paths_record (GameExtractor.dw ext)) r.
Proof.
  intros H Hin.
  destruct (load_step paths 10 _paths file ext H (fun _ => eq_refl) keeps_paths)
    as (dw & s & s' & Hp & Hdw & Hs & Hfn & Hx).
  rewrite Hdw. rewrite Hx in Hin. cbn in Hs. unfold _paths in Hfn.
  destruct (DataWin.chunks dw !! ChunkID.PATH) as [c|] eqn:Hc.
  2:{ injection Hfn as <-. rewrite Hs in Hin. by apply elem_of_nil in Hin. }
  apply bind_Ok in Hfn as (count & _ & Hfn). unfold for_in_range in Hfn.
  destruct (table_loop paths Path.index (table_entry dw (Chunk.data_start c))
              (skips dw 20) (_paths_record dw) (_paths_body dw (Chunk.data_start c))
              (_paths_body_spec dw (Chunk.data_start c)) (_paths_record_index dw)
              _ _ _ _ Hfn) as (recs & HL & _ & Hdec).
  rewrite Hs in HL. cbn [app] in HL. rewrite HL in Hin.
  rewrite Forall_forall in Hdec. exists c. split; [done|]. by apply Hdec.
Qed.

(** The frame list of a sprite record, by the frame count it declares. *)
Lemma _sprites_record_frame_list dw i ptr s :
  _sprites_record dw i ptr = Ok s ->
  exists fc, u32 (DataWin.data dw) (ptr + 0x38) = Ok fc
    /\ (5000 <= fc -> Sprite.frames s = [])
    /\ (fc < 5000 ->
        for_in_range fc (_sprites_frame dw ptr) [] = Ok (Sprite.frames s)).
Proof.
  unfold _sprites_record. intros H.
  apply bind_Ok in H as (name_ptr & _ & H). apply bind_Ok in H as (w & _ & H).
  apply bind_Ok in H as (h & _ & H). apply bind_Ok in H as (ox & _ & H).
  apply bind_Ok in H as (oy & _ & H). apply bind_Ok in H as (fc & Hfc & H).
  apply bind_Ok in H as (frames & Hfr & H). injection H as <-. cbn [Sprite.frames].
  exists fc. split; [exact Hfc|].
  unfold _sprites_frames in Hfr. destruct (fc <? 5000) eqn:E.
  - split; [lia|done].
  - injection Hfr as <-. split; [done|lia].
Qed.

(** A loop whose body appends one element exactly in the rounds [keep]
    selects yields one element per selected round. *)
Lemma counted_loop {A : Type} (keep : Z -> bool)
    (body : Z -> list A -> result (list A)) :
  (forall j l l', body j l = Ok l' ->
     if keep j then exists x, l' = l ++ [x] else l' = l) ->
  forall n i l l',
    for_range n i body l = Ok l' ->
    length l'
    = (length l + length (filter (fun j => keep j = true) (seqZ i (Z.of_nat n))))%nat.
Proof.
  intros Hb. induction n as [|n IH]; intros i l l' Hrun.
  - injection Hrun as <-. simpl. lia.
  - cbn [for_range] in Hrun. apply bind_Ok in Hrun as (l1 & Hstep & Hrun).
    rewrite (IH _ _ _ Hrun), seqZ_succ. specialize (Hb _ _ _ Hstep).
    destruct (keep i) eqn:E.
    + destruct Hb as (x & ->). rewrite filter_cons_True by done.
      rewrite length_app. cbn [length]. lia.
    + subst l1. rewrite filter_cons_False by (rewrite E; discriminate). done.
Qed.

Lemma clamped_loop {A : Type} dw bound k p count
    (body : Z -> Z -> list A -> result (list A)) l :
  (forall j l l', body p j l = Ok l' ->
     if usable_entry dw k p j then exists x, l' = l ++ [x] else l' = l) ->
  0 <= count -> 0 <= bound ->
  for_in_range (Z.min count bound) (body p) [] = Ok l ->
  length l
  = length (filter (fun j => usable_entry dw k p j = true) (seqZ 0 (Z.min count bound))).
Proof.
  intros Hb Hc Hbd Hrun. unfold for_in_range in Hrun.
  rewrite (counted_loop _ _ Hb _ _ _ _ Hrun). cbn [length].
  by rewrite Z2Nat.id by lia.
Qed.

Lemma _rooms_bg_keep dw p j l l' :
  _rooms_bg dw p j l = Ok l' ->
  if usable_entry dw 32 p j then exists x, l' = l ++ [x] else l' = l.
Proof.
  unfold _rooms_bg, usable_entry. intros H. apply bind_Ok in H as (bp & -> & H).
  destruct (usable dw 32 bp); [|by injection H as <-].
  inv_ok H. eauto.
Qed.

Lemma _rooms_inst_keep dw p j l l' :
  _rooms_inst dw p j l = Ok l' ->
  if usable_entry dw 16 p j then exists x, l' = l ++ [x] else l' = l.
Proof.
  unfold _rooms_inst, usable_entry. intros H. apply bind_Ok in H as (bp & -> & H).
  destruct (usable dw 16 bp); [|by injection H as <-].
  inv_ok H. eauto.
Qed.

Lemma _rooms_tile_keep dw p j l l' :
  _rooms_tile dw p j l = Ok l' ->
  if usable_entry dw 0x30 p j then exists x, l' = l ++ [x] else l' = l.
Proof.
  unfold _rooms_tile, usable_entry. intros H. apply bind_Ok in H as (bp & -> & H).
  destruct (usable dw 0x30 bp); [|by injection H as <-].
  inv_ok H. eauto.
Qed.

Lemma _fonts_glyph_keep dw p j l l' :
  _fonts_glyph dw p j l = Ok l' ->
  if usable_entry dw 28 p j then exists x, l' = l ++ [x] else l' = l.
Proof.
  unfold _fonts_glyph, usable_entry. intros H. apply bind_Ok in H as (bp & -> & H).
  destruct (usable dw 28 bp); [|by injection H as <-].
  inv_ok H. eauto.
Qed.

(** The three lists of a room record. *)
Lemma _rooms_record_lists dw i ptr r :
  _rooms_record dw i ptr = Ok r ->
  (exists p, u32 (DataWin.data dw) (ptr + 0x28) = Ok p
     /\ clamped_sublist dw 8 32 p (_rooms_bg dw) (Room.bg_defs r))
  /\ (exists p, u32 (DataWin.data dw) (ptr + 0x30) = Ok p
        /\ clamped_sublist dw 10000 16 p (_rooms_inst dw) (Room.instances r))
  /\ (exists p, u32 (DataWin.data dw) (ptr + 0x34) = Ok p
        /\ clamped_sublist dw 50000 0x30 p (_rooms_tile dw) (Room.tiles r)).
Proof.
  unfold _rooms_record. intros H.
  apply bind_Ok in H as (name_ptr & _ & H). apply bind_Ok in H as (w & _ & H).
  apply bind_Ok in H as (h & _ & H). apply bind_Ok in H as (sp & _ & H).
  apply bind_Ok in H as (col & _ & H). apply bind_Ok in H as (bgs & Hbg & H).
  apply bind_Ok in H as (insts & Hin & H). apply bind_Ok in H as (tls & Htl & H).
  injection H as <-. cbn [Room.bg_defs Room.instances Room.tiles].
  repeat split.
  - unfold _rooms_bg_defs in Hbg. apply bind_Ok in Hbg as (p & Hp & Hbg).
    exists p. split; [exact Hp|]. unfold clamped_sublist.
    destruct (usable dw 4 p); [|by injection Hbg as <-].
    apply bind_Ok in Hbg as (n & Hn & Hbg). exists n. split; [exact Hn|].
    split; [exact Hbg|]. apply u32_range in Hn.
    apply (clamped_loop dw 8 32 p n (_rooms_bg dw)); [apply _rooms_bg_keep|lia..|done].
  - unfold _rooms_instances in Hin. apply bind_Ok in Hin as (p & Hp & Hin).
    exists p. split; [exact Hp|]. unfold clamped_sublist.
    destruct (usable dw 4 p); [|by injection Hin as <-].
    apply bind_Ok in Hin as (n & Hn & Hin). exists n. split; [exact Hn|].
    split; [exact Hin|]. apply u32_range in Hn.
    apply (clamped_loop dw 10000 16 p n (_rooms_inst dw));
      [apply _rooms_inst_keep|lia..|done].
  - unfold _rooms_tiles in Htl. apply bind_Ok in Htl as (p & Hp & Htl).
    exists p. split; [exact Hp|]. unfold clamped_sublist.
    destruct (usable dw 4 p); [|by injection Htl as <-].
    apply bind_Ok in Htl as (n & Hn & Htl). exists n. split; [exact Hn|].
    split; [exact Htl|]. apply u32_range in Hn.
    apply (clamped_loop dw 50000 0x30 p n (_rooms_tile dw));
      [apply _rooms_tile_keep|lia..|done].
Qed.

(** The glyph list of a font record that passed the guard of its table. *)
Lemma _fonts_record_glyph_list dw i ptr f :
  skips dw 48 ptr = false ->
  _fonts_record dw i ptr = Ok f ->
  exists p, u32 (DataWin.data dw) (ptr + 44) = Ok p
    /\ clamped_sublist dw 1000 28 p (_fonts_glyph dw) (Font.glyphs f).
Proof.
  unfold skips, _fonts_record. intros Hs H.
  repeat match type of H with
         | mbind _ (_fonts_glyphs _ _) = Ok _ => fail 1
         | mbind _ _ = Ok _ => apply bind_Ok in H as (? & _ & H)
         end.
  apply bind_Ok in H as (glyphs & Hg & H). injection H as <-. cbn [Font.glyphs].
  unfold _fonts_glyphs in Hg.
  assert ((ptr + 48 <=? DataWin.size dw) = true) as E by lia. rewrite E in Hg.
  apply bind_Ok in Hg as (p & Hp & Hg). exists p. split; [exact Hp|].
  unfold clamped_sublist. destruct (usable dw 4 p); [|by injection Hg as <-].
  apply bind_Ok in Hg as (n & Hn & Hg). exists n. split; [exact Hn|].
  split; [exact Hg|]. apply u32_range in Hn.
  apply (clamped_loop dw 1000 28 p n (_fonts_glyph dw));
    [apply _fonts_glyph_keep|lia..|done].
Qed.

(** The point loop keeps one point per round as long as another 12 bytes
    fit in the buffer. *)
Lemma _paths_point_rounds dw ptr n pts off :
  0 <= n ->
  for_in_range n (_paths_point dw) ([], ptr + 20) = Ok (pts, off) ->
  Z.of_nat (length pts)
  = Z.min n (Z.max 0 ((DataWin.size dw - (ptr + 20)) / 12)).
Proof.
  intros Hn H. unfold for_in_range in H.
  apply (for_range_ind
           (fun i (st : list PathPoint.t * Z) =>
              0 <= i
              /\ Z.of_nat (length (fst st))
                 = Z.min i (Z.max 0 ((DataWin.size dw - (ptr + 20)) / 12))
              /\ snd st = ptr + 20 + 12 * Z.of_nat (length (fst st)))
           (_paths_point dw)) with (i := 0) in H.
  - cbn [fst snd] in H. destruct H as (_ & Hlen & _).
    rewrite Z.add_0_l, Z2Nat.id in Hlen by lia. exact Hlen.
  - intros i [l0 o0] [l1 o1] (Hi & Hlen & Hoff) Hstep. cbn [fst snd] in *.
    unfold _paths_point in Hstep.
    destruct (o0 + 12 <=? DataWin.size dw) eqn:E.
    + inv_ok Hstep. rewrite length_app. cbn [length].
      split; [lia|]. split; [|lia]. revert Hlen. Z.div_mod_to_equations. lia.
    + injection Hstep as <- <-. split; [lia|]. split; [|done].
      revert Hlen. Z.div_mod_to_equations. lia.
  - cbn [fst snd length]. split; [lia|]. split; [|lia].
    Z.div_mod_to_equations. lia.
Qed.

(** The point list of a path record that passed the guard of its table. *)
Lemma _paths_record_point_list dw i ptr p :
  skips dw 20 ptr = false ->
  _paths_record dw i ptr = Ok p ->
  exists point_count,
    u32 (DataWin.data dw) (ptr + 16) = Ok point_count
    /\ fst <$> for_in_range (Z.min point_count 10000) (_paths_point dw) ([], ptr + 20)
       = Ok (Path.points p)
    /\ Z.of_nat (length (Path.points p))
       = Z.min (Z.min point_count 10000)
           (Z.max 0 ((DataWin.size dw - (ptr + 20)) / 12)).
Proof.
  unfold skips, _paths_record. intros Hs H.
  apply bind_Ok in H as (name_ptr & _ & H). apply bind_Ok in H as (sm & _ & H).
  apply bind_Ok in H as (cl & _ & H). apply bind_Ok in H as (pr & _ & H).
  apply bind_Ok in H as (points & Hpt & H). injection H as <-. cbn [Path.points].
  unfold _paths_points in Hpt.
  assert ((ptr + 20 <=? DataWin.size dw) = true) as E by lia. rewrite E in Hpt.
  apply bind_Ok in Hpt as (n & Hn & Hpt). exists n. split; [exact Hn|].
  split; [exact Hpt|].
  apply fmap_Ok in Hpt as ([pts off] & Hrun & ->). cbn [fst].
  apply u32_range in Hn. eapply _paths_point_rounds; [|exact Hrun]. lia.
Qed.

(** C5, as the code has it.  What a declared count above the bound does to
    the sub-lists of the records of a loaded archive.  Each record is the one its entry of the
    pointer table points to.  A sprite whose record declares 5000 frames or
    more has no frames at all; below that the frame loop runs over the
    declared count.  The other sub-lists are not discarded but clamped: the
    background slots, instances and tiles of a room and the glyphs of a font
    are what the loop keeps of the first [min(count, bound)] entries of the
    list, with the bounds 8, 10000, 50000 and 1000, one element for each of
    these entries whose pointer is usable; and the points of a path are
    what the loop reads in [min(count, 10000)] rounds, one point per round
    while another 12 bytes fit in the buffer. *)
Theorem sublists_discarded_or_clamped (file : list byte) (ext : GameExtractor.t) :
  load file = Ok ext ->
  (forall s, s ∈ sprites ext ->
     exists c ptr fc,
       DataWin.chunks (GameExtractor.dw ext) !! ChunkID.SPRT = Some c
       /\ table_entry (GameExtractor.dw ext) (Chunk.data_start c) (Sprite.index s)
          = Ok ptr
       /\ u32 (DataWin.data (GameExtractor.dw ext)) (ptr + 0x38) = Ok fc
       /\ (5000 <= fc -> Sprite.frames s = [])
       /\ (fc < 5000 ->
           for_in_range fc (_sprites_frame (GameExtractor.dw ext) ptr) []
           = Ok (Sprite.frames s)))
  /\ (forall r, r ∈ rooms ext ->
        exists c ptr bg_list_ptr inst_ptr tile_ptr,
          DataWin.chunks (GameExtractor.dw ext) !! ChunkID.ROOM = Some c
          /\ table_entry (GameExtractor.dw ext) (Chunk.data_start c) (Room.index r)
             = Ok ptr
          /\ u32 (DataWin.data (GameExtractor.dw ext)) (ptr + 0x28) = Ok bg_list_ptr
          /\ clamped_sublist (GameExtractor.dw ext) 8 32 bg_list_ptr
               (_rooms_bg (GameExtractor.dw ext)) (Room.bg_defs r)
          /\ u32 (DataWin.data (GameExtractor.dw ext)) (ptr + 0x30) = Ok inst_ptr
          /\ clamped_sublist (GameExtractor.dw ext) 10000 16 inst_ptr
               (_rooms_inst (GameExtractor.dw ext)) (Room.instances r)
          /\ u32 (DataWin.data (GameExtractor.dw ext)) (ptr + 0x34) = Ok tile_ptr
          /\ clamped_sublist (GameExtractor.dw ext) 50000 0x30 tile_ptr
               (_rooms_tile (GameExtractor.dw ext)) (Room.tiles r))
  /\ (forall f, f ∈ fonts ext ->
        exists c ptr glyph_ptr,
          DataWin.chunks (GameExtractor.dw ext) !! ChunkID.FONT = Some c
          /\ table_entry (GameExtractor.dw ext) (Chunk.data_start c) (Font.index f)
             = Ok ptr
          /\ u32 (DataWin.data (GameExtractor.dw ext)) (ptr + 44) = Ok glyph_ptr
          /\ clamped_sublist (GameExtractor.dw ext) 1000 28 glyph_ptr
               (_fonts_glyph (GameExtractor.dw ext)) (Font.glyphs f))
  /\ (forall p, p ∈ paths ext ->
        exists c ptr point_count,
          DataWin.chunks (GameExtractor.dw ext) !! ChunkID.PATH = Some c
          /\ table_entry (GameExtractor.dw ext) (Chunk.data_start c) (Path.index p)
             = Ok ptr
          /\ u32 (DataWin.data (GameExtractor.dw ext)) (ptr + 16) = Ok point_count
          /\ fst <$> for_in_range (Z.min point_count 10000)
                       (_paths_point (GameExtractor.dw ext)) ([], ptr + 20)
             = Ok (Path.points p)
          /\ Z.of_nat (length (Path.points p))
             = Z.min (Z.min point_count 10000)
                 (Z.max 0 ((DataWin.size (GameExtractor.dw ext) - (ptr + 20)) / 12))).
Proof.
  intros H. repeat split.
  - intros s Hin.
    destruct (load_sprites_table _ _ _ H Hin) as (c & Hc & ptr & He & _ & Hr).
    destruct (_sprites_record_frame_list _ _ _ _ Hr) as (fc & Hfc & Hbig & Hsmall).
    exists c, ptr, fc. done.
  - intros r Hin.
    destruct (load_rooms_table _ _ _ H Hin) as (c & Hc & ptr & He & _ & Hr).
    destruct (_rooms_record_lists _ _ _ _ Hr)
      as ((p1 & Hp1 & H1) & (p2 & Hp2 & H2) & (p3 & Hp3 & H3)).
    exists c, ptr, p1, p2, p3. done.
  - intros f Hin.
    destruct (load_fonts_table _ _ _ H Hin) as (c & Hc & ptr & He & Hs & Hr).
    destruct (_fonts_record_glyph_list _ _ _ _ Hs Hr) as (p & Hp & Hg).
    exists c, ptr, p. done.
  - intros p Hin.
    destruct (load_paths_table _ _ _ H Hin) as (c & Hc & ptr & He & Hs & Hr).
    destruct (_paths_record_point_list _ _ _ _ Hs Hr) as (n & Hn & Hpts & Hlen).
    exists c, ptr, n. done.
Qed.

Lemma sublists_discarded_or_clamped_witness :
  exists r bg_list_ptr,
    r ∈ rooms demo_ext
    /\ clamped_sublist (GameExtractor.dw demo_ext) 8 32 bg_list_ptr
         (_rooms_bg (GameExtractor.dw demo_ext)) (Room.bg_defs r).
Proof.
  assert (exists r, rooms demo_ext !! 0%nat = Some r) as [r Hr]
    by (vm_compute; eauto).
  assert (r ∈ rooms demo_ext) as Hin by (eapply list_elem_of_lookup_2; eauto).
  destruct (sublists_discarded_or_clamped demo_archive demo_ext load_demo)
    as (_ & Hrooms & _).
  destruct (Hrooms r Hin) as (c & ptr & p1 & p2 & p3 & _ & _ & _ & H1 & _).
  exists r, p1. split; [exact Hin|exact H1].
Defined.

(** C5 as stated fails: the room of the sample archive declares 9
    background slots, one more than the bound, and its list is not empty
    but holds the first 8. *)
Lemma room_nine_slots_declared_eight_kept :
  (DataWin.chunks demo_dw !! ChunkID.ROOM ≫= fun c =>
     Some (table_entry demo_dw (Chunk.data_start c) 0)) = Some (Ok 430)
  /\ u32 (DataWin.data demo_dw) (430 + 0x28) = Ok 486
  /\ u32 (DataWin.data demo_dw) 486 = Ok 9
  /\ (fun r => (Room.index r, length (Room.bg_defs r))) <$> rooms demo_ext
     = [(0, 8%nat)].
Proof. repeat split; vm_compute; reflexivity. Qed.

(** ** The remaining pointer tables *)























(** ** Names of decoded records *)








(** The spec's example: a sprite at index 7 with name pointer 0 is named
    ["sprite_7"]. *)
Example sprite_7_synthesized_name :
  (fun ext => (fun s => (Sprite.index s, Sprite.name s)) <$> sprites ext)
    <$> load sprt_archive_index_7
  = Ok [(7, text "sprite_7")].
Proof. vm_compute. reflexivity. Qed.

(** ** Extraction of a whole image *)

Lemma py_slice_app_mid front a rest :
  py_slice (front ++ a ++ rest) (blen front) (blen front + blen a) = a.
Proof.
  unfold blen. rewrite py_slice_inside.
  - replace (Z.to_nat (Z.of_nat (length front) + Z.of_nat (length a)
                       - Z.of_nat (length front))) with (length a) by lia.
    rewrite Nat2Z.id, drop_app_length. by rewrite take_app_length.
  - lia.
  - unfold blen. rewrite !length_app. lia.
Qed.

Lemma chunk_bytes_length c :
  chunk_ok c -> blen (chunk_bytes c) = 12 + blen (PngChunk.payload c).
Proof.
  intros (H1 & _ & H3 & H4). unfold chunk_bytes, blen. rewrite !length_app. lia.
Qed.

Lemma chunk_header_at front c rest :
  chunk_ok c ->
  py_slice (front ++ chunk_bytes c ++ rest) (blen front) (blen front + 4)
  = PngChunk.size_field c
  /\ py_slice (front ++ chunk_bytes c ++ rest) (blen front + 4) (blen front + 8)
     = PngChunk.type_ c.
Proof.
  intros (H1 & _ & H3 & H4). unfold chunk_bytes. split.
  - rewrite <- !(assoc_L (++)).
    replace 4 with (blen (PngChunk.size_field c)) by (unfold blen; lia).
    apply py_slice_app_mid.
  - replace (front ++ (PngChunk.size_field c ++ PngChunk.type_ c
                         ++ PngChunk.payload c ++ PngChunk.crc c) ++ rest)
      with ((front ++ PngChunk.size_field c) ++ PngChunk.type_ c
              ++ (PngChunk.payload c ++ PngChunk.crc c ++ rest))
      by (by rewrite <- !(assoc_L (++))).
    replace (blen front + 4) with (blen (front ++ PngChunk.size_field c))
      by (unfold blen; rewrite length_app; lia).
    replace (blen front + 8)
      with (blen (front ++ PngChunk.size_field c) + blen (PngChunk.type_ c))
      by (unfold blen; rewrite length_app; lia).
    apply py_slice_app_mid.
Qed.

(** One round of the scan at the start of a sub-block that is followed by
    at least one byte of payload or of buffer. *)
Lemma _extract_png_loop_step dw fuel off front c rest :
  DataWin.size dw = blen (DataWin.data dw) ->
  chunk_ok c ->
  DataWin.data dw = front ++ chunk_bytes c ++ rest ->
  PngChunk.payload c ≠ [] \/ rest ≠ [] ->
  _extract_png_loop dw (Datatypes.S fuel) off (blen front)
  = if bytes_eqb (PngChunk.type_ c) IEND
    then Ok (py_slice (DataWin.data dw) off (blen front + blen (chunk_bytes c)))
    else _extract_png_loop dw fuel off (blen front + blen (chunk_bytes c)).
Proof.
  intros Hsz Hok Hd Hmore. cbn [_extract_png_loop].
  pose proof (chunk_bytes_length c Hok) as Hlen.
  assert (blen (DataWin.data dw) = blen front + blen (chunk_bytes c) + blen rest) as Hall.
  { rewrite Hd. unfold blen. rewrite !length_app. lia. }
  assert (0 < blen (PngChunk.payload c) + blen rest) as Hpos.
  { unfold blen. destruct Hmore as [Hm|Hm].
    - destruct (PngChunk.payload c); [done|cbn; lia].
    - destruct rest; [done|cbn; lia]. }
  assert ((blen front <? DataWin.size dw - 12) = true) as -> by lia.
  destruct (chunk_header_at front c rest Hok) as [Hsf Hty].
  rewrite <- Hd in Hsf, Hty. rewrite Hsf, Hty.
  destruct Hok as (H1 & Hbe & H3 & H4).
  unfold unpack_be_I. rewrite H1. cbn [Nat.eqb mbind result_bind].
  rewrite Hbe. replace (blen front + (12 + blen (PngChunk.payload c)))
    with (blen front + blen (chunk_bytes c)) by lia.
  reflexivity.
Qed.

Lemma bytes_eqb_neq a b : a ≠ b -> bytes_eqb a b = false.
Proof.
  intros Hne. destruct (bytes_eqb a b) eqn:E; [|done].
  by apply bytes_eqb_eq in E.
Qed.

Lemma bytes_eqb_refl a : bytes_eqb a a = true.
Proof. by apply bytes_eqb_eq. Qed.

(** The scan over the sub-blocks of an image whose end marker is followed by
    at least one byte: it returns the bytes from [off] to the end of the
    end marker. *)
Lemma _extract_png_loop_blocks dw off iend post :
  DataWin.size dw = blen (DataWin.data dw) ->
  chunk_ok iend -> PngChunk.type_ iend = IEND ->
  PngChunk.payload iend ≠ [] \/ post ≠ [] ->
  forall blocks front fuel,
    Forall (fun c => chunk_ok c /\ PngChunk.type_ c ≠ IEND) blocks ->
    DataWin.data dw = front ++ flat_map chunk_bytes blocks ++ chunk_bytes iend ++ post ->
    (length blocks < fuel)%nat ->
    _extract_png_loop dw fuel off (blen front)
    = Ok (py_slice (DataWin.data dw) off (blen (DataWin.data dw) - blen post)).
Proof.
  intros Hsz Hok Hty Hmore blocks.
  induction blocks as [|c blocks IH]; intros front fuel Hall Hd Hfuel.
  - destruct fuel as [|fuel]; [lia|]. cbn [flat_map app] in Hd.
    rewrite (_extract_png_loop_step dw fuel off front iend post) by done.
    rewrite Hty, bytes_eqb_refl. do 2 f_equal.
    rewrite Hd. unfold blen. rewrite !length_app. lia.
  - destruct fuel as [|fuel]; [lia|]. cbn [flat_map] in Hd.
    rewrite <- (assoc_L (++)) in Hd.
    apply Forall_cons in Hall as [[Hc Hne] Hall].
    rewrite (_extract_png_loop_step dw fuel off front c
               (flat_map chunk_bytes blocks ++ chunk_bytes iend ++ post)); [|done..|].
    2:{ right. intros Hnil. apply (f_equal length) in Hnil.
        rewrite !length_app in Hnil. cbn [length] in Hnil.
        pose proof (chunk_bytes_length iend Hok). unfold blen in *. lia. }
    rewrite (bytes_eqb_neq _ _ Hne).
    replace (blen front + blen (chunk_bytes c)) with (blen (front ++ chunk_bytes c))
      by (unfold blen; rewrite length_app; lia).
    apply IH; [done| |cbn [length] in Hfuel; lia].
    by rewrite <- (assoc_L (++)).
Qed.

(** The same scan when the buffer ends with an end marker without payload:
    the guard stops the scan in front of the end marker. *)
Lemma _extract_png_loop_at_end dw off iend :
  DataWin.size dw = blen (DataWin.data dw) ->
  chunk_ok iend -> PngChunk.payload iend = [] ->
  forall blocks front fuel,
    Forall (fun c => chunk_ok c /\ PngChunk.type_ c ≠ IEND) blocks ->
    DataWin.data dw = front ++ flat_map chunk_bytes blocks ++ chunk_bytes iend ->
    _extract_png_loop dw fuel off (blen front) = Ok [] \/ (fuel <= length blocks)%nat.
Proof.
  intros Hsz Hok Hnil blocks.
  induction blocks as [|c blocks IH]; intros front fuel Hall Hd.
  - left. cbn [flat_map app] in Hd.
    pose proof (chunk_bytes_length iend Hok) as Hlen. rewrite Hnil in Hlen.
    assert (blen (DataWin.data dw) = blen front + 12) as Hsize.
    { rewrite Hd. unfold blen in *. rewrite length_app. cbn [length] in Hlen. lia. }
    destruct fuel; cbn [_extract_png_loop];
      assert ((blen front <? DataWin.size dw - 12) = false) as -> by lia; done.
  - destruct fuel as [|fuel]; [right; lia|]. cbn [flat_map] in Hd.
    rewrite <- (assoc_L (++)) in Hd.
    apply Forall_cons in Hall as [[Hc Hne] Hall].
    rewrite (_extract_png_loop_step dw fuel off front c
               (flat_map chunk_bytes blocks ++ chunk_bytes iend)); [|done..|].
    2:{ right. intros Hn. apply (f_equal length) in Hn.
        rewrite !length_app in Hn. cbn [length] in Hn.
        pose proof (chunk_bytes_length iend Hok). unfold blen in *. lia. }
    rewrite (bytes_eqb_neq _ _ Hne).
    replace (blen front + blen (chunk_bytes c)) with (blen (front ++ chunk_bytes c))
      by (unfold blen; rewrite length_app; lia).
    destruct (IH (front ++ chunk_bytes c) fuel Hall) as [Hr|Hf].
    + by rewrite <- (assoc_L (++)).
    + by left.
    + right. cbn [length]. lia.
Qed.

(** Every sub-block takes at least 12 bytes. *)
Lemma flat_map_chunk_bytes_length blocks :
  Forall (fun c => chunk_ok c /\ PngChunk.type_ c ≠ IEND) blocks ->
  (12 * length blocks <= length (flat_map chunk_bytes blocks))%nat.
Proof.
  induction 1 as [|c blocks [Hc _] _ IH]; cbn [flat_map length]; [lia|].
  rewrite length_app. pose proof (chunk_bytes_length c Hc). unfold blen in *. lia.
Qed.

(** C9, as the code has it.  Extraction of an embedded image.  Where the
    buffer holds, from some offset on, an image made of the signature,
    sub-blocks that each declare the length of their payload, and its end
    marker, the scan walks
    the sub-blocks by their declared lengths and returns exactly the bytes
    of the image, from its start through the end of its own end marker,
    whatever follows it, as long as something does: at least one byte must
    come after the image (or the end marker must carry a payload).  An
    image whose plain end marker closes the buffer is not extracted: the
    result is empty.  At an offset whose 8 leading bytes are not the
    signature the result is empty as well. *)
Theorem extract_png_whole_image (dw : DataWin.t) :
  DataWin.size dw = blen (DataWin.data dw) ->
  (forall pre blocks iend post,
     DataWin.data dw = pre ++ png_bytes blocks iend ++ post ->
     png_ok blocks iend ->
     (PngChunk.payload iend ≠ [] \/ post ≠ [] ->
      _extract_png dw (blen pre) = Ok (png_bytes blocks iend))
     /\ (PngChunk.payload iend = [] -> post = [] ->
         _extract_png dw (blen pre) = Ok []))
  /\ (forall off,
        py_slice (DataWin.data dw) off (off + 8) ≠ PNG_SIGNATURE ->
        _extract_png dw off = Ok []).
Proof.
  intros Hsz. split.
  - intros pre blocks iend post Hd (Hblocks & Hiend & Hty).
    assert (py_slice (DataWin.data dw) (blen pre) (blen pre + 8) = PNG_SIGNATURE) as Hsig.
    { rewrite Hd. unfold png_bytes. rewrite <- !(assoc_L (++)).
      change 8 with (blen PNG_SIGNATURE). apply py_slice_app_mid. }
    assert (DataWin.data dw
            = (pre ++ PNG_SIGNATURE) ++ flat_map chunk_bytes blocks
                ++ chunk_bytes iend ++ post) as Hd'.
    { rewrite Hd. unfold png_bytes. by rewrite <- !(assoc_L (++)). }
    assert (blen pre + 8 = blen (pre ++ PNG_SIGNATURE)) as Hpos
      by (unfold blen; rewrite length_app; cbn [length PNG_SIGNATURE]; lia).
    assert (length blocks < length (DataWin.data dw))%nat as Hfuel.
    { pose proof (flat_map_chunk_bytes_length blocks Hblocks) as Hl.
      pose proof (chunk_bytes_length iend Hiend) as Hi.
      rewrite Hd'. rewrite !length_app. unfold blen in Hi. lia. }
    unfold _extract_png. rewrite Hsig, bytes_eqb_refl. cbn [negb]. rewrite Hpos.
    split.
    + intros Hmore.
      rewrite (_extract_png_loop_blocks dw (blen pre) iend post Hsz Hiend Hty Hmore
                 blocks (pre ++ PNG_SIGNATURE) _ Hblocks Hd' Hfuel).
      f_equal. rewrite Hd at 1.
      replace (blen (DataWin.data dw) - blen post)
        with (blen pre + blen (png_bytes blocks iend))
        by (rewrite Hd; unfold blen; rewrite !length_app; lia).
      apply py_slice_app_mid.
    + intros Hnil ->. rewrite app_nil_r in Hd'.
      destruct (_extract_png_loop_at_end dw (blen pre) iend Hsz Hiend Hnil
                  blocks (pre ++ PNG_SIGNATURE) (length (DataWin.data dw)) Hblocks Hd')
        as [Hr|Hf]; [exact Hr|lia].
  - intros off Hne. unfold _extract_png. by rewrite (bytes_eqb_neq _ _ Hne).
Qed.

Lemma sample_png_ok : png_ok [sample_block] sample_iend.
Proof.
  split; [|split; [|reflexivity]].
  - constructor; [|constructor]. split; [by repeat split|discriminate].
  - by repeat split.
Qed.

Lemma extract_png_whole_image_witness :
  _extract_png (raw_buffer (zeros 4 ++ sample_png ++ sample_png)) (blen (zeros 4))
  = Ok sample_png.
Proof.
  destruct (extract_png_whole_image (raw_buffer (zeros 4 ++ sample_png ++ sample_png)))
    as [Himg _]; [reflexivity|].
  destruct (Himg (zeros 4) [sample_block] sample_iend sample_png) as [Hgood _];
    [reflexivity | exact sample_png_ok |].
  apply Hgood. right. discriminate.
Defined.

(** C9 as stated fails: the same image at the very end of the buffer is not
    extracted, although its signature matches and its end marker is
    complete; one more byte behind it and it is. *)
Lemma png_at_buffer_end_not_extracted :
  png_ok [sample_block] sample_iend
  /\ py_slice (zeros 4 ++ sample_png) 4 (4 + 8) = PNG_SIGNATURE
  /\ _extract_png (raw_buffer (zeros 4 ++ sample_png)) 4 = Ok []
  /\ _extract_png (raw_buffer (zeros 4 ++ sample_png ++ zeros 1)) 4 = Ok sample_png.
Proof.
  split; [exact sample_png_ok|]. repeat split; vm_compute; reflexivity.
Qed.

(** Two images back to back: extraction at the first stops at its own end
    marker, and extraction at the second, which closes the buffer, is
    empty. *)
Example png_back_to_back :
  _extract_png (raw_buffer (sample_png ++ sample_png)) 0 = Ok sample_png
  /\ _extract_png (raw_buffer (sample_png ++ sample_png)) (blen sample_png) = Ok [].
Proof. split; vm_compute; reflexivity. Qed.
